(** * streetscape.gl: the XVIZ loader interface and the KITTI GPS converter

    A shallow embedding of
    - [modules/core/src/loaders/xviz-loader-interface.js]: the versioned
      key/value store of a loader ([get], [set], [subscribe]), the time
      cursor ([seek]), the memoised selectors derived from the store and
      the event callbacks ([on], [off], [emit]);
    - the GPS converter of the KITTI example ([GPSConverter]): decoding of
      one OXTS record, loading of a recording, conversion of a frame,
      trajectory vertices.

    JavaScript numbers are IEEE 754 binary64 values and are embedded as
    Rocq's primitive floats, so that [NaN], the two zeros and the infinities
    behave as they do in the source. *)

From Stdlib Require Import Floats ZArith Ascii.
From stdpp Require Import gmap strings list sorting.

Local Open Scope Z_scope.

(** ** JavaScript values *)

Module JS.

(** Identity of a composite value (object, array, class instance). *)
Definition ref := nat.

Inductive value :=
| VUndefined
| VNull
| VBool (b : bool)
| VNum (x : float)
| VStr (s : string)
| VObj (r : ref).

Arguments VObj r%_nat.

(** ToBoolean: what [if (v)] and [v && ...] test. *)
Definition truthy (v : value) : bool :=
  match v with
  | VUndefined | VNull => false
  | VBool b => b
  | VNum x => negb (PrimFloat.is_zero x || PrimFloat.is_nan x)
  | VStr s => negb (String.eqb s "")
  | VObj _ => true
  end.

(** [a === b]: numbers by IEEE equality (NaN differs from itself, the two
    zeros are equal), other primitives by value, composites by identity. *)
Definition strict_eq (a b : value) : bool :=
  match a, b with
  | VUndefined, VUndefined => true
  | VNull, VNull => true
  | VBool x, VBool y => Bool.eqb x y
  | VNum x, VNum y => PrimFloat.eqb x y
  | VStr x, VStr y => String.eqb x y
  | VObj x, VObj y => Nat.eqb x y
  | _, _ => false
  end.

(** [a !== b] *)
Definition strict_neq (a b : value) : bool := negb (strict_eq a b).

(** [Number.isFinite(v)]: no coercion, only finite numbers pass. *)
Definition isFinite (v : value) : bool :=
  match v with
  | VNum x => negb (PrimFloat.is_nan x || PrimFloat.is_infinity x)
  | _ => false
  end.

(** ToNumber, which [Number(v)], [v / 1000] and [Math.min]/[Math.max] apply
    to their operands. The conversion of a string (ECMAScript's
    StringToNumber) belongs to the runtime and is taken as a parameter. The
    composite values of this development are plain objects, which convert
    to NaN. *)
Definition ToNumber (StringToNumber : string → float) (v : value) : float :=
  match v with
  | VUndefined => PrimFloat.nan
  | VNull => 0%float
  | VBool b => if b then 1%float else 0%float
  | VNum x => x
  | VStr s => StringToNumber s
  | VObj _ => PrimFloat.nan
  end.

(** [Math.min(a, b)] and [Math.max(a, b)] on numbers: NaN is contagious and
    the negative zero is below the positive one. *)
Definition Math_min (a b : float) : float :=
  if PrimFloat.is_nan a || PrimFloat.is_nan b then PrimFloat.nan
  else if PrimFloat.is_zero a && PrimFloat.is_zero b
       then (if PrimFloat.get_sign a then a else b)
  else if PrimFloat.ltb a b then a else b.

Definition Math_max (a b : float) : float :=
  if PrimFloat.is_nan a || PrimFloat.is_nan b then PrimFloat.nan
  else if PrimFloat.is_zero a && PrimFloat.is_zero b
       then (if PrimFloat.get_sign a then b else a)
  else if PrimFloat.ltb a b then b else a.

(** [Math.cos] and [Math.sin]. ECMAScript fixes their results on NaN, on
    the infinities and on the zeros, and leaves the other results to the
    runtime's approximation, which is a parameter. *)
Record Trig := {
  cos_approx : float → float;
  sin_approx : float → float
}.

Definition Math_cos (m : Trig) (x : float) : float :=
  if PrimFloat.is_nan x || PrimFloat.is_infinity x then PrimFloat.nan
  else if PrimFloat.is_zero x then 1%float
  else cos_approx m x.

Definition Math_sin (m : Trig) (x : float) : float :=
  if PrimFloat.is_nan x || PrimFloat.is_infinity x then PrimFloat.nan
  else if PrimFloat.is_zero x then x
  else sin_approx m x.

(** A runtime that approximates the cosine and the sine of a finite number
    by finite numbers. *)
Definition finite_trig (m : Trig) : Prop :=
  ∀ x, isFinite (VNum x) = true →
       isFinite (VNum (cos_approx m x)) = true
       ∧ isFinite (VNum (sin_approx m x)) = true.

(** Exceptions a call may end in, and the result of a call. *)
Inductive exn :=
| TypeError
| Error (message : string).

Inductive outcome (A : Type) :=
| Returned (a : A)
| Thrown (e : exn).

Arguments Returned {A} a.
Arguments Thrown {A} e.

Definition throws {A} (o : outcome A) : Prop := ∃ e, o = Thrown e.

(** What the code reaches outside the repository: the settings of
    [@xviz/parser] and the runtime's string-to-number conversion. *)
Record XvizSettings := { TIME_WINDOW : float }.

Record Host := {
  getXvizSettings : XvizSettings;
  StringToNumber : string → float
}.

End JS.

Import JS.

(** ** The loader: [XVIZLoaderInterface] *)

Module Loader.

Record StreamDecl := {
  category : option string;
  type : option string
}.

(** The metadata object. The two times are numbers (the code adds to and
    clamps with them; a missing one behaves as NaN there). [streams] holds
    the declared streams in the order in which [Object.keys] lists them:
    the names that are array indices first, in ascending order, then the
    other names in the order they were added. *)
Record Metadata := {
  start_time : float;
  end_time : float;
  streams : option (list (string * StreamDecl))
}.

(** The log synchronizer is a collaborator from [@xviz/parser]: an object
    with a state of its own and the two methods the loader calls. *)
Record LogSynchronizer := {
  sync_state : Type;
  sync_current : sync_state;
  sync_setTime : float → sync_state → sync_state;
  sync_getCurrentFrame :
    option (list (string * StreamDecl)) → sync_state → value * sync_state
}.

(** One element of a stream's array: a pose of the [vehicle-pose] stream
    ([{time, ...}]), a frame of an image stream ([{images: [...]}], where
    [images] may be missing), or any other value, in particular the holes
    [undefined] and [null]. *)
Inductive entry :=
| EPose (time : value)
| EFrame (images : option (list value))
| EValue (v : value).

(** The objects the store's values refer to. Image payloads are property
    bags; they are the objects a selector writes to. *)
Inductive obj :=
| OMetadata (m : Metadata)
| OStreams (s : gmap string (list entry))
| OSynchronizer (s : LogSynchronizer)
| OImage (props : gmap string value).

(** A listener is identified by the function object that was subscribed;
    calling it leaves a record of the call: the argument it received and the
    store contents it could read at that moment. Listeners here observe;
    they do not call back into the loader. *)
Record Notification := {
  listener : nat;
  version_arg : Z;
  seen : gmap string value
}.

(** The fields of the instance that the store uses (constructor, lines
    29-38): [listeners = []], [state = {}], [_version = 0]. The version is
    a counter that starts at 0 and is only incremented; it stays in the
    range where JavaScript numbers are exact integers and is embedded as an
    integer. *)
Record XVIZLoaderInterface := {
  listeners : list nat;
  state : gmap string value;
  _version : Z
}.

(** The program state: the loader instance, the objects on the heap, and the
    listener calls made so far (oldest first). *)
Record World := {
  this : XVIZLoaderInterface;
  heap : gmap ref obj;
  calls : list Notification
}.

Definition constructor : XVIZLoaderInterface :=
  {| listeners := []; state := ∅; _version := 0 |}.

(** [subscribe(instance)]: [this.listeners.push(instance)] *)
Definition subscribe (instance : nat) (w : World) : World :=
  {| this := {| listeners := listeners (this w) ++ [instance];
                state := state (this w);
                _version := _version (this w) |};
     heap := heap w; calls := calls w |}.

Fixpoint remove_first (instance : nat) (l : list nat) : list nat :=
  match l with
  | [] => []
  | o :: rest => if Nat.eqb o instance then rest else o :: remove_first instance rest
  end.

(** [unsubscribe(instance)]: [findIndex] then [splice(index, 1)] *)
Definition unsubscribe (instance : nat) (w : World) : World :=
  {| this := {| listeners := remove_first instance (listeners (this w));
                state := state (this w);
                _version := _version (this w) |};
     heap := heap w; calls := calls w |}.

(** [this.state] and [this.callbacks] are object literals ([{}],
    constructor, lines 32 and 35), so reading a name that [Object.prototype]
    defines gives the inherited member, not [undefined], and assigning to
    [__proto__] stores nothing. The store and the callbacks are read here
    as tables of their own properties; that is what the code does for every
    other name. *)
Definition Object_prototype : list string :=
  [ "__defineGetter__"; "__defineSetter__"; "__lookupGetter__"; "__lookupSetter__";
    "__proto__"; "constructor"; "hasOwnProperty"; "isPrototypeOf";
    "propertyIsEnumerable"; "toLocaleString"; "toString"; "valueOf" ].

Definition inherited (name : string) : bool := bool_decide (name ∈ Object_prototype).

(** [get(key)]: [this.state[key]], for a key that is not [inherited]:
    [undefined] when the key was never set *)
Definition get (key : string) (w : World) : value :=
  default VUndefined (state (this w) !! key).

(** [this.listeners.forEach(o => o(this._version))] *)
Definition notify (l : XVIZLoaderInterface) : list Notification :=
  map (λ o, {| listener := o; version_arg := _version l; seen := state l |})
      (listeners l).

(** [set(key, value)], lines 87-93, for a key that is not [inherited] *)
Definition set (key : string) (v : value) (w : World) : World :=
  if strict_neq (get key w) v then
    let l := {| listeners := listeners (this w);
                state := <[key := v]> (state (this w));
                _version := _version (this w) + 1 |} in
    {| this := l; heap := heap w; calls := calls w ++ notify l |}
  else w.

(** *** Selectors *)

(** Modelled from the spec: [createSelector], imported from
    [../utils/create-selector], which is not among the sources. A selector
    is made from its input selectors and a recompute function, and keeps
    the inputs and the result of its last recomputation (spec 4.5). The
    recompute function also receives the world, for the objects its inputs
    refer to. *)
Record Selector (I R : Type) := createSelector {
  input_selectors : World → I;
  recompute : I → World → R
}.

Arguments createSelector {I R} _ _.
Arguments input_selectors {I R} _ _.
Arguments recompute {I R} _ _ _.

(** What a read computes when the cache does not answer it: the input
    selectors are evaluated and the recompute function is applied to their
    values. A selector applied to a world stands for this recomputation;
    [read], below, is the read with the cache, which either recomputes or
    returns what an earlier recomputation returned. *)
Definition recomputed {I R : Type} (s : Selector I R) (w : World) : R :=
  match s with
  | createSelector inputs f => f (inputs w) w
  end.

Coercion recomputed : Selector >-> Funclass.

Arguments recomputed : simpl never.

(** The comparison of a selector's inputs with those it cached: [===],
    input by input. It is given for inputs that are values of the store;
    an input that is an array made by another selector is compared by
    reference, and the identity of such arrays is not tracked here. *)
Class Identical (I : Type) := identical : I → I → bool.

#[export] Instance identical_value : Identical value := strict_eq.

#[export] Instance identical_pair {A B : Type} `{Identical A} `{Identical B} :
    Identical (A * B) :=
  λ a b, identical a.1 b.1 && identical a.2 b.2.

(** The cache of a selector: the inputs and the result of its last
    recomputation that returned, if there was one. *)
Definition Cache (I A : Type) : Type := option (I * A).

Definition answers {I A : Type} `{Identical I} (cache : Cache I A) (i : I) : option A :=
  match cache with
  | Some (i0, a) => if identical i0 i then Some a else None
  | None => None
  end.

(** Modelled from the spec: a read of a selector made by [createSelector]
    (spec 4.5). The input selectors are evaluated and compared with the
    cached inputs; if they are the same, the cached result is returned and
    the recompute function is not invoked; otherwise the selector
    recomputes, caches the new inputs and result, and returns the result.
    A recomputation that throws caches nothing. *)
Definition read {I A : Type} `{Identical I} (s : Selector I (outcome A * World))
    (cache : Cache I A) (w : World) : outcome A * Cache I A * World :=
  let i := input_selectors s w in
  match answers cache i with
  | Some a => (Returned a, cache, w)
  | None =>
      match recompute s i w with
      | (Returned a, w') => (Returned a, Some (i, a), w')
      | (Thrown e, w') => (Thrown e, cache, w')
      end
  end.

(** A cache holds what a recomputation returned for the inputs it holds. *)
Definition computed {I A : Type} (s : Selector I (outcome A * World))
    (cache : Cache I A) : Prop :=
  match cache with
  | Some (i, a) => ∃ w0, (recompute s i w0).1 = Returned a
  | None => True
  end.

Definition getCurrentTime (w : World) : value := get "timestamp" w.
Definition getMetadata (w : World) : value := get "metadata" w.
Definition getLogSynchronizer (w : World) : value := get "logSynchronizer" w.
Definition getStreams (w : World) : value := get "streams" w.

(** The metadata object a value refers to. A value of any other kind has
    none of a metadata object's properties: reading one gives [undefined]. *)
Definition as_metadata (h : gmap ref obj) (v : value) : option Metadata :=
  match v with
  | VObj r => match h !! r with Some (OMetadata m) => Some m | _ => None end
  | _ => None
  end.

Definition as_streams (h : gmap ref obj) (v : value) : option (gmap string (list entry)) :=
  match v with
  | VObj r => match h !! r with Some (OStreams s) => Some s | _ => None end
  | _ => None
  end.

(** [getLogStartTime], lines 134-136:
    [metadata && metadata.start_time + getXvizSettings().TIME_WINDOW] *)
Definition getLogStartTime (host : Host) : Selector value value :=
  createSelector getMetadata (λ metadata w,
    if truthy metadata then
      match as_metadata (heap w) metadata with
      | Some m => VNum (start_time m + TIME_WINDOW (getXvizSettings host))%float
      | None => VNum PrimFloat.nan
      end
    else metadata).

(** [getLogEndTime], lines 138-140: [metadata && metadata.end_time] *)
Definition getLogEndTime : Selector value value :=
  createSelector getMetadata (λ metadata w,
    if truthy metadata then
      match as_metadata (heap w) metadata with
      | Some m => VNum (end_time m)
      | None => VUndefined
      end
    else metadata).

(** Modelled from the spec: [clamp], imported from [math.gl], which is
    outside the repository: the value clamped into [[min, max]], computed as
    [Math.max(min, Math.min(max, value))]. *)
Definition clamp (host : Host) (v min max : value) : float :=
  Math_max (ToNumber (StringToNumber host) min)
           (Math_min (ToNumber (StringToNumber host) max)
                     (ToNumber (StringToNumber host) v)).

(** [seek(timestamp)], lines 104-114 *)
Definition seek (host : Host) (timestamp : value) (w : World) : World :=
  let metadata := getMetadata w in
  let timestamp :=
    if truthy metadata then
      let startTime := getLogStartTime host w in
      let endTime := getLogEndTime w in
      VNum (clamp host timestamp startTime endTime)
    else timestamp in
  set "timestamp" timestamp w.

(** [metadata.streams] of a truthy [metadata] *)
Definition metadata_streams (h : gmap ref obj) (metadata : value) :
    option (list (string * StreamDecl)) :=
  match as_metadata h metadata with
  | Some m => streams m
  | None => None
  end.

(** The synchronizer object after a call of its methods left it in state
    [st]. *)
Definition moved_to (s : LogSynchronizer) (st : sync_state s) : LogSynchronizer :=
  {| sync_state := sync_state s;
     sync_current := st;
     sync_setTime := sync_setTime s;
     sync_getCurrentFrame := sync_getCurrentFrame s |}.

(** [getCurrentFrame], lines 142-152. Calling [setTime] on a value that is
    not a synchronizer is a TypeError. The synchronizer object is updated in
    place by its two methods. *)
Definition getCurrentFrame : Selector (value * value * value) (outcome value * World) :=
  createSelector (λ w, (getLogSynchronizer w, getMetadata w, getCurrentTime w))
    (λ '(logSynchronizer, metadata, timestamp) w,
      if truthy logSynchronizer && truthy metadata && isFinite timestamp then
        match logSynchronizer, timestamp with
        | VObj r, VNum t =>
            match heap w !! r with
            | Some (OSynchronizer s) =>
                let s1 := sync_setTime s t (sync_current s) in
                let '(frame, s2) :=
                  sync_getCurrentFrame s (metadata_streams (heap w) metadata) s1 in
                (Returned frame,
                 {| this := this w;
                    heap := <[r := OSynchronizer (moved_to s s2)]> (heap w);
                    calls := calls w |})
            | _ => (Thrown TypeError, w)
            end
        | _, _ => (Thrown TypeError, w)
        end
      else (Returned VNull, w)).

(** [pose => pose.time] *)
Definition pose_time (pose : entry) : outcome value :=
  match pose with
  | EPose t => Returned t
  | EFrame _ => Returned VUndefined
  | EValue VUndefined | EValue VNull => Thrown TypeError
  | EValue _ => Returned VUndefined
  end.

Fixpoint map_pose_time (poses : list entry) : outcome (list value) :=
  match poses with
  | [] => Returned []
  | pose :: rest =>
      match pose_time pose with
      | Thrown e => Thrown e
      | Returned t =>
          match map_pose_time rest with
          | Thrown e => Thrown e
          | Returned ts => Returned (t :: ts)
          end
      end
  end.

(** [streams[streamName]] of a truthy [streams]: the stream's array, or
    [undefined] ([None]) *)
Definition stream_of (h : gmap ref obj) (streams : value) (streamName : string) :
    option (list entry) :=
  match as_streams h streams with
  | Some s => s !! streamName
  | None => None
  end.

(** [getTimestamps], lines 165-171; [None] is the [null] it returns when
    there is no [vehicle-pose] stream. *)
Definition getTimestamps : Selector value (outcome (option (list value))) :=
  createSelector getStreams (λ streams w,
    let vehiclePoses :=
      if truthy streams then stream_of (heap w) streams "vehicle-pose" else None in
    match vehiclePoses with
    | Some poses =>
        match map_pose_time poses with
        | Returned ts => Returned (Some ts)
        | Thrown e => Thrown e
        end
    | None => Returned None
    end).

Definition is_image (d : string * StreamDecl) : bool :=
  match type d.2 with
  | Some t => String.eqb t "image"
  | None => false
  end.

(** [getImageStreamNames], lines 173-178; [None] is a falsy result (no
    metadata, or metadata without [streams]). *)
Definition getImageStreamNames : Selector value (option (list string)) :=
  createSelector getMetadata (λ metadata w,
    let streams :=
      if truthy metadata then metadata_streams (heap w) metadata else None in
    match streams with
    | Some decls => Some (map fst (filter (λ d, is_image d = true) decls))
    | None => None
    end).

(** [frame && frame.images[0]]: a falsy [frame] is the result itself;
    a truthy one without an [images] array makes [images[0]] a TypeError. *)
Definition first_image (frame : entry) : outcome value :=
  match frame with
  | EValue v => if truthy v then Thrown TypeError else Returned v
  | EPose _ => Thrown TypeError
  | EFrame None => Thrown TypeError
  | EFrame (Some images) => Returned (default VUndefined (images !! 0%nat))
  end.

(** [Object.assign(target, {timestamp})], for a truthy [target]: the
    property is written into the image object [target] refers to. *)
Definition assign_timestamp (target : value) (timestamp : float)
    (h : gmap ref obj) : gmap ref obj :=
  match target with
  | VObj r =>
      match h !! r with
      | Some (OImage props) => <[r := OImage (<["timestamp" := VNum timestamp]> props)]> h
      | _ => h
      end
  | _ => h
  end.

(** The callback of [streams[streamName].map], lines 187-194. Reading
    [timestamps[i]] of a [null] [timestamps] is a TypeError. *)
Definition align_frame (host : Host) (timestamps : option (list value))
    (frame : entry) (i : nat) (h : gmap ref obj) : outcome value * gmap ref obj :=
  match timestamps with
  | None => (Thrown TypeError, h)
  | Some ts =>
      let timestamp := default VUndefined (ts !! i) in
      match first_image frame with
      | Thrown e => (Thrown e, h)
      | Returned image =>
          if truthy image then
            (Returned image,
             assign_timestamp image
               (ToNumber (StringToNumber host) timestamp / 1000)%float h)
          else (Returned image, h)
      end
  end.

(** [array.map((frame, i) => ...)], from index [i] on *)
Fixpoint align_frames (host : Host) (timestamps : option (list value))
    (frames : list entry) (i : nat) (h : gmap ref obj) :
    outcome (list value) * gmap ref obj :=
  match frames with
  | [] => (Returned [], h)
  | frame :: rest =>
      match align_frame host timestamps frame i h with
      | (Thrown e, h1) => (Thrown e, h1)
      | (Returned image, h1) =>
          match align_frames host timestamps rest (S i) h1 with
          | (Thrown e, h2) => (Thrown e, h2)
          | (Returned images, h2) => (Returned (image :: images), h2)
          end
      end
  end.

(** [imageStreamNames.forEach(streamName => { frames[streamName] = ... })].
    [streams[streamName].map] of a stream that [streams] does not hold is a
    TypeError. *)
Fixpoint align_streams (host : Host) (streams : value)
    (timestamps : option (list value)) (imageStreamNames : list string)
    (frames : gmap string (list value)) (h : gmap ref obj) :
    outcome (gmap string (list value)) * gmap ref obj :=
  match imageStreamNames with
  | [] => (Returned frames, h)
  | streamName :: rest =>
      match stream_of h streams streamName with
      | None => (Thrown TypeError, h)
      | Some stream =>
          match align_frames host timestamps stream 0 h with
          | (Thrown e, h1) => (Thrown e, h1)
          | (Returned images, h1) =>
              align_streams host streams timestamps rest
                (<[streamName := images]> frames) h1
          end
      end
  end.

(** [getImageFrames], lines 180-201; [None] is the [null] it returns. An
    exception in the input selector [getTimestamps] ends the read. *)
Definition getImageFrames (host : Host) :
    Selector (option (list string) * value * outcome (option (list value)))
             (outcome (option (gmap string (list value))) * World) :=
  createSelector (λ w, (getImageStreamNames w, getStreams w, getTimestamps w))
    (λ '(imageStreamNames, streams, timestamps) w,
      match timestamps with
      | Thrown e => (Thrown e, w)
      | Returned timestamps =>
          match truthy streams, imageStreamNames with
          | true, Some names =>
              match align_streams host streams timestamps names ∅ (heap w) with
              | (Thrown e, h) =>
                  (Thrown e, {| this := this w; heap := h; calls := calls w |})
              | (Returned frames, h) =>
                  (Returned (Some frames),
                   {| this := this w; heap := h; calls := calls w |})
              end
          | _, _ => (Returned None, w)
          end
      end).

(** [_setMetadata(metadata)], lines 204-209. [metadata.start_time] is read
    only when the stored timestamp is not a finite number; it is a TypeError
    on [undefined] and [null]. *)
Definition _setMetadata (host : Host) (metadata : value) (w : World) :
    outcome unit * World :=
  let w1 := set "metadata" metadata w in
  let timestamp := get "timestamp" w1 in
  if isFinite timestamp then (Returned tt, seek host timestamp w1)
  else
    match metadata with
    | VUndefined | VNull => (Thrown TypeError, w1)
    | _ =>
        let start :=
          match as_metadata (heap w1) metadata with
          | Some m => VNum (start_time m)
          | None => VUndefined
          end in
        (Returned tt, seek host start w1)
    end.

(** Counting, for a listener [o]: the calls it received, and the times it
    is registered. *)
Definition calls_to (o : nat) (ns : list Notification) : nat :=
  length (filter (λ n, listener n = o) ns).

Definition registrations (o : nat) (l : list nat) : nat :=
  length (filter (λ x, x = o) l).

(** The world of a loader just constructed, over a given heap. *)
Definition fresh (h : gmap ref obj) : World :=
  {| this := constructor; heap := h; calls := [] |}.

(** An entry whose first image can be read: a hole ([undefined], [null] or
    another falsy value) or a frame with an [images] array. *)
Definition readable (frame : entry) : bool :=
  match first_image frame with
  | Returned _ => true
  | Thrown _ => false
  end.

(** What such an entry contributes to the result: its first image, or the
    hole itself. *)
Definition image_or_hole (frame : entry) : value :=
  match first_image frame with
  | Returned v => v
  | Thrown _ => VUndefined
  end.

(** [h'] differs from [h] at most in the [timestamp] property of image
    objects. *)
Definition timestamps_only (h h' : gmap ref obj) : Prop :=
  ∀ r, h' !! r = h !! r
       ∨ ∃ props props',
           h !! r = Some (OImage props) ∧ h' !! r = Some (OImage props')
           ∧ ∀ k, k ≠ "timestamp" → props' !! k = props !! k.

(** [getTimeDomain], lines 154-158: [[logStartTime, logEndTime]] *)
Definition getTimeDomain (host : Host) : Selector (value * value) (value * value) :=
  createSelector (λ w, (getLogStartTime host w, getLogEndTime w))
    (λ '(logStartTime, logEndTime) _, (logStartTime, logEndTime)).

(** One call on the loader, as a step of the world. *)
Inductive step (host : Host) : World → World → Prop :=
| step_subscribe instance w : step host w (subscribe instance w)
| step_unsubscribe instance w : step host w (unsubscribe instance w)
| step_set key v w : inherited key = false → step host w (set key v w)
| step_seek timestamp w : step host w (seek host timestamp w)
| step_setMetadata metadata w : step host w (_setMetadata host metadata w).2
| step_getCurrentFrame w : step host w (getCurrentFrame w).2
| step_getImageFrames w : step host w (getImageFrames host w).2.

(** The worlds a loader constructed over heap [h] can be in. *)
Definition reachable (host : Host) (h : gmap ref obj) (w : World) : Prop :=
  rtc (step host) (fresh h) w.

(** The versions listeners were called with: each between 1 and the current
    version, and never decreasing from one call to the next. *)
Definition versions_in_order (w : World) : Prop :=
  0 ≤ _version (this w)
  ∧ (∀ n, n ∈ calls w → 1 ≤ version_arg n ≤ _version (this w))
  ∧ ∀ i j a b, (i ≤ j)%nat → calls w !! i = Some a → calls w !! j = Some b →
               version_arg a ≤ version_arg b.

(** The holes of a stream array: [undefined] and [null]. *)
Definition is_hole (e : entry) : bool :=
  match e with
  | EValue VUndefined | EValue VNull => true
  | _ => false
  end.

(** The writes a run of [getImageFrames] makes, in order: the image object
    and the timestamp assigned to it. *)
Definition write_timestamp (h : gmap ref obj) (wr : ref * float) : gmap ref obj :=
  assign_timestamp (VObj wr.1) wr.2 h.

Definition frame_writes (host : Host) (ts : list value) (image : value) (i : nat) :
    list (ref * float) :=
  match image with
  | VObj r =>
      [(r, (ToNumber (StringToNumber host) (default VUndefined (ts !! i)) / 1000)%float)]
  | _ => []
  end.

Fixpoint frames_writes (host : Host) (timestamps : option (list value))
    (frames : list entry) (i : nat) : list (ref * float) :=
  match frames with
  | [] => []
  | frame :: rest =>
      match timestamps, first_image frame with
      | Some ts, Returned image =>
          frame_writes host ts image i ++ frames_writes host timestamps rest (S i)
      | _, _ => []
      end
  end.

Fixpoint streams_writes (host : Host) (table : option (gmap string (list entry)))
    (timestamps : option (list value)) (names : list string) : list (ref * float) :=
  match names with
  | [] => []
  | name :: rest =>
      match table ≫= (λ s, s !! name) with
      | None => []
      | Some stream =>
          frames_writes host timestamps stream 0 ++
          match (align_frames host timestamps stream 0 ∅).1 with
          | Returned _ => streams_writes host table timestamps rest
          | Thrown _ => []
          end
      end
  end.

(** The [timestamp] an image object ends with after a list of writes. *)
Definition stamp (ws : list (ref * float)) (r : ref) (props : gmap string value) :
    gmap string value :=
  foldl (λ p wr, if decide (wr.1 = r) then <["timestamp" := VNum wr.2]> p else p)
        props ws.

End Loader.

(** ** The event callbacks of the loader: [on], [off], [emit] *)

Module Emitter.

(** [this.callbacks] (constructor, line 32): for each event type, the
    callbacks in the order they were registered. The three methods use no
    other field of the instance. Callbacks here return normally and do not
    register or remove callbacks themselves.

    For an event type that names a member of [Object.prototype], the read
    [this.callbacks[eventType]] gives that member, which is truthy and not
    an array: [push], [indexOf] and the iteration are TypeErrors, and no
    array is ever stored under such a name. *)
Record Call := {
  callback : nat;
  eventType : string;
  eventArgs : value
}.

(** [on(eventType, cb)], lines 46-50 *)
Definition on (type : string) (cb : nat) (callbacks : gmap string (list nat)) :
    outcome (gmap string (list nat)) :=
  if Loader.inherited type then Thrown TypeError
  else Returned (<[type := default [] (callbacks !! type) ++ [cb]]> callbacks).

(** [off(eventType, cb)], lines 52-61: [indexOf], then [splice(index, 1)]
    when the callback was found *)
Definition off (type : string) (cb : nat) (callbacks : gmap string (list nat)) :
    outcome (gmap string (list nat)) :=
  if Loader.inherited type then Thrown TypeError
  else
    match callbacks !! type with
    | Some registered =>
        if decide (cb ∈ registered)
        then Returned (<[type := Loader.remove_first cb registered]> callbacks)
        else Returned callbacks
    | None => Returned callbacks
    end.

(** [emit(eventType, eventArgs)], lines 63-70: the calls made, in order *)
Definition emit (type : string) (args : value) (callbacks : gmap string (list nat)) :
    outcome (list Call) :=
  if Loader.inherited type then Thrown TypeError
  else
    match callbacks !! type with
    | Some registered =>
        Returned
          (map (λ cb, {| callback := cb; eventType := type; eventArgs := args |})
               registered)
    | None => Returned []
    end.

End Emitter.

(** ** The GPS converter of the KITTI example: [GPSConverter] *)

Module GPS.

(** The pose record, over the type of its numeric fields. [time] is the
    timestamp as it was passed in. *)
Record Pose (N : Type) := {
  time : value;
  latitude : N;
  longitude : N;
  altitude : N;
  roll : N;
  pitch : N;
  yaw : N
}.

Arguments time {N} _.
Arguments latitude {N} _.
Arguments longitude {N} _.
Arguments altitude {N} _.
Arguments roll {N} _.
Arguments pitch {N} _.
Arguments yaw {N} _.

Module Velocity.
Record t := {
  timestamp : value;
  velocity_north : float;
  velocity_east : float;
  velocity_forward : float;
  velocity_left : float;
  velocity_upward : float;
  angular_rate_x : float;
  angular_rate_y : float;
  angular_rate_z : float;
  angular_rate_forward : float;
  angular_rate_left : float;
  angular_rate_upward : float
}.
End Velocity.

Module Acceleration.
Record t := {
  timestamp : value;
  acceleration_x : float;
  acceleration_y : float;
  acceleration_z : float;
  acceleration_forward : float;
  acceleration_left : float;
  acceleration_upward : float
}.
End Acceleration.

(** [resMap]: what [_convertPoseEntry] returns *)
Record FrameEntry := {
  pose : Pose float;
  velocity : Velocity.t;
  acceleration : Acceleration.t
}.

(** What the converter imports: the file system of Node and the two parsers
    of [../parsers], which are not among the sources. *)
Record Imports := {
  readdirSync : string → list string;
  readFileSync : string → string;
  getTimestamps : string → list value;
  loadOxtsPackets : string → gmap string value
}.

(** [path.join(a, b)], for segments that need no normalisation *)
Definition path_join (a b : string) : string := a +:+ "/" +:+ b.

(** The instance after [constructor(directory)] *)
Record GPSConverter := {
  rootDir : string;
  gpsDir : string
}.

Definition constructor (directory : string) : GPSConverter :=
  {| rootDir := directory;
     gpsDir := path_join (path_join directory "oxts") "data" |}.

(** The three fields [load] assigns *)
Record Recording := {
  timestamps : list value;
  gpsFiles : list string;
  poses : list FrameEntry
}.

(** [Array.prototype.sort()] on strings: ascending, by code unit *)
Fixpoint sort_insert (s : string) (l : list string) : list string :=
  match l with
  | [] => [s]
  | x :: rest => if String.leb s x then s :: l else x :: sort_insert s rest
  end.

Definition sort (l : list string) : list string := foldr sort_insert [] l.

(** [content.split('\n')[0]] *)
Fixpoint first_line (s : string) : string :=
  match s with
  | EmptyString => EmptyString
  | String c rest => if Ascii.eqb c "010"%char then EmptyString else String c (first_line rest)
  end.

(** A property of the record read by destructuring; [undefined] when the
    record lacks it. *)
Definition field (oxts : gmap string value) (name : string) : value :=
  default VUndefined (oxts !! name).

(** [Number(v)] *)
Definition Number (host : Host) (v : value) : float :=
  ToNumber (StringToNumber host) v.

(** [_convertPoseEntry(oxts, timestamp)], lines 132-196 *)
Definition _convertPoseEntry (host : Host) (oxts : gmap string value)
    (timestamp : value) : outcome FrameEntry :=
  let num name := Number host (field oxts name) in
  Returned
    {| pose :=
         {| time := timestamp;
            latitude := num "lat";
            longitude := num "lon";
            altitude := num "alt";
            roll := num "roll";
            pitch := num "pitch";
            yaw := num "yaw" |};
       velocity :=
         {| Velocity.timestamp := timestamp;
            Velocity.velocity_north := num "vn";
            Velocity.velocity_east := num "ve";
            Velocity.velocity_forward := num "vf";
            Velocity.velocity_left := num "vl";
            Velocity.velocity_upward := num "vu";
            Velocity.angular_rate_x := num "wx";
            Velocity.angular_rate_y := num "wy";
            Velocity.angular_rate_z := num "wz";
            Velocity.angular_rate_forward := num "wf";
            Velocity.angular_rate_left := num "wl";
            Velocity.angular_rate_upward := num "wu" |};
       acceleration :=
         {| Acceleration.timestamp := timestamp;
            Acceleration.acceleration_x := num "ax";
            Acceleration.acceleration_y := num "ay";
            Acceleration.acceleration_z := num "az";
            Acceleration.acceleration_forward := num "af";
            Acceleration.acceleration_left := num "al";
            Acceleration.acceleration_upward := num "au" |} |}.

(** [_convertPose(filePath, timestamp)], lines 123-128 *)
Definition _convertPose (host : Host) (io : Imports) (filePath : string)
    (timestamp : value) : outcome FrameEntry :=
  let fileContent := first_line (readFileSync io filePath) in
  let oxts := loadOxtsPackets io fileContent in
  _convertPoseEntry host oxts timestamp.

(** [this.gpsFiles.map((fileName, i) => ...)], from index [i] on;
    [this.timestamps[i]] is [undefined] past the end of the timestamps. *)
Fixpoint convert_files (host : Host) (io : Imports) (dir : string)
    (ts : list value) (files : list string) (i : nat) : outcome (list FrameEntry) :=
  match files with
  | [] => Returned []
  | fileName :: rest =>
      let srcFilePath := path_join dir fileName in
      match _convertPose host io srcFilePath (default VUndefined (ts !! i)) with
      | Thrown e => Thrown e
      | Returned entry =>
          match convert_files host io dir ts rest (S i) with
          | Thrown e => Thrown e
          | Returned entries => Returned (entry :: entries)
          end
      end
  end.

(** [load()], lines 39-50 *)
Definition load (host : Host) (io : Imports) (c : GPSConverter) : outcome Recording :=
  let timeFilePath := path_join (path_join (rootDir c) "oxts") "timestamps.txt" in
  let ts := getTimestamps io timeFilePath in
  let files := sort (readdirSync io (gpsDir c)) in
  match convert_files host io (gpsDir c) ts files 0 with
  | Thrown e => Thrown e
  | Returned entries =>
      Returned {| timestamps := ts; gpsFiles := files; poses := entries |}
  end.

(** [getPose(frameNumber)]: [this.poses[frameNumber].pose]; a frame number
    out of range makes the property read a TypeError. *)
Definition getPose (r : Recording) (frameNumber : nat) : outcome (Pose float) :=
  match poses r !! frameNumber with
  | Some entry => Returned (pose entry)
  | None => Thrown TypeError
  end.

(** [_convertTrajectory(motions)], lines 198-204, over the offset function
    it calls. [motions[0]] is read inside the callback, so only for a
    non-empty array. *)
Definition _convertTrajectory {P V : Type} (getPoseOffset : P → P → V)
    (motions : list P) : outcome (list V) :=
  Returned
    match motions with
    | [] => []
    | first :: _ => map (λ m, getPoseOffset first m) motions
    end.

(** Modelled from the spec: [getPoseOffset], imported from [./common],
    which is not among the sources: the geodetic displacement from the
    anchor to the pose, projected into a local tangent plane, then rotated
    by [-anchor.yaw]. The poses are the decoder's, with float64 fields, and
    the arithmetic is that of JavaScript numbers. The spec leaves the
    projection open, so it is a parameter. *)
Definition getPoseOffset (m : Trig) (project : Pose float → Pose float → float * float)
    (anchor p : Pose float) : float * float :=
  let d := project anchor p in
  let a := (- yaw anchor)%float in
  (d.1 * Math_cos m a - d.2 * Math_sin m a,
   d.1 * Math_sin m a + d.2 * Math_cos m a)%float.

(** A projection for small regions, the one the spec's end-to-end scenario
    follows: the differences of the coordinates. *)
Definition planar (anchor p : Pose float) : float * float :=
  (latitude p - latitude anchor, longitude p - longitude anchor)%float.

(** The numeric fields of the result, each with the property of the record
    it is read from. *)
Definition numeric_fields : list (string * (FrameEntry → float)) :=
  [ ("lat", λ e, latitude (pose e));
    ("lon", λ e, longitude (pose e));
    ("alt", λ e, altitude (pose e));
    ("roll", λ e, roll (pose e));
    ("pitch", λ e, pitch (pose e));
    ("yaw", λ e, yaw (pose e));
    ("vn", λ e, Velocity.velocity_north (velocity e));
    ("ve", λ e, Velocity.velocity_east (velocity e));
    ("vf", λ e, Velocity.velocity_forward (velocity e));
    ("vl", λ e, Velocity.velocity_left (velocity e));
    ("vu", λ e, Velocity.velocity_upward (velocity e));
    ("wx", λ e, Velocity.angular_rate_x (velocity e));
    ("wy", λ e, Velocity.angular_rate_y (velocity e));
    ("wz", λ e, Velocity.angular_rate_z (velocity e));
    ("wf", λ e, Velocity.angular_rate_forward (velocity e));
    ("wl", λ e, Velocity.angular_rate_left (velocity e));
    ("wu", λ e, Velocity.angular_rate_upward (velocity e));
    ("ax", λ e, Acceleration.acceleration_x (acceleration e));
    ("ay", λ e, Acceleration.acceleration_y (acceleration e));
    ("az", λ e, Acceleration.acceleration_z (acceleration e));
    ("af", λ e, Acceleration.acceleration_forward (acceleration e));
    ("al", λ e, Acceleration.acceleration_left (acceleration e));
    ("au", λ e, Acceleration.acceleration_upward (acceleration e)) ].

(** The entry decoded for a file carries the timestamp it was decoded
    with, in all three of its records. *)
Definition carries (e : FrameEntry) (t : value) : Prop :=
  time (pose e) = t
  ∧ Velocity.timestamp (velocity e) = t
  ∧ Acceleration.timestamp (acceleration e) = t.

(** The stream names of the converter (constructor, lines 34-36) *)
Definition VEHICLE_ACCELERATION : string := "/vehicle/acceleration".
Definition VEHICLE_VELOCITY : string := "/vehicle/velocity".
Definition VEHICLE_TRAJECTORY : string := "/vehicle/trajectory".

(** What a call of [convertFrame] does to the outside: the line it logs and
    the calls it makes on the builder, in order. *)
Inductive effect (V : Type) :=
| ConsoleLog (frame total : nat)
| BuilderPose (p : Pose float)
| BuilderStream (name : string)
| BuilderTimestamp (t : value)
| BuilderValue (x : float)
| BuilderPolyline (vertices : list V).

Arguments ConsoleLog {V} frame total.
Arguments BuilderPose {V} p.
Arguments BuilderStream {V} name.
Arguments BuilderTimestamp {V} t.
Arguments BuilderValue {V} x.
Arguments BuilderPolyline {V} vertices.

(** The two imports from [./common], which is not among the sources, as
    parameters: the helper that picks the window of poses and builds the
    trajectory with the given functions, and the offset of one pose from
    another. *)
Record Common (V : Type) := {
  generateTrajectoryFrame :
    nat → nat → (nat → outcome (Pose float)) →
    (list (Pose float) → outcome (list V)) → outcome (list V);
  offsetOf : Pose float → Pose float → V
}.

Arguments generateTrajectoryFrame {V} _ _ _ _ _.
Arguments offsetOf {V} _ _ _.

(** [convertFrame(frameNumber, xvizBuilder)], lines 56-90, with the calls
    it makes on the console and on the builder, in order. The method is
    [async]: the outcome is that of the promise it returns, a throw being a
    rejection. The builder's methods return the builder. Reading
    [entry.pose] of a frame number without an entry is a TypeError, before
    anything is logged or built. *)
Definition convertFrame {V : Type} (common : Common V) (r : Recording)
    (frameNumber : nat) : outcome unit * list (effect V) :=
  match poses r !! frameNumber with
  | None => (Thrown TypeError, [])
  | Some entry =>
      let built :=
        [ ConsoleLog frameNumber (length (timestamps r));
          BuilderPose (pose entry);
          BuilderStream VEHICLE_VELOCITY;
          BuilderTimestamp (Velocity.timestamp (velocity entry));
          BuilderValue (Velocity.velocity_forward (velocity entry));
          BuilderStream VEHICLE_ACCELERATION;
          BuilderTimestamp (Acceleration.timestamp (acceleration entry));
          BuilderValue (Acceleration.acceleration_forward (acceleration entry)) ] in
      let limit := length (poses r) in
      match generateTrajectoryFrame common frameNumber limit (getPose r)
              (_convertTrajectory (offsetOf common)) with
      | Thrown e => (Thrown e, built)
      | Returned xvizTrajectory =>
          (Returned tt,
           built ++ [BuilderStream VEHICLE_TRAJECTORY; BuilderPolyline xvizTrajectory])
      end
  end.

(** Whether a string has a line break. *)
Fixpoint has_newline (s : string) : bool :=
  match s with
  | EmptyString => false
  | String c rest => Ascii.eqb c "010"%char || has_newline rest
  end.

End GPS.

(** ** Concrete hosts, stores and recordings *)

Module Demo.

Import Loader.

Fixpoint float_of_nat (n : nat) : float :=
  match n with
  | O => 0%float
  | S k => (float_of_nat k + 1)%float
  end.

Fixpoint digits_value (s : string) (acc : float) : float :=
  match s with
  | EmptyString => acc
  | String c rest =>
      let d := nat_of_ascii c in
      if (48 <=? d)%nat && (d <=? 57)%nat
      then digits_value rest (acc * 10 + float_of_nat (d - 48))%float
      else PrimFloat.nan
  end.

(** A host with [TIME_WINDOW = 5]; its string conversion covers the strings
    of decimal digits, the only ones the examples convert. *)
Definition host5 : Host :=
  {| getXvizSettings := {| TIME_WINDOW := 5%float |};
     StringToNumber := λ s, digits_value s 0%float |}.

(** Two listeners subscribed, then [set('timestamp', NaN)]. *)
Definition nan_world : World :=
  set "timestamp" (VNum PrimFloat.nan) (subscribe 2 (subscribe 1 (fresh ∅))).

(** A store whose metadata spans [[100, 200]] and declares a pose stream
    and two image streams. *)
Definition metadata_100_200 : Metadata :=
  {| start_time := 100%float;
     end_time := 200%float;
     streams := Some [("vehicle-pose", {| category := Some "vehicle-pose"; type := None |});
                      ("/camera/front", {| category := Some "primitive"; type := Some "image" |});
                      ("/camera/rear", {| category := Some "primitive"; type := Some "image" |})] |}.

Definition metadata_world : World :=
  set "metadata" (VObj 1) (fresh {[ 1%nat := OMetadata metadata_100_200 ]}).

(** A synchronizer that remembers the time it was given and serves one of
    two frame objects, by that time. *)
Definition two_frame_synchronizer : LogSynchronizer :=
  {| sync_state := float;
     sync_current := 0%float;
     sync_setTime := λ t _, t;
     sync_getCurrentFrame := λ _ t,
       (if PrimFloat.ltb t 150 then VObj 10 else VObj 11, t) |}.

(** Metadata and synchronizer in the store, the cursor at 105. *)
Definition synchronized_world : World :=
  seek host5 (VNum 50)
    (set "logSynchronizer" (VObj 2)
       (set "metadata" (VObj 1)
          (fresh {[ 1%nat := OMetadata metadata_100_200;
                    2%nat := OSynchronizer two_frame_synchronizer ]}))).

(** Streams for the two declared cameras: the front camera has an image in
    its first frame and a hole in place of the second; the rear camera has a
    [null] entry and a frame without images. *)
Definition front_frames : list entry :=
  [EFrame (Some [VObj 5]); EValue VUndefined].

Definition rear_frames : list entry :=
  [EValue VNull; EFrame (Some [])].

Definition vehicle_poses : list entry :=
  [EPose (VNum 1000); EPose (VNum 2000)].

Definition image_5 : gmap string value := {[ "imageData" := VStr "jpeg" ]}.

Definition image_world : World :=
  set "streams" (VObj 3)
    (set "metadata" (VObj 1)
       (fresh {[ 1%nat := OMetadata metadata_100_200;
                 3%nat := OStreams {[ "vehicle-pose" := vehicle_poses;
                                      "/camera/front" := front_frames;
                                      "/camera/rear" := rear_frames ]};
                 5%nat := OImage image_5 ]})).

(** The same store before any frame of the rear camera arrived: the stream
    is declared in the metadata and absent from [streams]. *)
Definition missing_stream_world : World :=
  set "streams" (VObj 3)
    (set "metadata" (VObj 1)
       (fresh {[ 1%nat := OMetadata metadata_100_200;
                 3%nat := OStreams {[ "vehicle-pose" := vehicle_poses;
                                      "/camera/front" := front_frames ]};
                 5%nat := OImage image_5 ]})).

(** An OXTS record without [lat] and with a non-numeric [lon]; the other
    fields are numbers or digit strings. *)
Definition oxts_without_lat : gmap string value :=
  list_to_map
    [ ("lon", VStr "east"); ("alt", VNum 116); ("roll", VNum 0);
      ("pitch", VNum 0); ("yaw", VStr "3");
      ("vn", VNum 1); ("ve", VNum 2); ("vf", VNum 3); ("vl", VNum 0); ("vu", VNum 0);
      ("ax", VNum 0); ("ay", VNum 0); ("az", VNum 9); ("af", VNum 0); ("al", VNum 0);
      ("au", VNum 9); ("wx", VNum 0); ("wy", VNum 0); ("wz", VNum 0);
      ("wf", VNum 0); ("wl", VNum 0); ("wu", VNum 0) ].

(** A recording of two files, listed out of order; the record parser of the
    example reads a file's first line as the latitude. *)
Definition two_files : GPS.Imports :=
  {| GPS.readdirSync := λ _, ["0000000001.txt"; "0000000000.txt"];
     GPS.readFileSync := λ path,
       if String.eqb path "kitti/oxts/data/0000000000.txt" then "49
second line"
       else "50";
     GPS.getTimestamps := λ _, [VNum 0; VNum 100];
     GPS.loadOxtsPackets := λ content, {[ "lat" := VStr content ]} |}.

(** The window of the spec's end-to-end scenario: positions (0,0), (10,0)
    and (10,10), heading 0. *)
Definition pose_at (t x y : float) : GPS.Pose float :=
  {| GPS.time := VNum t; GPS.latitude := x; GPS.longitude := y;
     GPS.altitude := 0%float; GPS.roll := 0%float; GPS.pitch := 0%float;
     GPS.yaw := 0%float |}.

Definition three_poses : list (GPS.Pose float) :=
  [pose_at 0 0 0; pose_at 100 10 0; pose_at 200 10 10].

(** A runtime for the examples. Their headings are 0 or NaN, where
    ECMAScript fixes the cosine and the sine, so its approximations (the
    first terms of the two series) are not consulted. *)
Definition trig : Trig :=
  {| cos_approx := λ _, 1%float; sin_approx := λ x, x |}.

(** An OXTS record with numeric coordinates and without [yaw]. *)
Definition oxts_without_yaw : gmap string value :=
  <["lat" := VNum 49]> (<["lon" := VNum 8]> (delete "yaw" oxts_without_lat)).

(** A log shorter than the time window: the lower bound, 105, is past
    [end_time = 102]. *)
Definition metadata_100_102 : Metadata :=
  {| start_time := 100%float; end_time := 102%float; streams := None |}.

Definition short_log_world : World :=
  set "metadata" (VObj 1) (fresh {[ 1%nat := OMetadata metadata_100_102 ]}).

(** Metadata and synchronizer in the store, no cursor yet. *)
Definition synchronizer_world : World :=
  set "logSynchronizer" (VObj 2)
    (set "metadata" (VObj 1)
       (fresh {[ 1%nat := OMetadata metadata_100_200;
                 2%nat := OSynchronizer two_frame_synchronizer ]})).

(** A synchronizer that counts the frames it was asked for and serves the
    count, in a store with metadata and the cursor at 150. *)
Definition counting_synchronizer : LogSynchronizer :=
  {| sync_state := nat;
     sync_current := 0%nat;
     sync_setTime := λ _ n, n;
     sync_getCurrentFrame := λ _ n, (VNum (float_of_nat (S n)), S n) |}.

Definition counting_world : World :=
  seek host5 (VNum 150)
    (set "logSynchronizer" (VObj 2)
       (set "metadata" (VObj 1)
          (fresh {[ 1%nat := OMetadata metadata_100_200;
                    2%nat := OSynchronizer counting_synchronizer ]}))).

(** Image frames in the store, and no [vehicle-pose] stream. *)
Definition no_pose_world : World :=
  set "streams" (VObj 3)
    (set "metadata" (VObj 1)
       (fresh {[ 1%nat := OMetadata metadata_100_200;
                 3%nat := OStreams {[ "/camera/front" := front_frames;
                                      "/camera/rear" := rear_frames ]};
                 5%nat := OImage image_5 ]})).

(** The recording of [two_files] with the directory listed in order. *)
Definition two_files_in_order : GPS.Imports :=
  {| GPS.readdirSync := λ _, ["0000000000.txt"; "0000000001.txt"];
     GPS.readFileSync := GPS.readFileSync two_files;
     GPS.getTimestamps := GPS.getTimestamps two_files;
     GPS.loadOxtsPackets := GPS.loadOxtsPackets two_files |}.

End Demo.

Import Loader.

(** The recomputation of a selector whose definition is in view. *)
Ltac recompute_selector :=
  repeat match goal with
  | |- context [recomputed (createSelector ?i ?f) ?w] =>
      change (recomputed (createSelector i f) w) with (f (i w) w)
  end;
  cbv beta iota.

(** ** Facts about numbers and strict equality *)

Section Numbers.

(** IEEE equality identifies two floats only when they are the same float or
    both are zeros. *)
Lemma float_eqb_true (x y : float) :
  PrimFloat.eqb x y = true →
  x = y ∨ (PrimFloat.is_zero x = true ∧ PrimFloat.is_zero y = true).
Proof.
  intros H.
  assert (Hz : ∀ z s, Prim2SF z = S754_zero s → PrimFloat.is_zero z = true).
  { intros z s Hs. unfold PrimFloat.is_zero. rewrite FloatAxioms.eqb_spec, Hs.
    reflexivity. }
  rewrite FloatAxioms.eqb_spec in H. unfold SFeqb in H.
  destruct (Prim2SF x) as [sx|sx| |sx mx ex] eqn:Hx,
           (Prim2SF y) as [sy|sy| |sy my ey] eqn:Hy;
    simpl in H; try discriminate;
    try (destruct sx; discriminate); try (destruct sy; discriminate).
  - right. eauto.
  - left. apply Prim2SF_inj. rewrite Hx, Hy.
    destruct sx, sy; try discriminate; reflexivity.
  - left. apply Prim2SF_inj. rewrite Hx, Hy.
    destruct sx, sy; try discriminate;
      destruct (Z.compare ex ey) eqn:He; try discriminate;
      apply Z.compare_eq in He; subst ey;
      destruct (Pos.compare_cont Eq mx my) eqn:Hm; try discriminate;
      apply Pos.compare_eq in Hm; subst my; reflexivity.
Qed.

(** Strictly equal values are the same value, up to the sign of a zero. *)
Lemma strict_eq_true (a b : value) :
  strict_eq a b = true →
  a = b ∨ ∃ x y, a = VNum x ∧ b = VNum y
                 ∧ PrimFloat.is_zero x = true ∧ PrimFloat.is_zero y = true.
Proof.
  destruct a, b; simpl; try discriminate; intros H; try (by left).
  - left. f_equal. by apply Bool.eqb_prop.
  - destruct (float_eqb_true _ _ H) as [->|[? ?]]; [by left|].
    right. eauto 6.
  - left. f_equal. by apply String.eqb_eq.
  - left. f_equal. by apply Nat.eqb_eq.
Qed.

(** Order facts for floats, from the specification of the comparisons. *)
Lemma not_nan_SF (a : float) : PrimFloat.is_nan a = false → Prim2SF a ≠ S754_nan.
Proof.
  unfold PrimFloat.is_nan. rewrite FloatAxioms.eqb_spec. intros H Hn.
  rewrite Hn in H. discriminate.
Qed.

Lemma SFcompare_total (a b : spec_float) :
  a ≠ S754_nan → b ≠ S754_nan → ∃ c, SFcompare a b = Some c.
Proof. destruct a, b; simpl; try done; eauto. Qed.

Lemma SFcompare_antisym (a b : spec_float) (c : comparison) :
  SFcompare a b = Some c → SFcompare b a = Some (CompOpp c).
Proof.
  destruct a as [sa|sa| |sa ma ea], b as [sb|sb| |sb mb eb]; simpl;
    try discriminate; intros H; injection H as <-.
  all: try (destruct sa; simpl; congruence).
  all: try (destruct sb; simpl; congruence).
  all: try (destruct sa, sb; simpl; congruence).
  f_equal.
  assert (Hp : Pos.compare_cont Eq ma mb = CompOpp (Pos.compare_cont Eq mb ma))
    by (rewrite Pos.compare_cont_antisym; reflexivity).
  rewrite (Z.compare_antisym ea eb), Hp.
  destruct sa, sb; try reflexivity;
    destruct (ea ?= eb); simpl; try reflexivity;
    destruct (Pos.compare_cont Eq mb ma); reflexivity.
Qed.

Lemma float_ltb_leb (a b : float) : PrimFloat.ltb a b = true → PrimFloat.leb a b = true.
Proof.
  rewrite FloatAxioms.ltb_spec, FloatAxioms.leb_spec. unfold SFltb, SFleb.
  by destruct (SFcompare _ _) as [[]|].
Qed.

Lemma float_eqb_leb (a b : float) : PrimFloat.eqb a b = true → PrimFloat.leb a b = true.
Proof.
  rewrite FloatAxioms.eqb_spec, FloatAxioms.leb_spec. unfold SFeqb, SFleb.
  by destruct (SFcompare _ _) as [[]|].
Qed.

Lemma float_leb_refl (a : float) : PrimFloat.is_nan a = false → PrimFloat.leb a a = true.
Proof.
  intros H. apply float_eqb_leb. unfold PrimFloat.is_nan in H.
  by destruct (PrimFloat.eqb a a).
Qed.

Lemma float_not_ltb_leb (a b : float) :
  PrimFloat.is_nan a = false → PrimFloat.is_nan b = false →
  PrimFloat.ltb a b = false → PrimFloat.leb b a = true.
Proof.
  intros Ha Hb. rewrite FloatAxioms.ltb_spec, FloatAxioms.leb_spec.
  unfold SFltb, SFleb.
  destruct (SFcompare_total _ _ (not_nan_SF a Ha) (not_nan_SF b Hb)) as [c Hc].
  rewrite Hc, (SFcompare_antisym _ _ _ Hc). by destruct c.
Qed.

Lemma is_zero_SF (a : float) : PrimFloat.is_zero a = true → ∃ s, Prim2SF a = S754_zero s.
Proof.
  unfold PrimFloat.is_zero. rewrite FloatAxioms.eqb_spec.
  change (Prim2SF PrimFloat.zero) with (S754_zero false). unfold SFeqb.
  destruct (Prim2SF a) as [s|s| |s m e]; simpl; try discriminate; eauto;
    destruct s; discriminate.
Qed.

(** Comparisons do not see the sign of a zero. *)
Lemma float_leb_zero_l (a b c : float) :
  PrimFloat.is_zero a = true → PrimFloat.is_zero b = true →
  PrimFloat.leb a c = PrimFloat.leb b c.
Proof.
  intros Ha Hb. destruct (is_zero_SF a Ha) as [sa Sa], (is_zero_SF b Hb) as [sb Sb].
  rewrite !FloatAxioms.leb_spec, Sa, Sb. unfold SFleb.
  by destruct (Prim2SF c).
Qed.

Lemma float_leb_zero_r (a b c : float) :
  PrimFloat.is_zero a = true → PrimFloat.is_zero b = true →
  PrimFloat.leb c a = PrimFloat.leb c b.
Proof.
  intros Ha Hb. destruct (is_zero_SF a Ha) as [sa Sa], (is_zero_SF b Hb) as [sb Sb].
  rewrite !FloatAxioms.leb_spec, Sa, Sb. unfold SFleb.
  by destruct (Prim2SF c).
Qed.

End Numbers.

(** ** Properties of the store *)

Section Store.

Lemma get_insert_same (key : string) (v : value) (w : World) l c h ver :
  get key {| this := {| listeners := l; state := <[key := v]> (state (this w));
                        _version := ver |}; heap := h; calls := c |} = v.
Proof. unfold get; simpl. by rewrite lookup_insert_eq. Qed.

Lemma calls_to_app (o : nat) (a b : list Notification) :
  calls_to o (a ++ b) = (calls_to o a + calls_to o b)%nat.
Proof. unfold calls_to. by rewrite filter_app, length_app. Qed.

Lemma calls_to_notify (o : nat) (l : XVIZLoaderInterface) :
  calls_to o (notify l) = registrations o (listeners l).
Proof.
  unfold calls_to, registrations, notify.
  induction (listeners l) as [|x xs IH]; [done|].
  simpl. rewrite !filter_cons. simpl.
  destruct (decide (x = o)); simpl; by rewrite IH.
Qed.

(** What a committing [set] does, whatever made it commit. *)
Lemma set_commit (key : string) (v : value) (w : World) :
  strict_eq (get key w) v = false →
  set key v w =
    {| this := {| listeners := listeners (this w);
                  state := <[key := v]> (state (this w));
                  _version := _version (this w) + 1 |};
       heap := heap w;
       calls := calls w ++
         map (λ o, {| listener := o; version_arg := _version (this w) + 1;
                      seen := <[key := v]> (state (this w)) |})
             (listeners (this w)) |}.
Proof. intros H. unfold set, strict_neq. by rewrite H. Qed.

Lemma set_noop (key : string) (v : value) (w : World) :
  strict_eq (get key w) v = true → set key v w = w.
Proof. intros H. unfold set, strict_neq. by rewrite H. Qed.

(** C1, as amended: for a key that the state object does not inherit,
    [set(k, v)] leaves the world as it is when the stored value is strictly
    equal ([===]) to [v]; otherwise it commits [v] under [k] (other keys
    keep their values), adds exactly one to the version, and then calls the
    listeners, once per registration and in registration order, each with
    the new version and with the committed store to read. *)
Theorem set_commits_unless_strictly_equal (key : string) (v : value) (w : World) :
  inherited key = false →
  (strict_eq (get key w) v = true → set key v w = w) ∧
  (strict_eq (get key w) v = false →
     get key (set key v w) = v
     ∧ (∀ k, k ≠ key → get k (set key v w) = get k w)
     ∧ _version (this (set key v w)) = _version (this w) + 1
     ∧ listeners (this (set key v w)) = listeners (this w)
     ∧ heap (set key v w) = heap w
     ∧ calls (set key v w) =
         calls w ++
         map (λ o, {| listener := o;
                      version_arg := _version (this w) + 1;
                      seen := state (this (set key v w)) |})
             (listeners (this w))
     ∧ ∀ o, calls_to o (calls (set key v w)) =
            (calls_to o (calls w) + registrations o (listeners (this w)))%nat).
Proof.
  intros _. split; [apply set_noop|].
  intros Hne. rewrite (set_commit _ _ _ Hne). simpl.
  repeat split.
  - apply get_insert_same.
  - intros k Hk. unfold get; simpl. by rewrite lookup_insert_ne.
  - intros o. rewrite calls_to_app. f_equal.
    exact (calls_to_notify o
             {| listeners := listeners (this w);
                state := <[key := v]> (state (this w));
                _version := _version (this w) + 1 |}).
Qed.

(** C1, as stated, fails on NaN: the value given is the very value stored,
    and [set] still commits, bumps the version and calls both listeners. *)
Lemma set_same_nan_is_not_noop :
  get "timestamp" Demo.nan_world = VNum PrimFloat.nan
  ∧ set "timestamp" (VNum PrimFloat.nan) Demo.nan_world ≠ Demo.nan_world
  ∧ _version (this Demo.nan_world) = 1
  ∧ _version (this (set "timestamp" (VNum PrimFloat.nan) Demo.nan_world)) = 2
  ∧ length (calls Demo.nan_world) = 2%nat
  ∧ length (calls (set "timestamp" (VNum PrimFloat.nan) Demo.nan_world)) = 4%nat.
Proof.
  assert (Hv : _version (this (set "timestamp" (VNum PrimFloat.nan) Demo.nan_world)) = 2)
    by (vm_compute; reflexivity).
  repeat split; try (vm_compute; reflexivity).
  intros Heq. rewrite Heq in Hv. vm_compute in Hv. discriminate.
Qed.

Lemma set_commits_unless_strictly_equal_witness :
  set "metadata" (VObj 1) Demo.metadata_world = Demo.metadata_world
  ∧ get "timestamp" (set "timestamp" (VNum 7) Demo.metadata_world) = VNum 7
  ∧ _version (this (set "timestamp" (VNum 7) Demo.metadata_world))
    = _version (this Demo.metadata_world) + 1.
Proof.
  split.
  - apply (set_commits_unless_strictly_equal "metadata" (VObj 1) Demo.metadata_world);
      reflexivity.
  - destruct (proj2 (set_commits_unless_strictly_equal "timestamp" (VNum 7)
                       Demo.metadata_world eq_refl) eq_refl) as (Hget & _ & Hversion & _).
    by split.
Defined.

(** C10: when the value stored under [k] is NaN, [set(k, NaN)] commits:
    the version goes up by one and every registered listener is called with
    it, although the value did not change. *)
Theorem set_nan_over_nan_commits (key : string) (w : World) :
  get key w = VNum PrimFloat.nan →
  set key (VNum PrimFloat.nan) w ≠ w
  ∧ get key (set key (VNum PrimFloat.nan) w) = VNum PrimFloat.nan
  ∧ _version (this (set key (VNum PrimFloat.nan) w)) = _version (this w) + 1
  ∧ calls (set key (VNum PrimFloat.nan) w) =
      calls w ++
      map (λ o, {| listener := o;
                   version_arg := _version (this w) + 1;
                   seen := state (this (set key (VNum PrimFloat.nan) w)) |})
          (listeners (this w)).
Proof.
  intros Hnan.
  assert (Hne : strict_eq (get key w) (VNum PrimFloat.nan) = false)
    by (rewrite Hnan; reflexivity).
  rewrite (set_commit _ _ _ Hne). simpl. repeat split.
  - intros Heq. apply (f_equal (λ x, _version (this x))) in Heq.
    simpl in Heq. lia.
  - apply get_insert_same.
Qed.

Lemma set_nan_over_nan_commits_witness :
  get "timestamp" Demo.nan_world = VNum PrimFloat.nan
  ∧ _version (this (set "timestamp" (VNum PrimFloat.nan) Demo.nan_world)) =
    _version (this Demo.nan_world) + 1.
Proof.
  assert (H : get "timestamp" Demo.nan_world = VNum PrimFloat.nan)
    by (vm_compute; reflexivity).
  split; [exact H|].
  exact (proj1 (proj2 (proj2 (set_nan_over_nan_commits "timestamp" Demo.nan_world H)))).
Defined.

(** Reading a key back after [set]: the value given, except that a zero may
    be read back with the sign of the zero already stored. *)
Lemma get_set_same (key : string) (v : value) (w : World) :
  get key (set key v w) = v ∨
  ∃ x y, v = VNum x ∧ get key (set key v w) = VNum y
         ∧ PrimFloat.is_zero x = true ∧ PrimFloat.is_zero y = true.
Proof.
  destruct (strict_eq (get key w) v) eqn:He.
  - rewrite (set_noop _ _ _ He).
    destruct (strict_eq_true _ _ He) as [->|(y & x & Hy & Hx & Zy & Zx)];
      [by left|].
    right. exists x, y. by rewrite Hy.
  - left. rewrite (set_commit _ _ _ He). apply get_insert_same.
Qed.

Lemma get_set_nonzero (key : string) (x : float) (w : World) :
  PrimFloat.is_zero x = false → get key (set key (VNum x) w) = VNum x.
Proof.
  intros Hx. destruct (get_set_same key (VNum x) w) as [H|(a & b & Ha & _ & Za & _)];
    [done|].
  injection Ha as ->. congruence.
Qed.

Lemma get_set_other (k key : string) (v : value) (w : World) :
  k ≠ key → get k (set key v w) = get k w.
Proof.
  intros Hk. unfold set. destruct (strict_neq (get key w) v); [|done].
  unfold get; simpl. by rewrite lookup_insert_ne.
Qed.

Lemma heap_set (key : string) (v : value) (w : World) :
  heap (set key v w) = heap w.
Proof. unfold set. by destruct (strict_neq (get key w) v). Qed.

Lemma get_set_object (key : string) (r : ref) (w : World) :
  get key (set key (VObj r) w) = VObj r.
Proof.
  destruct (get_set_same key (VObj r) w) as [H|(x & y & Hx & _)]; [done|].
  discriminate.
Qed.

End Store.

(** ** The time cursor *)

Section Seek.

Variable host : Host.

Lemma seek_without_metadata (t : value) (w : World) :
  truthy (getMetadata w) = false → seek host t w = set "timestamp" t w.
Proof. intros H. unfold seek. by rewrite H. Qed.

Lemma as_metadata_truthy (h : gmap ref obj) (v : value) (m : Metadata) :
  as_metadata h v = Some m → truthy v = true.
Proof. by destruct v. Qed.

Lemma seek_with_metadata (t : value) (w : World) (m : Metadata) :
  as_metadata (heap w) (getMetadata w) = Some m →
  seek host t w =
    set "timestamp"
      (VNum (clamp host t
               (VNum (start_time m + TIME_WINDOW (getXvizSettings host))%float)
               (VNum (end_time m)))) w.
Proof.
  intros H. unfold seek, getLogStartTime, getLogEndTime, recomputed.
  by rewrite (as_metadata_truthy _ _ _ H), H.
Qed.

(** C2: without metadata, [seek(t)] commits the raw [t] under [timestamp];
    with a metadata object, it commits
    [clamp(t, start_time + TIME_WINDOW, end_time)]; reading the cursor back
    gives the committed value (a zero may keep the sign of the zero stored
    before). With [start_time = 100], [TIME_WINDOW = 5] and
    [end_time = 200], [seek(50)], [seek(500)] and [seek(150)] leave the
    cursor at 105, 200 and 150. *)
Theorem seek_commits_raw_or_clamped (t : value) (w : World) :
  (truthy (getMetadata w) = false →
     seek host t w = set "timestamp" t w
     ∧ (getCurrentTime (seek host t w) = t
        ∨ ∃ x y, t = VNum x ∧ getCurrentTime (seek host t w) = VNum y
                 ∧ PrimFloat.is_zero x = true ∧ PrimFloat.is_zero y = true))
  ∧ (∀ m, as_metadata (heap w) (getMetadata w) = Some m →
       let c := clamp host t
                  (VNum (start_time m + TIME_WINDOW (getXvizSettings host))%float)
                  (VNum (end_time m)) in
       seek host t w = set "timestamp" (VNum c) w
       ∧ (getCurrentTime (seek host t w) = VNum c
          ∨ ∃ y, getCurrentTime (seek host t w) = VNum y
                 ∧ PrimFloat.is_zero c = true ∧ PrimFloat.is_zero y = true))
  ∧ (∀ m, as_metadata (heap w) (getMetadata w) = Some m →
       start_time m = 100%float → end_time m = 200%float →
       TIME_WINDOW (getXvizSettings host) = 5%float →
       getCurrentTime (seek host (VNum 50) w) = VNum 105
       ∧ getCurrentTime (seek host (VNum 500) w) = VNum 200
       ∧ getCurrentTime (seek host (VNum 150) w) = VNum 150).
Proof.
  split; [|split].
  - intros H. rewrite (seek_without_metadata _ _ H). split; [done|].
    apply get_set_same.
  - intros m H c. rewrite (seek_with_metadata _ _ _ H). fold c. split; [done|].
    destruct (get_set_same "timestamp" (VNum c) w)
      as [Hg|(x & y & Hx & Hy & Zx & Zy)]; [by left|].
    right. injection Hx as <-. eauto.
  - intros m H Hs He Htw.
    rewrite !(seek_with_metadata _ _ _ H), Hs, He, Htw.
    unfold clamp, ToNumber, getCurrentTime.
    repeat split; apply get_set_nonzero; reflexivity.
Qed.

Lemma Math_min_below (hi x : float) :
  PrimFloat.is_nan hi = false → PrimFloat.is_nan x = false →
  PrimFloat.is_nan (Math_min hi x) = false
  ∧ PrimFloat.leb (Math_min hi x) hi = true.
Proof.
  intros Hhi Hx. unfold Math_min. rewrite Hhi, Hx. simpl.
  destruct (PrimFloat.is_zero hi && PrimFloat.is_zero x) eqn:Hz.
  - apply andb_prop in Hz as [Zhi Zx]. destruct (PrimFloat.get_sign hi).
    + split; [done|]. by apply float_leb_refl.
    + split; [done|]. rewrite (float_leb_zero_l x hi hi Zx Zhi).
      by apply float_leb_refl.
  - destruct (PrimFloat.ltb hi x) eqn:Hlt.
    + split; [done|]. by apply float_leb_refl.
    + split; [done|]. by apply float_not_ltb_leb.
Qed.

Lemma Math_max_between (lo m hi : float) :
  PrimFloat.is_nan lo = false → PrimFloat.is_nan m = false →
  PrimFloat.leb lo hi = true → PrimFloat.leb m hi = true →
  PrimFloat.is_nan (Math_max lo m) = false
  ∧ PrimFloat.leb lo (Math_max lo m) = true
  ∧ PrimFloat.leb (Math_max lo m) hi = true.
Proof.
  intros Hlo Hm Hlohi Hmhi. unfold Math_max. rewrite Hlo, Hm. simpl.
  destruct (PrimFloat.is_zero lo && PrimFloat.is_zero m) eqn:Hz.
  - apply andb_prop in Hz as [Zlo Zm]. destruct (PrimFloat.get_sign lo).
    + repeat split; [done| |done].
      rewrite (float_leb_zero_r m lo lo Zm Zlo). by apply float_leb_refl.
    + repeat split; [done| |done]. by apply float_leb_refl.
  - destruct (PrimFloat.ltb lo m) eqn:Hlt.
    + repeat split; [done| |done]. by apply float_ltb_leb.
    + repeat split; [done| |done]. by apply float_leb_refl.
Qed.

(** The clamp keeps a number within ordered bounds. *)
Lemma clamp_within (v : value) (lo hi : float) :
  PrimFloat.is_nan (ToNumber (StringToNumber host) v) = false →
  PrimFloat.is_nan lo = false → PrimFloat.is_nan hi = false →
  PrimFloat.leb lo hi = true →
  PrimFloat.is_nan (clamp host v (VNum lo) (VNum hi)) = false
  ∧ PrimFloat.leb lo (clamp host v (VNum lo) (VNum hi)) = true
  ∧ PrimFloat.leb (clamp host v (VNum lo) (VNum hi)) hi = true.
Proof.
  intros Hv Hlo Hhi Hle. unfold clamp. simpl.
  destruct (Math_min_below hi _ Hhi Hv) as [Hn Hm].
  by apply Math_max_between.
Qed.

Lemma seek_bounds (t : value) (w : World) (m : Metadata) :
  as_metadata (heap w) (getMetadata w) = Some m →
  PrimFloat.is_nan (ToNumber (StringToNumber host) t) = false →
  PrimFloat.is_nan (start_time m + TIME_WINDOW (getXvizSettings host))%float = false →
  PrimFloat.is_nan (end_time m) = false →
  PrimFloat.leb (start_time m + TIME_WINDOW (getXvizSettings host))%float
                (end_time m) = true →
  ∃ c, getCurrentTime (seek host t w) = VNum c
       ∧ PrimFloat.leb (start_time m + TIME_WINDOW (getXvizSettings host))%float c = true
       ∧ PrimFloat.leb c (end_time m) = true.
Proof.
  intros Hm Ht Hlo Hhi Hle. rewrite (seek_with_metadata _ _ _ Hm).
  destruct (clamp_within t _ _ Ht Hlo Hhi Hle) as (Hn & Hl & Hu).
  unfold getCurrentTime.
  destruct (get_set_same "timestamp"
              (VNum (clamp host t
                       (VNum (start_time m + TIME_WINDOW (getXvizSettings host))%float)
                       (VNum (end_time m)))) w)
    as [Hg|(x & y & Hx & Hy & Zx & Zy)].
  - eauto.
  - injection Hx as <-. exists y. split; [done|]. split.
    + by rewrite (float_leb_zero_r y _ _ Zy Zx).
    + by rewrite (float_leb_zero_l y _ _ Zy Zx).
Qed.

(** With a metadata object whose bounds [start_time + TIME_WINDOW] and
    [end_time] are numbers in order, [seek(t)] of anything that converts to
    a number leaves the cursor at a number within the bounds. *)
Theorem seek_cursor_within_log (t : value) (w : World) (m : Metadata) :
  as_metadata (heap w) (getMetadata w) = Some m →
  PrimFloat.is_nan (ToNumber (StringToNumber host) t) = false →
  PrimFloat.is_nan (start_time m + TIME_WINDOW (getXvizSettings host))%float = false →
  PrimFloat.is_nan (end_time m) = false →
  PrimFloat.leb (start_time m + TIME_WINDOW (getXvizSettings host))%float
                (end_time m) = true →
  ∃ c, getCurrentTime (seek host t w) = VNum c
       ∧ PrimFloat.leb (start_time m + TIME_WINDOW (getXvizSettings host))%float c = true
       ∧ PrimFloat.leb c (end_time m) = true.
Proof. apply seek_bounds. Qed.

(** [_setMetadata] with a metadata object whose bounds are numbers in order:
    the call returns, the metadata is stored, and the cursor is a number
    within the bounds, whatever the timestamp stored before. *)
Theorem _setMetadata_leaves_cursor_within_log (r : ref) (m : Metadata) (w : World) :
  heap w !! r = Some (OMetadata m) →
  PrimFloat.is_nan (start_time m) = false →
  PrimFloat.is_nan (start_time m + TIME_WINDOW (getXvizSettings host))%float = false →
  PrimFloat.is_nan (end_time m) = false →
  PrimFloat.leb (start_time m + TIME_WINDOW (getXvizSettings host))%float
                (end_time m) = true →
  ∃ w' c,
    _setMetadata host (VObj r) w = (Returned tt, w')
    ∧ getMetadata w' = VObj r
    ∧ getCurrentTime w' = VNum c
    ∧ PrimFloat.leb (start_time m + TIME_WINDOW (getXvizSettings host))%float c = true
    ∧ PrimFloat.leb c (end_time m) = true.
Proof.
  intros Hr Hs Hlo Hhi Hle.
  set (w1 := set "metadata" (VObj r) w).
  assert (Hm1 : as_metadata (heap w1) (getMetadata w1) = Some m).
  { unfold getMetadata, w1. rewrite get_set_object, heap_set. simpl. by rewrite Hr. }
  assert (Hkeep : ∀ t, getMetadata (seek host t w1) = VObj r).
  { intros t. rewrite (seek_with_metadata _ _ _ Hm1). unfold getMetadata.
    rewrite get_set_other by done. apply get_set_object. }
  unfold _setMetadata. fold w1.
  destruct (isFinite (get "timestamp" w1)) eqn:Hfin.
  - destruct (get "timestamp" w1) as [| | |x| |] eqn:Hts; try discriminate.
    assert (Hx : PrimFloat.is_nan x = false).
    { simpl in Hfin. by destruct (PrimFloat.is_nan x). }
    destruct (seek_bounds (VNum x) w1 m Hm1 Hx Hlo Hhi Hle)
      as (c & Hc & Hl & Hu).
    exists (seek host (VNum x) w1), c. by rewrite Hkeep.
  - assert (Hstart : as_metadata (heap w1) (VObj r) = Some m).
    { unfold w1. rewrite heap_set. simpl. by rewrite Hr. }
    rewrite Hstart.
    destruct (seek_bounds (VNum (start_time m)) w1 m Hm1 Hs Hlo Hhi Hle)
      as (c & Hc & Hl & Hu).
    exists (seek host (VNum (start_time m)) w1), c. by rewrite Hkeep.
Qed.

End Seek.

Lemma seek_commits_raw_or_clamped_witness :
  getCurrentTime (seek Demo.host5 (VNum 50) Demo.metadata_world) = VNum 105
  ∧ getCurrentTime (seek Demo.host5 (VNum 500) Demo.metadata_world) = VNum 200
  ∧ getCurrentTime (seek Demo.host5 (VNum 150) Demo.metadata_world) = VNum 150.
Proof.
  apply (proj2 (proj2 (seek_commits_raw_or_clamped Demo.host5 VNull Demo.metadata_world))
           Demo.metadata_100_200); reflexivity.
Defined.

Lemma seek_cursor_within_log_witness :
  ∃ c, getCurrentTime (seek Demo.host5 (VStr "7") Demo.metadata_world) = VNum c
       ∧ PrimFloat.leb 105 c = true ∧ PrimFloat.leb c 200 = true.
Proof.
  apply (seek_cursor_within_log Demo.host5 (VStr "7") Demo.metadata_world
           Demo.metadata_100_200); reflexivity.
Defined.

Lemma _setMetadata_leaves_cursor_within_log_witness :
  ∃ w' c,
    _setMetadata Demo.host5 (VObj 1)
      (fresh {[ 1%nat := OMetadata Demo.metadata_100_200 ]}) = (Returned tt, w')
    ∧ getMetadata w' = VObj 1
    ∧ getCurrentTime w' = VNum c
    ∧ PrimFloat.leb 105 c = true ∧ PrimFloat.leb c 200 = true.
Proof.
  apply (_setMetadata_leaves_cursor_within_log Demo.host5 1%nat Demo.metadata_100_200);
    reflexivity.
Defined.

(** ** The current frame *)

Section CurrentFrame.

Lemma getCurrentFrame_guard_false (w : World) :
  truthy (getLogSynchronizer w) && truthy (getMetadata w)
    && isFinite (getCurrentTime w) = false →
  getCurrentFrame w = (Returned VNull, w).
Proof. intros H. unfold getCurrentFrame, recomputed. by rewrite H. Qed.

Lemma getCurrentFrame_delegates (w : World) (r : ref) (s : LogSynchronizer) (t : float) :
  getLogSynchronizer w = VObj r →
  heap w !! r = Some (OSynchronizer s) →
  truthy (getMetadata w) = true →
  getCurrentTime w = VNum t →
  isFinite (VNum t) = true →
  let s1 := sync_setTime s t (sync_current s) in
  let res := sync_getCurrentFrame s (metadata_streams (heap w) (getMetadata w)) s1 in
  getCurrentFrame w =
    (Returned res.1,
     {| this := this w;
        heap := <[r := OSynchronizer (moved_to s res.2)]> (heap w);
        calls := calls w |}).
Proof.
  intros Hs Hh Hm Ht Hf s1 res. unfold getCurrentFrame, recomputed.
  rewrite Hs, Hm, Ht, Hf, Hh. simpl.
  subst res s1. by destruct (sync_getCurrentFrame s _ _).
Qed.

End CurrentFrame.

(** ** Image frames *)

Section ImageFrames.

Variable host : Host.

Lemma timestamps_only_refl (h : gmap ref obj) : timestamps_only h h.
Proof. intros r. by left. Qed.

Lemma timestamps_only_trans (h1 h2 h3 : gmap ref obj) :
  timestamps_only h1 h2 → timestamps_only h2 h3 → timestamps_only h1 h3.
Proof.
  intros H12 H23 r.
  destruct (H12 r) as [E12|(p & p' & Hp & Hp' & K12)],
           (H23 r) as [E23|(q & q' & Hq & Hq' & K23)].
  - left. congruence.
  - right. exists q, q'. rewrite <- E12. eauto.
  - right. exists p, p'. rewrite E23. eauto.
  - right. exists p, q'. rewrite Hp' in Hq. injection Hq as <-.
    repeat split; [done..|]. intros k Hk. rewrite K23, K12; done.
Qed.

Lemma assign_timestamp_only (target : value) (t : float) (h : gmap ref obj) :
  timestamps_only h (assign_timestamp target t h).
Proof.
  unfold assign_timestamp.
  destruct target as [| | | | |r]; try apply timestamps_only_refl.
  destruct (h !! r) as [[| | |props]|] eqn:Hr; try apply timestamps_only_refl.
  intros r'. destruct (decide (r = r')) as [<-|Hne].
  - right. exists props, (<["timestamp" := VNum t]> props).
    rewrite lookup_insert_eq. repeat split; [done|].
    intros k Hk. by rewrite lookup_insert_ne.
  - left. by rewrite lookup_insert_ne.
Qed.

Lemma align_frame_only ts frame i h :
  timestamps_only h (align_frame host ts frame i h).2.
Proof.
  unfold align_frame. destruct ts as [ts|]; [|apply timestamps_only_refl].
  destruct (first_image frame) as [image|e]; [|apply timestamps_only_refl].
  destruct (truthy image); simpl;
    [apply assign_timestamp_only|apply timestamps_only_refl].
Qed.

Lemma align_frames_only ts frames : ∀ i h,
  timestamps_only h (align_frames host ts frames i h).2.
Proof.
  induction frames as [|frame rest IH]; intros i h; simpl.
  - apply timestamps_only_refl.
  - pose proof (align_frame_only ts frame i h) as H1.
    destruct (align_frame host ts frame i h) as [[image|e] h1]; simpl in *; [|done].
    pose proof (IH (S i) h1) as H2.
    destruct (align_frames host ts rest (S i) h1) as [[images|e] h2]; simpl in *;
      by eapply timestamps_only_trans.
Qed.

(** Writing timestamps does not change which object is a streams, a
    metadata or a synchronizer object. *)
Lemma timestamps_only_stream_of h h' streams name :
  timestamps_only h h' → stream_of h' streams name = stream_of h streams name.
Proof.
  intros H. unfold stream_of, as_streams. destruct streams as [| | | | |r]; try done.
  destruct (H r) as [->|(p & p' & -> & -> & _)]; done.
Qed.

Lemma align_streams_only streams ts names : ∀ frames h,
  timestamps_only h (align_streams host streams ts names frames h).2.
Proof.
  induction names as [|name rest IH]; intros frames h; simpl.
  - apply timestamps_only_refl.
  - destruct (stream_of h streams name) as [stream|]; [|apply timestamps_only_refl].
    pose proof (align_frames_only ts stream 0 h) as H1.
    destruct (align_frames host ts stream 0 h) as [[images|e] h1]; simpl in *; [|done].
    eapply timestamps_only_trans; [exact H1|apply IH].
Qed.

Lemma align_streams_absent streams ts names name : ∀ frames h,
  name ∈ names →
  stream_of h streams name = None →
  throws (align_streams host streams ts names frames h).1.
Proof.
  induction names as [|first rest IH]; intros frames h Hin Habs.
  - by apply elem_of_nil in Hin.
  - simpl. destruct (stream_of h streams first) as [stream|] eqn:Hfirst;
      [|by exists TypeError].
    assert (Hrest : name ∈ rest).
    { apply elem_of_cons in Hin as [->|?]; [congruence|done]. }
    pose proof (align_frames_only ts stream 0 h) as Honly.
    destruct (align_frames host ts stream 0 h) as [[images|e] h1]; simpl in *;
      [|by exists e].
    apply IH; [done|].
    by rewrite (timestamps_only_stream_of _ _ _ _ Honly).
Qed.

(** C4, the behaviour of the code where the claim fails: when the metadata
    declares an image stream that the [streams] value does not hold,
    [getImageFrames()] ends in an exception instead of returning frames. *)
Theorem getImageFrames_throws_on_absent_stream (w : World)
    (names : list string) (name : string) :
  getImageStreamNames w = Some names →
  truthy (getStreams w) = true →
  name ∈ names →
  stream_of (heap w) (getStreams w) name = None →
  throws (getImageFrames host w).1.
Proof.
  intros Hnames Hstreams Hin Habs. unfold getImageFrames; recompute_selector.
  destruct (getTimestamps w) as [ts|e]; [|by exists e].
  rewrite Hstreams, Hnames.
  destruct (align_streams_absent (getStreams w) ts names name ∅ (heap w) Hin Habs)
    as [e He].
  destruct (align_streams host (getStreams w) ts names ∅ (heap w)) as [[frames|e'] h];
    simpl in *; [discriminate|by exists e'].
Qed.

(** C5, as amended: reading [getImageFrames] or [getCurrentFrame] leaves the
    loader instance (keys, values, version, listeners) and the listener
    calls as they were. On the heap, [getImageFrames] changes nothing but
    the [timestamp] property of image objects, and [getCurrentFrame] changes
    nothing but the state of the synchronizer object stored under
    [logSynchronizer]. *)
Theorem selector_reads_write_timestamps_and_synchronizer_only (w : World) :
  (this (getImageFrames host w).2 = this w
   ∧ calls (getImageFrames host w).2 = calls w
   ∧ timestamps_only (heap w) (heap (getImageFrames host w).2))
  ∧ (this (getCurrentFrame w).2 = this w
     ∧ calls (getCurrentFrame w).2 = calls w
     ∧ ∀ r, heap (getCurrentFrame w).2 !! r = heap w !! r
            ∨ (getLogSynchronizer w = VObj r
               ∧ ∃ s st, heap w !! r = Some (OSynchronizer s)
                         ∧ heap (getCurrentFrame w).2 !! r
                           = Some (OSynchronizer (moved_to s st)))).
Proof.
  split.
  - unfold getImageFrames; recompute_selector.
    destruct (getTimestamps w) as [ts|e];
      [|repeat split; apply timestamps_only_refl].
    destruct (truthy (getStreams w)), (getImageStreamNames w) as [names|];
      try (repeat split; apply timestamps_only_refl).
    pose proof (align_streams_only (getStreams w) ts names ∅ (heap w)) as H.
    destruct (align_streams host (getStreams w) ts names ∅ (heap w))
      as [[frames|e] h]; simpl in *; done.
  - unfold getCurrentFrame, recomputed.
    destruct (truthy (getLogSynchronizer w) && truthy (getMetadata w)
              && isFinite (getCurrentTime w)); [|by repeat split; left].
    destruct (getLogSynchronizer w) as [| | | | |r]; try (by repeat split; left).
    destruct (getCurrentTime w) as [| | |t| |]; try (by repeat split; left).
    destruct (heap w !! r) as [[| |s|]|] eqn:Hr; try (by repeat split; left).
    destruct (sync_getCurrentFrame s _ _) as [frame s2]. simpl.
    repeat split. intros r'. destruct (decide (r = r')) as [<-|Hne].
    + right. split; [done|]. exists s, s2. by rewrite lookup_insert_eq.
    + left. by rewrite lookup_insert_ne.
Qed.

Lemma align_frames_readable ts frames : ∀ i h,
  forallb readable frames = true →
  (align_frames host (Some ts) frames i h).1 = Returned (map image_or_hole frames).
Proof.
  induction frames as [|frame rest IH]; intros i h Hall; [done|].
  simpl in Hall. apply andb_prop in Hall as [Hframe Hrest]. simpl.
  unfold readable in Hframe. unfold image_or_hole at 1, align_frame.
  destruct (first_image frame) as [image|e]; [|discriminate].
  destruct (truthy image); simpl.
  - specialize (IH (S i)
      (assign_timestamp image
         (ToNumber (StringToNumber host) (default VUndefined (ts !! i)) / 1000)%float h)
      Hrest).
    destruct (align_frames host (Some ts) rest (S i) _) as [[images|e] h2];
      simpl in *; congruence.
  - specialize (IH (S i) h Hrest).
    destruct (align_frames host (Some ts) rest (S i) h) as [[images|e] h2];
      simpl in *; congruence.
Qed.

Lemma align_streams_readable streams ts names : ∀ frames h,
  (∀ name, name ∈ names →
     ∃ stream, stream_of h streams name = Some stream
               ∧ forallb readable stream = true) →
  ∃ result,
    (align_streams host streams (Some ts) names frames h).1 = Returned result
    ∧ (∀ name, name ∈ names →
         ∃ stream, stream_of h streams name = Some stream
                   ∧ result !! name = Some (map image_or_hole stream))
    ∧ (∀ name, name ∉ names → result !! name = frames !! name).
Proof.
  induction names as [|first rest IH]; intros frames h Hall.
  - exists frames. split; [done|]. split; [|done].
    intros name Hin. by apply elem_of_nil in Hin.
  - assert (Hhere : first ∈ first :: rest) by (apply elem_of_cons; by left).
    destruct (Hall first Hhere) as (stream & Hfirst & Hread).
    simpl. rewrite Hfirst.
    pose proof (align_frames_readable ts stream 0 h Hread) as Hframes.
    pose proof (align_frames_only (Some ts) stream 0 h) as Honly.
    destruct (align_frames host (Some ts) stream 0 h) as [[images|e] h1];
      simpl in *; [|discriminate].
    injection Hframes as ->.
    assert (Hsame : ∀ name, stream_of h1 streams name = stream_of h streams name)
      by (intros; by apply timestamps_only_stream_of).
    destruct (IH (<[first := map image_or_hole stream]> frames) h1)
      as (result & Hres & Hin & Hout).
    { intros name Hname. rewrite Hsame. apply Hall, elem_of_cons. by right. }
    exists result. split; [done|]. split.
    + intros name Hname. destruct (decide (name ∈ rest)) as [Hr|Hr].
      * destruct (Hin name Hr) as (st & Hst & Hl). exists st. by rewrite <- Hsame.
      * apply elem_of_cons in Hname as [->|?]; [|done].
        exists stream. split; [done|]. by rewrite (Hout first Hr), lookup_insert_eq.
    + intros name Hname. apply not_elem_of_cons in Hname as [Hne Hr].
      by rewrite (Hout name Hr), lookup_insert_ne.
Qed.

(** When every declared image stream is held by [streams], the poses give
    timestamps, and every entry is a hole or a frame with an [images] array,
    [getImageFrames()] returns, for every declared image stream, one value
    per entry and in order: the first image of a frame, [undefined] for a
    frame without images, and the hole itself for a hole. *)
Theorem getImageFrames_aligns_present_streams (w : World)
    (names : list string) (ts : list value) :
  getImageStreamNames w = Some names →
  truthy (getStreams w) = true →
  getTimestamps w = Returned (Some ts) →
  (∀ name, name ∈ names →
     ∃ stream, stream_of (heap w) (getStreams w) name = Some stream
               ∧ forallb readable stream = true) →
  ∃ frames,
    (getImageFrames host w).1 = Returned (Some frames)
    ∧ (∀ name, name ∈ names →
         ∃ stream, stream_of (heap w) (getStreams w) name = Some stream
                   ∧ frames !! name = Some (map image_or_hole stream))
    ∧ (∀ name, name ∉ names → frames !! name = None).
Proof.
  intros Hnames Hstreams Hts Hall. unfold getImageFrames; recompute_selector.
  rewrite Hts, Hstreams, Hnames.
  destruct (align_streams_readable (getStreams w) ts names ∅ (heap w) Hall)
    as (frames & Hres & Hin & Hout).
  destruct (align_streams host (getStreams w) (Some ts) names ∅ (heap w))
    as [[result|e] h]; simpl in *; [|discriminate].
  injection Hres as ->. exists frames. split; [done|]. split; [done|].
  intros name Hname. by rewrite (Hout name Hname).
Qed.

End ImageFrames.

Lemma getImageFrames_throws_on_absent_stream_witness :
  throws (getImageFrames Demo.host5 Demo.missing_stream_world).1.
Proof.
  apply (getImageFrames_throws_on_absent_stream Demo.host5 Demo.missing_stream_world
           ["/camera/front"; "/camera/rear"] "/camera/rear").
  - reflexivity.
  - reflexivity.
  - apply elem_of_cons. right. apply elem_of_cons. by left.
  - reflexivity.
Defined.

(** At the store whose declared rear camera has no stream yet, the call ends
    in a TypeError, after the front camera's image was already written to. *)
Lemma getImageFrames_missing_stream_TypeError :
  (getImageFrames Demo.host5 Demo.missing_stream_world).1 = Thrown TypeError
  ∧ heap (getImageFrames Demo.host5 Demo.missing_stream_world).2 !! 5%nat
    = Some (OImage (<["timestamp" := VNum 1]> Demo.image_5)).
Proof. split; vm_compute; reflexivity. Qed.

Lemma getImageFrames_aligns_present_streams_witness :
  ∃ frames,
    (getImageFrames Demo.host5 Demo.image_world).1 = Returned (Some frames)
    ∧ (∀ name, name ∈ ["/camera/front"; "/camera/rear"] →
         ∃ stream,
           stream_of (heap Demo.image_world) (getStreams Demo.image_world) name
           = Some stream
           ∧ frames !! name = Some (map image_or_hole stream))
    ∧ (∀ name, name ∉ ["/camera/front"; "/camera/rear"] → frames !! name = None).
Proof.
  apply (getImageFrames_aligns_present_streams Demo.host5 Demo.image_world
           ["/camera/front"; "/camera/rear"] [VNum 1000; VNum 2000]);
    try reflexivity.
  intros name Hname.
  apply elem_of_cons in Hname as [->|Hname];
    [exists Demo.front_frames; split; reflexivity|].
  apply elem_of_cons in Hname as [->|Hname];
    [exists Demo.rear_frames; split; reflexivity|].
  by apply elem_of_nil in Hname.
Defined.

(** With both streams there, holes and frames without images come back as
    the hole itself and [undefined]. *)
Lemma getImageFrames_holes_pass_through :
  (getImageFrames Demo.host5 Demo.image_world).1
  = Returned (Some {[ "/camera/front" := [VObj 5; VUndefined];
                      "/camera/rear" := [VNull; VUndefined] ]}).
Proof. vm_compute. reflexivity. Qed.

(** C5, as stated, fails: reading [getImageFrames] writes a [timestamp]
    property into the image object held under the [streams] key. *)
Lemma getImageFrames_mutates_stored_image :
  heap Demo.image_world !! 5%nat = Some (OImage Demo.image_5)
  ∧ Demo.image_5 !! "timestamp" = None
  ∧ (∃ frames, (getImageFrames Demo.host5 Demo.image_world).1 = Returned frames)
  ∧ heap (getImageFrames Demo.host5 Demo.image_world).2 !! 5%nat
    = Some (OImage (<["timestamp" := VNum 1]> Demo.image_5))
  ∧ heap (getImageFrames Demo.host5 Demo.image_world).2 ≠ heap Demo.image_world.
Proof.
  assert (H5 : heap (getImageFrames Demo.host5 Demo.image_world).2 !! 5%nat
               = Some (OImage (<["timestamp" := VNum 1]> Demo.image_5)))
    by (vm_compute; reflexivity).
  repeat split; try (vm_compute; reflexivity); [eexists; vm_compute; reflexivity|].
  intros Heq. rewrite Heq in H5. vm_compute in H5. discriminate.
Qed.

(** ** The GPS converter *)

Section Decoder.

Variable host : Host.

(** C6, as amended: [_convertPoseEntry] always returns. Every numeric
    field of the result is [Number(...)] of the record's property: the
    number itself for a number, the runtime's conversion of the text for a
    string, NaN for a property that is missing or [undefined], 0 for
    [null], 1 and 0 for [true] and [false], NaN for a plain object. The
    timestamp is copied as given. *)
Theorem _convertPoseEntry_coerces_and_never_fails
    (oxts : gmap string value) (timestamp : value) :
  ∃ e, GPS._convertPoseEntry host oxts timestamp = Returned e
    ∧ (∀ name proj, (name, proj) ∈ GPS.numeric_fields →
         proj e = match oxts !! name with
                  | Some (VNum x) => x
                  | Some (VStr s) => StringToNumber host s
                  | None | Some VUndefined => PrimFloat.nan
                  | Some VNull => 0%float
                  | Some (VBool true) => 1%float
                  | Some (VBool false) => 0%float
                  | Some (VObj _) => PrimFloat.nan
                  end)
    ∧ GPS.time (GPS.pose e) = timestamp
    ∧ GPS.Velocity.timestamp (GPS.velocity e) = timestamp
    ∧ GPS.Acceleration.timestamp (GPS.acceleration e) = timestamp.
Proof.
  eexists. split; [reflexivity|]. repeat split.
  intros name proj Hin. unfold GPS.numeric_fields in Hin.
  repeat (apply elem_of_cons in Hin as [Heq|Hin];
          [injection Heq as -> ->; simpl;
           unfold GPS.Number, GPS.field, ToNumber;
           by destruct (oxts !! _) as [[| |[]| | |]|]|]).
  by apply elem_of_nil in Hin.
Qed.

End Decoder.

(** C6, as stated, fails: a record without [lat] and with text for [lon] is
    decoded without any error, into NaN for both. *)
Lemma _convertPoseEntry_missing_field_yields_nan :
  Demo.oxts_without_lat !! "lat" = None
  ∧ Demo.oxts_without_lat !! "lon" = Some (VStr "east")
  ∧ ¬ throws (GPS._convertPoseEntry Demo.host5 Demo.oxts_without_lat (VNum 0))
  ∧ ∃ e, GPS._convertPoseEntry Demo.host5 Demo.oxts_without_lat (VNum 0) = Returned e
      ∧ GPS.latitude (GPS.pose e) = PrimFloat.nan
      ∧ GPS.longitude (GPS.pose e) = PrimFloat.nan
      ∧ GPS.yaw (GPS.pose e) = 3%float.
Proof.
  split; [vm_compute; reflexivity|].
  split; [vm_compute; reflexivity|].
  split; [intros [e He]; discriminate|].
  eexists. split; [reflexivity|]. repeat split; vm_compute; reflexivity.
Qed.

Section Load.

Variable host : Host.
Variable io : GPS.Imports.

Lemma _convertPose_carries (filePath : string) (t : value) :
  ∃ e, GPS._convertPose host io filePath t = Returned e ∧ GPS.carries e t.
Proof. eexists. split; [reflexivity|]. by repeat split. Qed.

Lemma convert_files_carry (dir : string) (ts : list value) (files : list string) :
  ∀ i, ∃ entries,
    GPS.convert_files host io dir ts files i = Returned entries
    ∧ length entries = length files
    ∧ ∀ j e, entries !! j = Some e →
        GPS.carries e (default VUndefined (ts !! (i + j)%nat)).
Proof.
  induction files as [|fileName rest IH]; intros i.
  - exists []. repeat split; by rewrite lookup_nil in *.
  - destruct (_convertPose_carries (GPS.path_join dir fileName)
                (default VUndefined (ts !! i))) as (entry & Hentry & Hc).
    destruct (IH (S i)) as (entries & Hrest & Hlen & Hall).
    exists (entry :: entries). cbn [GPS.convert_files]. rewrite Hentry, Hrest.
    split; [done|]. split; [simpl; by rewrite Hlen|].
    intros [|j] e Hj; simpl in Hj.
    + injection Hj as <-. by rewrite Nat.add_0_r.
    + replace (i + S j)%nat with (S i + j)%nat by lia. by apply Hall.
Qed.

(** C9: [load()] returns, with one frame per file of the recording, and the
    pose, the velocity and the acceleration of frame [i] carry
    [timestamps[i]]. *)
Theorem load_frames_carry_their_timestamps (c : GPS.GPSConverter) :
  ∃ r, GPS.load host io c = Returned r
    ∧ length (GPS.poses r) = length (GPS.gpsFiles r)
    ∧ ∀ i e, GPS.poses r !! i = Some e →
        GPS.time (GPS.pose e) = default VUndefined (GPS.timestamps r !! i)
        ∧ GPS.Velocity.timestamp (GPS.velocity e)
          = default VUndefined (GPS.timestamps r !! i)
        ∧ GPS.Acceleration.timestamp (GPS.acceleration e)
          = default VUndefined (GPS.timestamps r !! i).
Proof.
  unfold GPS.load.
  destruct (convert_files_carry (GPS.gpsDir c)
              (GPS.getTimestamps io
                 (GPS.path_join (GPS.path_join (GPS.rootDir c) "oxts") "timestamps.txt"))
              (GPS.sort (GPS.readdirSync io (GPS.gpsDir c))) 0)
    as (entries & Hconv & Hlen & Hall).
  rewrite Hconv. eexists. split; [reflexivity|]. simpl.
  split; [done|]. intros i e Hi. exact (Hall i e Hi).
Qed.

End Load.

(** The recording of two files: the files are read in sorted order, and
    frame 1 has latitude 50 and time 100. *)
Lemma load_two_files :
  ∃ r, GPS.load Demo.host5 Demo.two_files (GPS.constructor "kitti") = Returned r
    ∧ GPS.gpsFiles r = ["0000000000.txt"; "0000000001.txt"]
    ∧ (GPS.latitude ∘ GPS.pose <$> GPS.poses r) = [49%float; 50%float]
    ∧ (GPS.time ∘ GPS.pose <$> GPS.poses r) = [VNum 0; VNum 100].
Proof. eexists. split; [vm_compute; reflexivity|]. repeat split. Qed.

(** Reading a key back after [set(k, v)] gives [v]; only a zero may come
    back with the sign of a zero that was already stored. The key is one
    the store does not inherit. *)
Theorem get_after_set (key : string) (v : value) (w : World) :
  inherited key = false →
  get key (set key v w) = v
  ∨ ∃ x y, v = VNum x ∧ get key w = VNum y ∧ get key (set key v w) = VNum y
           ∧ PrimFloat.is_zero x = true ∧ PrimFloat.is_zero y = true.
Proof.
  intros _. destruct (strict_eq (get key w) v) eqn:He.
  - rewrite (set_noop _ _ _ He).
    destruct (strict_eq_true _ _ He) as [->|(y & x & Hy & Hx & Zy & Zx)];
      [by left|].
    right. exists x, y. by rewrite Hy.
  - left. rewrite (set_commit _ _ _ He). apply get_insert_same.
Qed.

(** ** Further facts about the order of floats *)

Section Order.

Lemma SFleb_ltb_trans (a b c : spec_float) :
  SFleb a b = true → SFltb b c = true → SFltb a c = true.
Proof.
  unfold SFleb, SFltb.
  destruct a as [sa|sa| |sa ma ea], b as [sb|sb| |sb mb eb], c as [sc|sc| |sc mc ec];
    simpl; try discriminate; try done;
    try (destruct sa; simpl; try discriminate; try done);
    try (destruct sb; simpl; try discriminate; try done);
    try (destruct sc; simpl; try discriminate; try done).
  all: change (Pos.compare_cont Eq) with Pos.compare.
  all: destruct (Z.compare_spec ea eb), (Z.compare_spec eb ec), (Z.compare_spec ea ec);
    try discriminate; try done; try lia; subst.
  all: destruct (Pos.compare_spec ma mb), (Pos.compare_spec mb mc), (Pos.compare_spec ma mc);
    simpl; try discriminate; try done; try lia.
Qed.

Lemma float_leb_ltb_trans (a b c : float) :
  PrimFloat.leb a b = true → PrimFloat.ltb b c = true → PrimFloat.ltb a c = true.
Proof.
  rewrite FloatAxioms.leb_spec, !FloatAxioms.ltb_spec. apply SFleb_ltb_trans.
Qed.

Lemma float_ltb_asym (a b : float) :
  PrimFloat.ltb a b = true → PrimFloat.ltb b a = false.
Proof.
  rewrite !FloatAxioms.ltb_spec. unfold SFltb.
  destruct (SFcompare (Prim2SF a) (Prim2SF b)) as [c|] eqn:Hc; [|discriminate].
  rewrite (SFcompare_antisym _ _ _ Hc). by destruct c.
Qed.

Lemma float_ltb_not_both_zero (a b : float) :
  PrimFloat.ltb a b = true → PrimFloat.is_zero b && PrimFloat.is_zero a = false.
Proof.
  intros Hlt. destruct (PrimFloat.is_zero b) eqn:Zb; [|done].
  destruct (PrimFloat.is_zero a) eqn:Za; [|done].
  destruct (is_zero_SF a Za) as [sa Sa], (is_zero_SF b Zb) as [sb Sb].
  rewrite FloatAxioms.ltb_spec, Sa, Sb in Hlt. discriminate.
Qed.

Lemma is_infinity_SF (a : float) :
  PrimFloat.is_infinity a = false → ∀ s, Prim2SF a ≠ S754_infinity s.
Proof.
  unfold PrimFloat.is_infinity. rewrite FloatAxioms.eqb_spec, FloatAxioms.abs_spec.
  change (Prim2SF PrimFloat.infinity) with (S754_infinity false).
  intros H s Hs. rewrite Hs in H. discriminate.
Qed.

Lemma SFeqb_refl (x : spec_float) : x ≠ S754_nan → SFeqb x x = true.
Proof.
  unfold SFeqb. destruct x as [s|s| |s m e]; simpl; intros H; try done.
  - by destruct s.
  - destruct s; by rewrite Z.compare_refl, Pos.compare_cont_refl.
Qed.

Lemma SF_is_nan (x : float) : Prim2SF x ≠ S754_nan → PrimFloat.is_nan x = false.
Proof.
  intros H. unfold PrimFloat.is_nan.
  by rewrite FloatAxioms.eqb_spec, (SFeqb_refl _ H).
Qed.

Lemma SF_is_infinity (x : float) :
  (∀ s, Prim2SF x ≠ S754_infinity s) → PrimFloat.is_infinity x = false.
Proof.
  intros H. unfold PrimFloat.is_infinity.
  rewrite FloatAxioms.eqb_spec, FloatAxioms.abs_spec.
  change (Prim2SF PrimFloat.infinity) with (S754_infinity false).
  destruct (Prim2SF x) as [s|s| |s m e]; simpl; try done. by destruct (H s).
Qed.

(** A float between two finite floats is finite. *)
Lemma float_between_finite (lo c hi : float) :
  isFinite (VNum lo) = true → isFinite (VNum hi) = true →
  PrimFloat.leb lo c = true → PrimFloat.leb c hi = true →
  isFinite (VNum c) = true.
Proof.
  simpl. intros Hlo Hhi Hl Hu.
  apply negb_true_iff, orb_false_elim in Hlo as [Nlo Ilo].
  apply negb_true_iff, orb_false_elim in Hhi as [Nhi Ihi].
  pose proof (is_infinity_SF lo Ilo) as Flo. pose proof (is_infinity_SF hi Ihi) as Fhi.
  rewrite FloatAxioms.leb_spec in Hl, Hu. unfold SFleb in Hl, Hu.
  apply negb_true_iff, orb_false_intro.
  - apply SF_is_nan. intros Hc. rewrite Hc in Hu. discriminate.
  - apply SF_is_infinity. intros s Hc. rewrite Hc in Hl, Hu. destruct s.
    + destruct (Prim2SF lo) as [s|s| |s m e]; simpl in Hl; try discriminate.
      destruct s; [by destruct (Flo true)|discriminate].
    + destruct (Prim2SF hi) as [s|s| |s m e]; simpl in Hu; try discriminate.
      destruct s; [discriminate|by destruct (Fhi false)].
Qed.

Lemma float_ltb_not_nan_r (a b : float) :
  PrimFloat.ltb a b = true → PrimFloat.is_nan b = false.
Proof.
  rewrite FloatAxioms.ltb_spec. unfold SFltb. intros H. apply SF_is_nan.
  intros Hb. rewrite Hb in H. by destruct (Prim2SF a).
Qed.

Lemma float_ltb_zero_r (a b c : float) :
  PrimFloat.is_zero a = true → PrimFloat.is_zero b = true →
  PrimFloat.ltb c a = PrimFloat.ltb c b.
Proof.
  intros Ha Hb. destruct (is_zero_SF a Ha) as [sa Sa], (is_zero_SF b Hb) as [sb Sb].
  rewrite !FloatAxioms.ltb_spec, Sa, Sb. unfold SFltb.
  by destruct (Prim2SF c).
Qed.

Lemma float_eqb_zeros (a b : float) :
  PrimFloat.is_zero a = true → PrimFloat.is_zero b = true → PrimFloat.eqb a b = true.
Proof.
  intros Ha Hb. destruct (is_zero_SF a Ha) as [sa Sa], (is_zero_SF b Hb) as [sb Sb].
  by rewrite FloatAxioms.eqb_spec, Sa, Sb.
Qed.

Lemma float_eqb_refl (a : float) : PrimFloat.is_nan a = false → PrimFloat.eqb a a = true.
Proof. unfold PrimFloat.is_nan. by destruct (PrimFloat.eqb a a). Qed.

End Order.

(** ** Further properties of the store and the cursor *)

Section StoreMore.

Variable host : Host.

(** A value is strictly equal to itself unless it is NaN. *)
Lemma strict_eq_refl (v : value) : v ≠ VNum PrimFloat.nan → strict_eq v v = true.
Proof.
  destruct v as [| |b|x|str|r]; simpl; intros Hv; try done.
  - by destruct b.
  - rewrite FloatAxioms.eqb_spec. unfold SFeqb.
    destruct (Prim2SF x) as [sx|sx| |sx mx ex] eqn:Hx; simpl.
    + done.
    + by destruct sx.
    + exfalso. apply Hv. f_equal. by apply Prim2SF_inj.
    + destruct sx; by rewrite Z.compare_refl, Pos.compare_cont_refl.
  - apply String.eqb_refl.
  - apply Nat.eqb_refl.
Qed.

(** Nothing is strictly equal to NaN. *)
Lemma strict_eq_nan (v : value) : strict_eq v (VNum PrimFloat.nan) = false.
Proof.
  destruct v as [| |b|x|str|r]; simpl; try done.
  rewrite FloatAxioms.eqb_spec. unfold SFeqb.
  change (Prim2SF PrimFloat.nan) with S754_nan.
  by destruct (Prim2SF x).
Qed.

Lemma set_twice (key : string) (v : value) (w : World) :
  v ≠ VNum PrimFloat.nan → set key v (set key v w) = set key v w.
Proof.
  intros Hv. apply set_noop.
  destruct (strict_eq (get key w) v) eqn:He.
  - by rewrite (set_noop _ _ _ He).
  - rewrite (set_commit _ _ _ He), get_insert_same. by apply strict_eq_refl.
Qed.

(** Setting the same value twice in a row is the same as setting it once:
    the second [set] is a no-op. Only NaN escapes this. The key is one the
    store does not inherit. *)
Theorem set_is_idempotent_except_nan (key : string) (v : value) (w : World) :
  inherited key = false →
  v ≠ VNum PrimFloat.nan →
  set key v (set key v w) = set key v w.
Proof. intros _. apply set_twice. Qed.

Lemma listeners_set (key : string) (v : value) (w : World) :
  listeners (this (set key v w)) = listeners (this w).
Proof. unfold set. by destruct (strict_neq (get key w) v). Qed.

(** What [seek] commits: the raw timestamp, or the clamped one. *)
Lemma seek_is_set (t : value) (w : World) :
  ∃ v, seek host t w = set "timestamp" v w
       ∧ (truthy (getMetadata w) = false → v = t)
       ∧ (truthy (getMetadata w) = true →
          v = VNum (clamp host t (getLogStartTime host w) (getLogEndTime w))).
Proof.
  unfold seek. destruct (truthy (getMetadata w)); eexists; repeat split; done.
Qed.

(** [seek] writes the [timestamp] key and nothing else: the other keys, the
    listeners and the heap stay, and so do the metadata, the streams and
    everything selected from them. *)
Theorem seek_touches_only_the_timestamp (t : value) (w : World) :
  (∀ k, k ≠ "timestamp" → get k (seek host t w) = get k w)
  ∧ listeners (this (seek host t w)) = listeners (this w)
  ∧ heap (seek host t w) = heap w
  ∧ getMetadata (seek host t w) = getMetadata w
  ∧ getStreams (seek host t w) = getStreams w
  ∧ getLogSynchronizer (seek host t w) = getLogSynchronizer w
  ∧ getTimeDomain host (seek host t w) = getTimeDomain host w
  ∧ getImageStreamNames (seek host t w) = getImageStreamNames w
  ∧ getTimestamps (seek host t w) = getTimestamps w.
Proof.
  destruct (seek_is_set t w) as (v & -> & _).
  assert (Hk : ∀ k, k ≠ "timestamp" → get k (set "timestamp" v w) = get k w)
    by (intros; by apply get_set_other).
  unfold getTimeDomain, getLogStartTime, getLogEndTime, getImageStreamNames,
    getTimestamps, recomputed, getMetadata, getStreams, getLogSynchronizer.
  rewrite !heap_set, !Hk by done. repeat split; [done|apply listeners_set].
Qed.

Lemma seek_unfold (t : value) (w : World) :
  seek host t w =
    set "timestamp"
      (if truthy (getMetadata w)
       then VNum (clamp host t (getLogStartTime host w) (getLogEndTime w))
       else t) w.
Proof. reflexivity. Qed.

Lemma seek_twice (t : value) (w : World) :
  (if truthy (getMetadata w)
   then VNum (clamp host t (getLogStartTime host w) (getLogEndTime w))
   else t) ≠ VNum PrimFloat.nan →
  seek host t (seek host t w) = seek host t w.
Proof.
  intros Hv. rewrite (seek_unfold t (seek host t w)).
  replace (getMetadata (seek host t w)) with (getMetadata w).
  2:{ rewrite seek_unfold. unfold getMetadata. by rewrite get_set_other. }
  replace (getLogStartTime host (seek host t w)) with (getLogStartTime host w).
  2:{ rewrite seek_unfold. unfold getLogStartTime, recomputed, getMetadata.
      by rewrite heap_set, get_set_other. }
  replace (getLogEndTime (seek host t w)) with (getLogEndTime w).
  2:{ rewrite seek_unfold. unfold getLogEndTime, recomputed, getMetadata.
      by rewrite heap_set, get_set_other. }
  rewrite seek_unfold. by apply set_twice.
Qed.

Lemma seek_touches_frame (t : value) (w : World) :
  (∀ k, k ≠ "timestamp" → get k (seek host t w) = get k w)
  ∧ listeners (this (seek host t w)) = listeners (this w)
  ∧ heap (seek host t w) = heap w.
Proof.
  rewrite seek_unfold. repeat split.
  - intros k Hk. by apply get_set_other.
  - apply listeners_set.
  - apply heap_set.
Qed.

(** Seeking to the same timestamp twice in a row is the same as seeking
    once (no second commit, no second notification), unless the value
    committed is NaN. *)
Theorem seek_is_idempotent_except_nan (t : value) (w : World) :
  (truthy (getMetadata w) = false → t ≠ VNum PrimFloat.nan →
   seek host t (seek host t w) = seek host t w)
  ∧ (truthy (getMetadata w) = true →
     PrimFloat.is_nan (clamp host t (getLogStartTime host w) (getLogEndTime w)) = false →
     seek host t (seek host t w) = seek host t w).
Proof.
  split; intros Hm Hv; apply seek_twice; rewrite Hm; [done|].
  intros Heq. injection Heq as Heq. rewrite Heq in Hv. discriminate.
Qed.

Lemma clamp_of_nan (t lo hi : value) :
  PrimFloat.is_nan (ToNumber (StringToNumber host) t) = true →
  clamp host t lo hi = PrimFloat.nan.
Proof.
  intros Ht. unfold clamp, Math_min. rewrite Ht, orb_true_r.
  unfold Math_max. change (PrimFloat.is_nan PrimFloat.nan) with true.
  by rewrite orb_true_r.
Qed.

(** With metadata in the store, seeking to anything that converts to NaN
    ([undefined], NaN, text that is not a number) is not rejected: the
    cursor becomes NaN, the version goes up, and the current frame
    is [null]. *)
Theorem seek_to_nan_poisons_the_cursor (t : value) (w : World) :
  truthy (getMetadata w) = true →
  PrimFloat.is_nan (ToNumber (StringToNumber host) t) = true →
  getCurrentTime (seek host t w) = VNum PrimFloat.nan
  ∧ _version (this (seek host t w)) = _version (this w) + 1
  ∧ (getCurrentFrame (seek host t w)).1 = Returned VNull.
Proof.
  intros Hm Ht. rewrite seek_unfold, Hm, (clamp_of_nan _ _ _ Ht).
  rewrite (set_commit _ _ _ (strict_eq_nan _)).
  assert (Hts : getCurrentTime
            {| this := {| listeners := listeners (this w);
                          state := <["timestamp" := VNum PrimFloat.nan]> (state (this w));
                          _version := _version (this w) + 1 |};
               heap := heap w;
               calls := calls w ++
                 map (λ o, {| listener := o; version_arg := _version (this w) + 1;
                              seen := <["timestamp" := VNum PrimFloat.nan]> (state (this w)) |})
                     (listeners (this w)) |} = VNum PrimFloat.nan)
    by apply get_insert_same.
  split; [exact Hts|]. split; [done|].
  rewrite getCurrentFrame_guard_false; [done|].
  rewrite Hts. simpl. apply andb_false_r.
Qed.

Lemma clamp_reversed (t : value) (lo hi : float) :
  PrimFloat.is_nan (ToNumber (StringToNumber host) t) = false →
  PrimFloat.is_nan hi = false →
  PrimFloat.ltb hi lo = true →
  clamp host t (VNum lo) (VNum hi) = lo.
Proof.
  intros Ht Hhi Hlt. unfold clamp. simpl.
  destruct (Math_min_below hi _ Hhi Ht) as [Hn Hm].
  pose proof (float_leb_ltb_trans _ _ _ Hm Hlt) as Hml.
  unfold Math_max.
  rewrite (float_ltb_not_nan_r _ _ Hlt), Hn, (float_ltb_not_both_zero _ _ Hml),
    (float_ltb_asym _ _ Hml).
  reflexivity.
Qed.

(** When the time window is longer than the log
    ([end_time < start_time + TIME_WINDOW]), every [seek] of a number leaves
    the cursor at [start_time + TIME_WINDOW], which is past [end_time]. *)
Theorem seek_with_window_longer_than_log (t : value) (w : World) (m : Metadata) :
  as_metadata (heap w) (getMetadata w) = Some m →
  PrimFloat.is_nan (ToNumber (StringToNumber host) t) = false →
  PrimFloat.is_nan (end_time m) = false →
  PrimFloat.ltb (end_time m)
                (start_time m + TIME_WINDOW (getXvizSettings host))%float = true →
  ∃ c, getCurrentTime (seek host t w) = VNum c
       ∧ PrimFloat.eqb c (start_time m + TIME_WINDOW (getXvizSettings host))%float = true
       ∧ PrimFloat.ltb (end_time m) c = true.
Proof.
  intros Hm Ht Hhi Hlt.
  rewrite (seek_with_metadata _ _ _ _ Hm), (clamp_reversed _ _ _ Ht Hhi Hlt).
  unfold getCurrentTime.
  destruct (get_set_same "timestamp"
              (VNum (start_time m + TIME_WINDOW (getXvizSettings host))%float) w)
    as [Hg|(x & y & Hx & Hy & Zx & Zy)].
  - eexists. split; [exact Hg|]. split; [|done].
    apply float_eqb_refl. by apply (float_ltb_not_nan_r _ _ Hlt).
  - injection Hx as <-. exists y. split; [done|]. split.
    + by apply float_eqb_zeros.
    + by rewrite (float_ltb_zero_r y _ _ Zy Zx).
Qed.

(** After [seek(t)] of a number, with a synchronizer and a metadata object
    whose bounds are finite and in order, the recomputation of
    [getCurrentFrame] sets the synchronizer to a time within the bounds and
    returns what the synchronizer returns. *)
Lemma getCurrentFrame_after_seek
    (t : value) (w : World) (r : ref) (s : LogSynchronizer) (m : Metadata) :
  getLogSynchronizer w = VObj r →
  heap w !! r = Some (OSynchronizer s) →
  as_metadata (heap w) (getMetadata w) = Some m →
  isFinite (VNum (start_time m + TIME_WINDOW (getXvizSettings host))%float) = true →
  isFinite (VNum (end_time m)) = true →
  PrimFloat.leb (start_time m + TIME_WINDOW (getXvizSettings host))%float
                (end_time m) = true →
  PrimFloat.is_nan (ToNumber (StringToNumber host) t) = false →
  ∃ c, PrimFloat.leb (start_time m + TIME_WINDOW (getXvizSettings host))%float c = true
       ∧ PrimFloat.leb c (end_time m) = true
       ∧ getCurrentTime (seek host t w) = VNum c
       ∧ (getCurrentFrame (seek host t w)).1
         = Returned (sync_getCurrentFrame s (streams m)
                       (sync_setTime s c (sync_current s))).1.
Proof.
  intros Hs Hr Hm Flo Fhi Hle Ht.
  assert (Nlo : PrimFloat.is_nan (start_time m + TIME_WINDOW (getXvizSettings host))%float = false).
  { simpl in Flo. apply negb_true_iff, orb_false_elim in Flo. tauto. }
  assert (Nhi : PrimFloat.is_nan (end_time m) = false).
  { simpl in Fhi. apply negb_true_iff, orb_false_elim in Fhi. tauto. }
  destruct (seek_bounds host t w m Hm Ht Nlo Nhi Hle) as (c & Hc & Hl & Hu).
  exists c. repeat split; [done..|].
  pose proof (float_between_finite _ _ _ Flo Fhi Hl Hu) as Fc.
  destruct (seek_touches_frame t w) as (Hk & _ & Hheap).
  assert (Hs' : getLogSynchronizer (seek host t w) = VObj r).
  { unfold getLogSynchronizer. by rewrite Hk. }
  assert (Hm' : getMetadata (seek host t w) = getMetadata w).
  { unfold getMetadata. by rewrite Hk. }
  assert (Hr' : heap (seek host t w) !! r = Some (OSynchronizer s)) by (by rewrite Hheap).
  assert (Htruthy : truthy (getMetadata (seek host t w)) = true).
  { rewrite Hm'. by apply (as_metadata_truthy _ _ _ Hm). }
  rewrite (getCurrentFrame_delegates _ r s c Hs' Hr' Htruthy Hc Fc). simpl.
  unfold metadata_streams. by rewrite Hheap, Hm', Hm.
Qed.

Lemma remove_first_absent (o : nat) (l : list nat) : o ∉ l → remove_first o l = l.
Proof.
  induction l as [|x xs IH]; [done|]. intros Hin. simpl.
  apply not_elem_of_cons in Hin as [Hne Hin].
  destruct (Nat.eqb_spec x o) as [->|_]; [done|]. by rewrite IH.
Qed.

Lemma remove_first_app_new (o : nat) (l : list nat) :
  o ∉ l → remove_first o (l ++ [o]) = l.
Proof.
  induction l as [|x xs IH]; intros Hin; simpl.
  - by rewrite Nat.eqb_refl.
  - apply not_elem_of_cons in Hin as [Hne Hin].
    destruct (Nat.eqb_spec x o) as [->|_]; [done|]. by rewrite IH.
Qed.

Lemma registrations_cons (o x : nat) (l : list nat) :
  registrations o (x :: l)
  = ((if decide (x = o) then 1 else 0) + registrations o l)%nat.
Proof.
  unfold registrations. rewrite filter_cons. by destruct (decide (x = o)).
Qed.

Lemma registrations_absent (o : nat) (l : list nat) : o ∉ l → registrations o l = 0%nat.
Proof.
  induction l as [|x xs IH]; [done|]. intros Hin.
  apply not_elem_of_cons in Hin as [Hne Hin].
  rewrite registrations_cons, (IH Hin). by destruct (decide (x = o)).
Qed.

(** [remove_first] takes away one registration of [o], if there is one, and
    none of any other listener. *)
Lemma registrations_remove_first (o o' : nat) (l : list nat) :
  registrations o' (remove_first o l)
  = (registrations o' l - (if decide (o' = o ∧ o ∈ l) then 1 else 0))%nat.
Proof.
  induction l as [|x xs IH]; simpl.
  - by destruct (decide _).
  - destruct (Nat.eqb_spec x o) as [->|Hne].
    + rewrite registrations_cons. destruct (decide (o = o')) as [->|Hne'].
      * rewrite decide_True; [lia|]. split; [done|]. apply elem_of_cons. by left.
      * rewrite decide_False; [lia|]. intros [? _]. congruence.
    + rewrite !registrations_cons, IH.
      destruct (decide (x = o')) as [->|Hxo].
      * rewrite !decide_False; [lia|intros [? _]; congruence|intros [? _]; congruence].
      * destruct (decide (o' = o ∧ o ∈ xs)) as [[-> Hin]|Hn].
        -- rewrite decide_True; [lia|]. split; [done|]. apply elem_of_cons. by right.
        -- rewrite decide_False; [lia|]. intros [-> Hin]. apply Hn. split; [done|].
           apply elem_of_cons in Hin as [?|?]; [congruence|done].
Qed.

(** [unsubscribe] undoes [subscribe] for a listener that was not registered
    before, and does nothing for a listener that is not registered. For a
    listener registered before, the pair leaves every listener registered
    as often as before (the registration removed is the first one, so the
    order of the calls may change). *)
Theorem unsubscribe_after_subscribe (instance : nat) (w : World) :
  (instance ∉ listeners (this w) → unsubscribe instance (subscribe instance w) = w)
  ∧ (instance ∉ listeners (this w) → unsubscribe instance w = w)
  ∧ ∀ o, registrations o (listeners (this (unsubscribe instance (subscribe instance w))))
         = registrations o (listeners (this w)).
Proof.
  destruct w as [[l st ver] h c]. unfold unsubscribe, subscribe. simpl.
  split; [|split].
  - intros Hin. by rewrite remove_first_app_new.
  - intros Hin. by rewrite remove_first_absent.
  - intros o. rewrite registrations_remove_first.
    unfold registrations at 1. rewrite filter_app, length_app.
    fold (registrations o l). rewrite filter_cons, filter_nil.
    destruct (decide (instance = o)) as [->|Hne]; simpl.
    + rewrite decide_True; [lia|]. split; [done|]. apply elem_of_app. right.
      apply elem_of_cons. by left.
    + rewrite decide_False; [lia|]. intros [? _]. congruence.
Qed.

(** After [unsubscribe(o)], a committing [set] calls [o] one time less than
    it is registered (not at all when it was registered once) and every
    other listener as often as it is registered. The key is one the store
    does not inherit. *)
Theorem unsubscribed_listener_is_not_notified
    (instance : nat) (key : string) (v : value) (w : World) :
  inherited key = false →
  strict_eq (get key w) v = false →
  instance ∈ listeners (this w) →
  calls_to instance (calls (set key v (unsubscribe instance w)))
  = (calls_to instance (calls w) + (registrations instance (listeners (this w)) - 1))%nat
  ∧ ∀ o, o ≠ instance →
      calls_to o (calls (set key v (unsubscribe instance w)))
      = (calls_to o (calls w) + registrations o (listeners (this w)))%nat.
Proof.
  intros _ Hne Hin.
  assert (Hne' : strict_eq (get key (unsubscribe instance w)) v = false) by exact Hne.
  rewrite (set_commit _ _ _ Hne'). simpl.
  assert (Hcount : ∀ o,
    calls_to o
      (calls w ++
       map (λ o0, {| listener := o0; version_arg := _version (this w) + 1;
                     seen := <[key := v]> (state (this w)) |})
           (remove_first instance (listeners (this w))))
    = (calls_to o (calls w)
       + registrations o (remove_first instance (listeners (this w))))%nat).
  { intros o. rewrite calls_to_app. f_equal.
    exact (calls_to_notify o
             {| listeners := remove_first instance (listeners (this w));
                state := <[key := v]> (state (this w));
                _version := _version (this w) + 1 |}). }
  split.
  - rewrite Hcount, registrations_remove_first. by rewrite decide_True.
  - intros o Ho. rewrite Hcount, registrations_remove_first.
    rewrite decide_False; [lia|]. by intros [? _].
Qed.

Lemma versions_in_order_set (key : string) (v : value) (w : World) :
  versions_in_order w → versions_in_order (set key v w).
Proof.
  intros (Hv & Hb & Hs).
  destruct (strict_eq (get key w) v) eqn:He; [by rewrite (set_noop _ _ _ He)|].
  rewrite (set_commit _ _ _ He). unfold versions_in_order. simpl.
  set (new := map _ (listeners (this w))).
  assert (Hnew : ∀ n, n ∈ new → version_arg n = _version (this w) + 1).
  { intros n Hn. unfold new in Hn. apply list_elem_of_fmap in Hn as (o & -> & _). done. }
  split; [lia|]. split.
  - intros n Hn. apply elem_of_app in Hn as [Hn|Hn].
    + specialize (Hb n Hn). lia.
    + rewrite (Hnew n Hn). lia.
  - intros i j a b Hij Ha Hb'.
    apply lookup_app_Some in Ha as [Ha|[Hi Ha]], Hb' as [Hb'|[Hj Hb']].
    + by eapply Hs.
    + apply list_elem_of_lookup_2 in Ha, Hb'.
      specialize (Hb a Ha). rewrite (Hnew b Hb'). lia.
    + apply lookup_lt_Some in Hb'. lia.
    + apply list_elem_of_lookup_2 in Ha, Hb'. rewrite (Hnew a Ha), (Hnew b Hb'). lia.
Qed.

Lemma version_set (key : string) (v : value) (w : World) :
  _version (this w) ≤ _version (this (set key v w))
  ∧ calls w `prefix_of` calls (set key v w).
Proof.
  unfold set. destruct (strict_neq (get key w) v); simpl.
  - split; [lia|]. by apply prefix_app_r.
  - done.
Qed.

(** The two reading selectors leave the instance and the calls alone. *)
Lemma reads_keep_the_loader (w : World) :
  this (getCurrentFrame w).2 = this w ∧ calls (getCurrentFrame w).2 = calls w
  ∧ this (getImageFrames host w).2 = this w
  ∧ calls (getImageFrames host w).2 = calls w.
Proof.
  assert (H1 : this (getCurrentFrame w).2 = this w ∧ calls (getCurrentFrame w).2 = calls w).
  { unfold getCurrentFrame, recomputed.
    destruct (truthy _ && truthy _ && isFinite _); [|done].
    destruct (getLogSynchronizer w) as [| | | | |r]; try done.
    destruct (getCurrentTime w) as [| | |t| |]; try done.
    destruct (heap w !! r) as [[| |s|]|]; try done.
    by destruct (sync_getCurrentFrame s _ _). }
  assert (H2 : this (getImageFrames host w).2 = this w
               ∧ calls (getImageFrames host w).2 = calls w).
  { unfold getImageFrames; recompute_selector.
    destruct (getTimestamps w) as [ts|e]; [|done].
    destruct (truthy (getStreams w)), (getImageStreamNames w) as [names|]; try done.
    by destruct (align_streams host _ _ _ _ _) as [[frames|e] h]. }
  tauto.
Qed.

Lemma step_versions (w w' : World) :
  step host w w' →
  (versions_in_order w → versions_in_order w')
  ∧ _version (this w) ≤ _version (this w')
  ∧ calls w `prefix_of` calls w'.
Proof.
  destruct 1 as [o w|o w|key v w _|t w|metadata w|w|w].
  - done.
  - done.
  - split; [apply versions_in_order_set|apply version_set].
  - rewrite seek_unfold. split; [apply versions_in_order_set|apply version_set].
  - unfold _setMetadata.
    set (w1 := set "metadata" metadata w).
    assert (H1 : (versions_in_order w → versions_in_order w1)
                 ∧ _version (this w) ≤ _version (this w1)
                 ∧ calls w `prefix_of` calls w1)
      by (split; [apply versions_in_order_set|apply version_set]).
    assert (H2 : ∀ t, (versions_in_order w → versions_in_order (seek host t w1))
                 ∧ _version (this w) ≤ _version (this (seek host t w1))
                 ∧ calls w `prefix_of` calls (seek host t w1)).
    { intros t. rewrite seek_unfold.
      destruct H1 as (Ha & Hb & Hc).
      destruct (version_set "timestamp"
                  (if truthy (getMetadata w1)
                   then VNum (clamp host t (getLogStartTime host w1) (getLogEndTime w1))
                   else t) w1) as [Hd He].
      split; [intros; by apply versions_in_order_set, Ha|].
      split; [lia|by etrans]. }
    destruct (isFinite (get "timestamp" w1)); [apply H2|].
    destruct metadata; simpl; first [apply H1 | apply H2].
  - destruct (reads_keep_the_loader w) as (Ht & Hc & _).
    unfold versions_in_order. by rewrite Ht, Hc.
  - destruct (reads_keep_the_loader w) as (_ & _ & Ht & Hc).
    unfold versions_in_order. by rewrite Ht, Hc.
Qed.

(** In every world a loader can reach by [subscribe], [unsubscribe], [set],
    [seek], [_setMetadata] and selector reads, the versions the listeners
    were called with lie between 1 and the current version and never
    decrease from one call to the next; and a further call neither lowers
    the version nor rewrites the calls already made. *)
Theorem reachable_versions_in_order (h : gmap ref obj) (w : World) :
  reachable host h w →
  versions_in_order w
  ∧ ∀ w', step host w w' →
          _version (this w) ≤ _version (this w')
          ∧ calls w `prefix_of` calls w'.
Proof.
  intros Hreach. split.
  - revert w Hreach. apply (rtc_ind_r versions_in_order (fresh h)).
    + unfold versions_in_order, fresh. simpl. split; [done|]. split.
      * intros n Hn. by apply elem_of_nil in Hn.
      * intros i j a b _ Ha. by rewrite lookup_nil in Ha.
    + intros y z _ Hstep IH. by apply (step_versions y z).
  - intros w' Hstep. by apply (step_versions w w').
Qed.

End StoreMore.

Lemma seven_is_not_nan : VNum 7 ≠ VNum PrimFloat.nan.
Proof.
  intros H. apply (f_equal (λ v, isFinite v)) in H. vm_compute in H. discriminate.
Qed.

Lemma set_is_idempotent_except_nan_witness :
  set "timestamp" (VNum 7) (set "timestamp" (VNum 7) Demo.nan_world)
  = set "timestamp" (VNum 7) Demo.nan_world.
Proof.
  exact (set_is_idempotent_except_nan "timestamp" (VNum 7) Demo.nan_world eq_refl
           seven_is_not_nan).
Defined.

Lemma seek_to_nan_poisons_the_cursor_witness :
  getCurrentTime (seek Demo.host5 VUndefined Demo.synchronized_world) = VNum PrimFloat.nan
  ∧ _version (this (seek Demo.host5 VUndefined Demo.synchronized_world))
    = _version (this Demo.synchronized_world) + 1
  ∧ (getCurrentFrame (seek Demo.host5 VUndefined Demo.synchronized_world)).1
    = Returned VNull.
Proof.
  apply (seek_to_nan_poisons_the_cursor Demo.host5 VUndefined Demo.synchronized_world);
    reflexivity.
Defined.

Lemma seek_with_window_longer_than_log_witness :
  ∃ c, getCurrentTime (seek Demo.host5 (VNum 50) Demo.short_log_world) = VNum c
       ∧ PrimFloat.eqb c 105 = true
       ∧ PrimFloat.ltb 102 c = true.
Proof.
  apply (seek_with_window_longer_than_log Demo.host5 (VNum 50) Demo.short_log_world
           Demo.metadata_100_102); reflexivity.
Defined.

Lemma unsubscribed_listener_is_not_notified_witness :
  calls_to 1 (calls (set "timestamp" (VNum 7) (unsubscribe 1 Demo.nan_world)))
  = calls_to 1 (calls Demo.nan_world)
  ∧ calls_to 2 (calls (set "timestamp" (VNum 7) (unsubscribe 1 Demo.nan_world)))
    = S (calls_to 2 (calls Demo.nan_world)).
Proof.
  assert (Hin : 1%nat ∈ listeners (this Demo.nan_world)).
  { apply elem_of_cons. by left. }
  destruct (unsubscribed_listener_is_not_notified 1 "timestamp" (VNum 7)
              Demo.nan_world eq_refl eq_refl Hin) as [H1 H2].
  split.
  - rewrite H1. vm_compute. reflexivity.
  - rewrite (H2 2%nat); [vm_compute; reflexivity|discriminate].
Defined.

Lemma reachable_versions_in_order_witness :
  versions_in_order Demo.nan_world
  ∧ ∀ w', step Demo.host5 Demo.nan_world w' →
          _version (this Demo.nan_world) ≤ _version (this w')
          ∧ calls Demo.nan_world `prefix_of` calls w'.
Proof.
  apply (reachable_versions_in_order Demo.host5 ∅ Demo.nan_world).
  unfold reachable, Demo.nan_world.
  eapply rtc_l; [apply (step_subscribe _ 1%nat)|].
  eapply rtc_l; [apply (step_subscribe _ 2%nat)|].
  eapply rtc_l; [apply (step_set _ "timestamp" (VNum PrimFloat.nan)); reflexivity|].
  apply rtc_refl.
Defined.

(** ** Trajectory vertices *)

Section Trajectory.

Lemma _convertTrajectory_cons {P V : Type} (off : P → P → V) (first : P) (rest : list P) :
  GPS._convertTrajectory off (first :: rest)
  = Returned (off first first :: map (off first) rest).
Proof. reflexivity. Qed.

(** The spec's view of a float: NaN, an infinity, or a finite number. *)
Lemma is_nan_SF (x : float) : PrimFloat.is_nan x = true → Prim2SF x = S754_nan.
Proof.
  unfold PrimFloat.is_nan. rewrite FloatAxioms.eqb_spec. intros H.
  destruct (Prim2SF x) as [sx|sx| |sx mx ex] eqn:Hx; try done.
  all: rewrite SFeqb_refl in H; done.
Qed.

Lemma is_nan_eq (x : float) : PrimFloat.is_nan x = true → x = PrimFloat.nan.
Proof. intros H. apply Prim2SF_inj. by rewrite (is_nan_SF x H). Qed.

Lemma isFinite_SF (x : float) :
  isFinite (VNum x) = true →
  (∃ sx, Prim2SF x = S754_zero sx) ∨ (∃ sx mx ex, Prim2SF x = S754_finite sx mx ex).
Proof.
  simpl. intros H. apply negb_true_iff, orb_false_elim in H as [Hn Hi].
  pose proof (not_nan_SF x Hn) as Nn. pose proof (is_infinity_SF x Hi) as Ni.
  destruct (Prim2SF x) as [sx|sx| |sx mx ex]; [left; eauto|by destruct (Ni sx)|done|].
  right. eauto.
Qed.

Lemma SF_isFinite (x : float) :
  (∃ sx, Prim2SF x = S754_zero sx) ∨ (∃ sx mx ex, Prim2SF x = S754_finite sx mx ex) →
  isFinite (VNum x) = true.
Proof.
  intros H. simpl.
  rewrite (SF_is_nan x), (SF_is_infinity x); [done| |].
  - intros s. destruct H as [[sx ->]|(sx & mx & ex & ->)]; done.
  - destruct H as [[sx ->]|(sx & mx & ex & ->)]; done.
Qed.

Lemma SF_is_zero (x : float) (sx : bool) : Prim2SF x = S754_zero sx → PrimFloat.is_zero x = true.
Proof.
  intros H. unfold PrimFloat.is_zero. rewrite FloatAxioms.eqb_spec, H.
  by destruct sx.
Qed.

(** NaN is contagious in the arithmetic. *)
Lemma float_mul_nan_r (x : float) : (x * PrimFloat.nan)%float = PrimFloat.nan.
Proof.
  apply Prim2SF_inj. rewrite FloatAxioms.mul_spec.
  change (Prim2SF PrimFloat.nan) with S754_nan. by destruct (Prim2SF x).
Qed.

Lemma float_sub_nan_r (x : float) : (x - PrimFloat.nan)%float = PrimFloat.nan.
Proof.
  apply Prim2SF_inj. rewrite FloatAxioms.sub_spec.
  change (Prim2SF PrimFloat.nan) with S754_nan. by destruct (Prim2SF x).
Qed.

Lemma float_add_nan_r (x : float) : (x + PrimFloat.nan)%float = PrimFloat.nan.
Proof.
  apply Prim2SF_inj. rewrite FloatAxioms.add_spec.
  change (Prim2SF PrimFloat.nan) with S754_nan. by destruct (Prim2SF x).
Qed.

Lemma float_opp_nan (x : float) : PrimFloat.is_nan x = true → PrimFloat.is_nan (- x) = true.
Proof. intros H. by rewrite (is_nan_eq x H). Qed.

(** Zeros in the arithmetic. *)
Lemma float_mul_zero_finite (a b : float) :
  PrimFloat.is_zero a = true → isFinite (VNum b) = true →
  PrimFloat.is_zero (a * b) = true.
Proof.
  intros Za Fb. destruct (is_zero_SF a Za) as [sa Ha].
  destruct (isFinite_SF b Fb) as [[sb Hb]|(sb & mb & eb & Hb)].
  - apply (SF_is_zero _ (xorb sa sb)). by rewrite FloatAxioms.mul_spec, Ha, Hb.
  - apply (SF_is_zero _ (xorb sa sb)). by rewrite FloatAxioms.mul_spec, Ha, Hb.
Qed.

Lemma float_sub_zeros (a b : float) :
  PrimFloat.is_zero a = true → PrimFloat.is_zero b = true →
  PrimFloat.is_zero (a - b) = true.
Proof.
  intros Za Zb. destruct (is_zero_SF a Za) as [sa Ha], (is_zero_SF b Zb) as [sb Hb].
  apply (SF_is_zero _ (if sa then (if sb then false else true) else false)).
  rewrite FloatAxioms.sub_spec, Ha, Hb. by destruct sa, sb.
Qed.

Lemma float_add_zeros (a b : float) :
  PrimFloat.is_zero a = true → PrimFloat.is_zero b = true →
  PrimFloat.is_zero (a + b) = true.
Proof.
  intros Za Zb. destruct (is_zero_SF a Za) as [sa Ha], (is_zero_SF b Zb) as [sb Hb].
  apply (SF_is_zero _ (sa && sb)).
  rewrite FloatAxioms.add_spec, Ha, Hb. by destruct sa, sb.
Qed.

Lemma float_sub_self (x : float) :
  isFinite (VNum x) = true → PrimFloat.is_zero (x - x) = true.
Proof.
  intros Fx. destruct (isFinite_SF x Fx) as [[sx Hx]|(sx & mx & ex & Hx)].
  - apply (SF_is_zero _ false). rewrite FloatAxioms.sub_spec, Hx. by destruct sx.
  - apply (SF_is_zero _ false). rewrite FloatAxioms.sub_spec, Hx.
    unfold SF64sub, SFsub. cbv zeta. by rewrite Z.sub_diag.
Qed.

Lemma float_opp_isFinite (x : float) :
  isFinite (VNum x) = true → isFinite (VNum (- x)) = true.
Proof.
  intros Fx. apply SF_isFinite. rewrite FloatAxioms.opp_spec.
  destruct (isFinite_SF x Fx) as [[sx ->]|(sx & mx & ex & ->)]; simpl; eauto.
Qed.

(** The cosine and the sine of a finite number are finite. *)
Lemma Math_cos_sin_isFinite (m : Trig) (x : float) :
  finite_trig m → isFinite (VNum x) = true →
  isFinite (VNum (Math_cos m x)) = true ∧ isFinite (VNum (Math_sin m x)) = true.
Proof.
  intros Hm Fx. unfold Math_cos, Math_sin.
  assert (Hx : PrimFloat.is_nan x || PrimFloat.is_infinity x = false).
  { simpl in Fx. by apply negb_true_iff in Fx. }
  rewrite Hx. destruct (PrimFloat.is_zero x); [by split|]. by apply Hm.
Qed.

Lemma Math_cos_sin_nan (m : Trig) (x : float) :
  PrimFloat.is_nan x = true →
  Math_cos m x = PrimFloat.nan ∧ Math_sin m x = PrimFloat.nan.
Proof. intros H. unfold Math_cos, Math_sin. by rewrite H. Qed.

(** The offset of a pose from itself: a pair of zeros when its heading is
    finite and its displacement from itself projects to zeros. *)
Lemma getPoseOffset_self (m : Trig)
    (project : GPS.Pose float → GPS.Pose float → float * float) (p : GPS.Pose float) :
  finite_trig m →
  isFinite (VNum (GPS.yaw p)) = true →
  PrimFloat.is_zero (project p p).1 = true →
  PrimFloat.is_zero (project p p).2 = true →
  PrimFloat.is_zero (GPS.getPoseOffset m project p p).1 = true
  ∧ PrimFloat.is_zero (GPS.getPoseOffset m project p p).2 = true.
Proof.
  intros Hm Fy Z1 Z2. unfold GPS.getPoseOffset. cbv zeta. simpl.
  destruct (Math_cos_sin_isFinite m _ Hm (float_opp_isFinite _ Fy)) as [Fc Fs].
  split.
  - apply float_sub_zeros; by apply float_mul_zero_finite.
  - apply float_add_zeros; by apply float_mul_zero_finite.
Qed.

Lemma planar_self (p : GPS.Pose float) :
  isFinite (VNum (GPS.latitude p)) = true →
  isFinite (VNum (GPS.longitude p)) = true →
  PrimFloat.is_zero (GPS.planar p p).1 = true
  ∧ PrimFloat.is_zero (GPS.planar p p).2 = true.
Proof. intros Flat Flon. unfold GPS.planar. simpl. split; by apply float_sub_self. Qed.

(** With a heading that is NaN, every offset is NaN in both coordinates. *)
Lemma getPoseOffset_nan_yaw (m : Trig)
    (project : GPS.Pose float → GPS.Pose float → float * float)
    (anchor p : GPS.Pose float) :
  PrimFloat.is_nan (GPS.yaw anchor) = true →
  GPS.getPoseOffset m project anchor p = (PrimFloat.nan, PrimFloat.nan).
Proof.
  intros Hy. unfold GPS.getPoseOffset. cbv zeta.
  destruct (Math_cos_sin_nan m _ (float_opp_nan _ Hy)) as [-> ->].
  by rewrite !float_mul_nan_r, float_sub_nan_r, float_add_nan_r.
Qed.

(** C7, as amended: an empty window gives the empty list of vertices and no
    error, whatever the offset function; a window of length 1 gives exactly
    one vertex, the anchor's offset from itself. That vertex is a pair of
    zeros when the anchor's heading is finite and its displacement from
    itself projects to zeros, as it does for finite coordinates under the
    coordinate differences; it is (NaN, NaN) when the heading is NaN. *)
Theorem _convertTrajectory_empty_and_single :
  (∀ (P V : Type) (off : P → P → V),
     GPS._convertTrajectory off [] = Returned [])
  ∧ (∀ (P V : Type) (off : P → P → V) (p : P),
       GPS._convertTrajectory off [p] = Returned [off p p])
  ∧ (∀ m project p,
       finite_trig m →
       isFinite (VNum (GPS.yaw p)) = true →
       PrimFloat.is_zero (project p p).1 = true →
       PrimFloat.is_zero (project p p).2 = true →
       ∃ v, GPS._convertTrajectory (GPS.getPoseOffset m project) [p] = Returned [v]
            ∧ PrimFloat.is_zero v.1 = true ∧ PrimFloat.is_zero v.2 = true)
  ∧ (∀ m p,
       finite_trig m →
       isFinite (VNum (GPS.yaw p)) = true →
       isFinite (VNum (GPS.latitude p)) = true →
       isFinite (VNum (GPS.longitude p)) = true →
       ∃ v, GPS._convertTrajectory (GPS.getPoseOffset m GPS.planar) [p] = Returned [v]
            ∧ PrimFloat.is_zero v.1 = true ∧ PrimFloat.is_zero v.2 = true)
  ∧ (∀ m project p,
       PrimFloat.is_nan (GPS.yaw p) = true →
       GPS._convertTrajectory (GPS.getPoseOffset m project) [p]
       = Returned [(PrimFloat.nan, PrimFloat.nan)]).
Proof.
  split; [reflexivity|]. split; [reflexivity|]. split; [|split].
  - intros m project p Hm Fy Z1 Z2. eexists. split; [reflexivity|].
    by apply getPoseOffset_self.
  - intros m p Hm Fy Flat Flon. eexists. split; [reflexivity|].
    destruct (planar_self p Flat Flon) as [Z1 Z2]. by apply getPoseOffset_self.
  - intros m project p Hy. rewrite _convertTrajectory_cons. simpl.
    by rewrite (getPoseOffset_nan_yaw m project p p Hy).
Qed.

(** C8, as amended: for a non-empty window the anchor is the first pose and
    every vertex is the offset of its pose from the anchor, the first
    vertex being the anchor's offset from itself. That vertex is a pair of
    zeros when the anchor's heading is finite and its displacement from
    itself projects to zeros, as it does for finite coordinates under the
    coordinate differences; it is (NaN, NaN) when the heading is NaN. *)
Theorem _convertTrajectory_first_vertex_zero (m : Trig)
    (project : GPS.Pose float → GPS.Pose float → float * float)
    (motions : list (GPS.Pose float)) :
  motions ≠ [] →
  ∃ anchor vertices,
    head motions = Some anchor
    ∧ GPS._convertTrajectory (GPS.getPoseOffset m project) motions = Returned vertices
    ∧ vertices = map (GPS.getPoseOffset m project anchor) motions
    ∧ length vertices = length motions
    ∧ vertices !! 0%nat = Some (GPS.getPoseOffset m project anchor anchor)
    ∧ (finite_trig m →
       isFinite (VNum (GPS.yaw anchor)) = true →
       PrimFloat.is_zero (project anchor anchor).1 = true →
       PrimFloat.is_zero (project anchor anchor).2 = true →
       PrimFloat.is_zero (GPS.getPoseOffset m project anchor anchor).1 = true
       ∧ PrimFloat.is_zero (GPS.getPoseOffset m project anchor anchor).2 = true)
    ∧ (project = GPS.planar →
       finite_trig m →
       isFinite (VNum (GPS.yaw anchor)) = true →
       isFinite (VNum (GPS.latitude anchor)) = true →
       isFinite (VNum (GPS.longitude anchor)) = true →
       PrimFloat.is_zero (GPS.getPoseOffset m project anchor anchor).1 = true
       ∧ PrimFloat.is_zero (GPS.getPoseOffset m project anchor anchor).2 = true)
    ∧ (PrimFloat.is_nan (GPS.yaw anchor) = true →
       GPS.getPoseOffset m project anchor anchor = (PrimFloat.nan, PrimFloat.nan)).
Proof.
  intros Hne. destruct motions as [|first rest]; [done|].
  exists first, (map (GPS.getPoseOffset m project first) (first :: rest)).
  split; [done|]. split; [done|]. split; [done|].
  split; [by rewrite length_map|]. split; [done|].
  split; [apply getPoseOffset_self|]. split; [|apply getPoseOffset_nan_yaw].
  intros -> Hm Fy Flat Flon. destruct (planar_self first Flat Flon) as [Z1 Z2].
  by apply getPoseOffset_self.
Qed.

End Trajectory.

Lemma trig_is_finite : finite_trig Demo.trig.
Proof. intros x Fx. by split. Qed.

(** C7, as stated, fails: the empty window is converted, to no vertices;
    and the single vertex of the pose decoded from a record without [yaw]
    is not (0,0). *)
Lemma _convertTrajectory_empty_returns :
  GPS._convertTrajectory (GPS.getPoseOffset Demo.trig GPS.planar) [] = Returned []
  ∧ ¬ throws (GPS._convertTrajectory (GPS.getPoseOffset Demo.trig GPS.planar) [])
  ∧ ∃ e, GPS._convertPoseEntry Demo.host5 Demo.oxts_without_yaw (VNum 0) = Returned e
      ∧ GPS._convertTrajectory (GPS.getPoseOffset Demo.trig GPS.planar) [GPS.pose e]
        = Returned [(PrimFloat.nan, PrimFloat.nan)].
Proof.
  split; [reflexivity|]. split; [intros [e He]; discriminate|].
  eexists. split; [reflexivity|]. vm_compute. reflexivity.
Qed.

Lemma _convertTrajectory_empty_and_single_witness :
  ∃ v, GPS._convertTrajectory (GPS.getPoseOffset Demo.trig GPS.planar)
         [Demo.pose_at 0 10 10] = Returned [v]
       ∧ PrimFloat.is_zero v.1 = true ∧ PrimFloat.is_zero v.2 = true.
Proof.
  apply (proj1 (proj2 (proj2 (proj2 _convertTrajectory_empty_and_single)))
           Demo.trig (Demo.pose_at 0 10 10) trig_is_finite); reflexivity.
Defined.

(** C8, as stated, fails: the pose decoded from a record without [yaw] has
    a heading of NaN, and the first vertex of a window anchored at it is
    (NaN, NaN), which is not (0,0). *)
Lemma _convertTrajectory_nan_yaw_first_vertex :
  ∃ e vertices,
    GPS._convertPoseEntry Demo.host5 Demo.oxts_without_yaw (VNum 0) = Returned e
    ∧ GPS._convertTrajectory (GPS.getPoseOffset Demo.trig GPS.planar)
        [GPS.pose e; Demo.pose_at 100 49 8] = Returned vertices
    ∧ vertices !! 0%nat = Some (PrimFloat.nan, PrimFloat.nan)
    ∧ PrimFloat.eqb PrimFloat.nan 0 = false.
Proof.
  eexists. eexists. split; [reflexivity|].
  split; [vm_compute; reflexivity|]. split; reflexivity.
Qed.

Lemma _convertTrajectory_first_vertex_zero_witness :
  ∃ vertices first,
    GPS._convertTrajectory (GPS.getPoseOffset Demo.trig GPS.planar) Demo.three_poses
    = Returned vertices
    ∧ vertices !! 0%nat = Some first
    ∧ PrimFloat.is_zero first.1 = true ∧ PrimFloat.is_zero first.2 = true.
Proof.
  destruct (_convertTrajectory_first_vertex_zero Demo.trig GPS.planar Demo.three_poses)
    as (anchor & vertices & Hhead & Hconv & _ & _ & Hfirst & _ & Hplanar & _);
    [discriminate|].
  injection Hhead as <-.
  exists vertices, (GPS.getPoseOffset Demo.trig GPS.planar (Demo.pose_at 0 0 0)
                      (Demo.pose_at 0 0 0)).
  split; [exact Hconv|]. split; [exact Hfirst|].
  apply (Hplanar eq_refl trig_is_finite); reflexivity.
Defined.

(** The end-to-end scenario of the spec under the coordinate differences:
    vertices (0,0), (10,0), (10,10). *)
Lemma three_poses_trajectory :
  GPS._convertTrajectory (GPS.getPoseOffset Demo.trig GPS.planar) Demo.three_poses
  = Returned [(0, 0)%float; (10, 0)%float; (10, 10)%float].
Proof. vm_compute. reflexivity. Qed.

(** ** Reads of [getCurrentFrame] through its cache *)

Section Memo.

Variable host : Host.

Lemma read_unfold {I A : Type} `{Identical I} (s : Selector I (outcome A * World))
    (cache : Cache I A) (w : World) :
  read s cache w =
    match answers cache (input_selectors s w) with
    | Some a => (Returned a, cache, w)
    | None =>
        match s w with
        | (Returned a, w') => (Returned a, Some (input_selectors s w, a), w')
        | (Thrown e, w') => (Thrown e, cache, w')
        end
    end.
Proof. by destruct s. Qed.

(** A read leaves a cache that holds what a recomputation returned. *)
Lemma read_computed {I A : Type} `{Identical I} (s : Selector I (outcome A * World))
    (cache : Cache I A) (w : World) :
  computed s cache → computed s (read s cache w).1.2.
Proof.
  intros Hc. unfold read.
  destruct (answers cache (input_selectors s w)); [done|].
  destruct (recompute s (input_selectors s w) w) as [[a|e] w'] eqn:Hr; [|done].
  simpl. exists w. by rewrite Hr.
Qed.

Lemma zero_isFinite (x : float) : PrimFloat.is_zero x = true → isFinite (VNum x) = true.
Proof.
  intros Hz. destruct (is_zero_SF x Hz) as [sx Hx]. simpl.
  rewrite (SF_is_nan x) by (by rewrite Hx).
  rewrite (SF_is_infinity x); [done|]. intros sy. by rewrite Hx.
Qed.

(** Strictly equal values pass the same tests. *)
Lemma strict_eq_tests (a b : value) :
  strict_eq a b = true → truthy a = truthy b ∧ isFinite a = isFinite b.
Proof.
  intros H. destruct (strict_eq_true a b H) as [->|(x & y & -> & -> & Zx & Zy)]; [done|].
  split.
  - simpl. by rewrite Zx, Zy.
  - by rewrite !zero_isFinite.
Qed.

Lemma strict_eq_truthy (a b : value) :
  strict_eq a b = true → truthy b = true → a = b.
Proof.
  intros H Hb. destruct (strict_eq_true a b H) as [->|(x & y & -> & -> & Zx & Zy)]; [done|].
  simpl in Hb. by rewrite Zy in Hb.
Qed.

(** The recompute function of [getCurrentFrame] on inputs that fail its
    test, and on inputs that pass it. *)
Lemma getCurrentFrame_recompute_null (ls md ts : value) (w0 : World) :
  truthy ls && truthy md && isFinite ts = false →
  recompute getCurrentFrame (ls, md, ts) w0 = (Returned VNull, w0).
Proof. intros H. unfold getCurrentFrame. simpl. by rewrite H. Qed.

Lemma getCurrentFrame_recompute_delegated (r : ref) (md : value) (t : float)
    (w0 : World) (a : value) :
  truthy md = true →
  isFinite (VNum t) = true →
  (recompute getCurrentFrame (VObj r, md, VNum t) w0).1 = Returned a →
  ∃ s0, heap w0 !! r = Some (OSynchronizer s0)
        ∧ a = (sync_getCurrentFrame s0 (metadata_streams (heap w0) md)
                 (sync_setTime s0 t (sync_current s0))).1.
Proof.
  intros Hm Ht. unfold getCurrentFrame. cbn [recompute]. rewrite Hm, Ht.
  cbn [truthy andb].
  destruct (heap w0 !! r) as [[| |s0|]|]; try discriminate.
  destruct (sync_getCurrentFrame s0 _ _) as [frame s2] eqn:Hf. simpl.
  intros [= <-]. exists s0. by rewrite Hf.
Qed.

Lemma answers_identical (cache : Cache (value * value * value) value)
    (ls md ts a : value) :
  answers cache (ls, md, ts) = Some a →
  ∃ ls0 md0 ts0,
    cache = Some ((ls0, md0, ts0), a)
    ∧ strict_eq ls0 ls = true ∧ strict_eq md0 md = true ∧ strict_eq ts0 ts = true.
Proof.
  destruct cache as [[[[ls0 md0] ts0] a0]|]; [|done]. unfold answers.
  destruct (identical (ls0, md0, ts0) (ls, md, ts)) eqn:Hi; [|done].
  intros [= ->]. exists ls0, md0, ts0. split; [done|].
  unfold identical, identical_pair, identical_value in Hi. simpl in Hi.
  apply andb_prop in Hi as [Hi Hts]. apply andb_prop in Hi as [Hls Hmd]. done.
Qed.

(** A read of [getCurrentFrame] that finds its test failing returns
    [null] and leaves the world alone, from the cache or not. *)
Lemma read_getCurrentFrame_null (cache : Cache (value * value * value) value)
    (w : World) :
  computed getCurrentFrame cache →
  truthy (getLogSynchronizer w) && truthy (getMetadata w)
    && isFinite (getCurrentTime w) = false →
  ∃ cache', read getCurrentFrame cache w = (Returned VNull, cache', w).
Proof.
  intros Hc Hg. rewrite read_unfold.
  change (input_selectors getCurrentFrame w)
    with (getLogSynchronizer w, getMetadata w, getCurrentTime w).
  destruct (answers cache _) as [a|] eqn:Ha.
  - destruct (answers_identical _ _ _ _ _ Ha) as (ls0 & md0 & ts0 & -> & Hls & Hmd & Hts).
    destruct Hc as [w0 Hw0].
    destruct (strict_eq_tests _ _ Hls) as [Tls _],
             (strict_eq_tests _ _ Hmd) as [Tmd _],
             (strict_eq_tests _ _ Hts) as [_ Fts].
    rewrite getCurrentFrame_recompute_null in Hw0 by (by rewrite Tls, Tmd, Fts).
    injection Hw0 as <-. by eexists.
  - rewrite (getCurrentFrame_guard_false w Hg). by eexists.
Qed.

(** C3, as amended. A read of [getCurrentFrame()] returns [null] unless the
    synchronizer, the metadata and the timestamp are all there and the
    timestamp is a finite number. When a synchronizer object and metadata
    are stored and the timestamp is finite, a read that the cache does not
    answer calls [setTime(timestamp)] and then
    [getCurrentFrame(metadata.streams)] on the synchronizer, returns what
    that call returns and caches it; a read whose three inputs are strictly
    equal to the cached ones returns the cached result and calls nothing:
    that result is what the synchronizer stored under the same reference
    returned when the selector last recomputed, for an equal timestamp. *)
Theorem getCurrentFrame_null_or_delegated
    (cache : Cache (value * value * value) value) (w : World) :
  computed getCurrentFrame cache →
  computed getCurrentFrame (read getCurrentFrame cache w).1.2
  ∧ (truthy (getLogSynchronizer w) && truthy (getMetadata w)
       && isFinite (getCurrentTime w) = false →
     ∃ cache', read getCurrentFrame cache w = (Returned VNull, cache', w))
  ∧ (getLogSynchronizer w = VUndefined ∨ getMetadata w = VUndefined
     ∨ getCurrentTime w = VUndefined ∨ isFinite (getCurrentTime w) = false →
     ∃ cache', read getCurrentFrame cache w = (Returned VNull, cache', w))
  ∧ (∀ r s m t,
       getLogSynchronizer w = VObj r →
       heap w !! r = Some (OSynchronizer s) →
       as_metadata (heap w) (getMetadata w) = Some m →
       getCurrentTime w = VNum t →
       isFinite (VNum t) = true →
       (answers cache (VObj r, getMetadata w, VNum t) = None →
        read getCurrentFrame cache w =
          (Returned (sync_getCurrentFrame s (streams m)
                       (sync_setTime s t (sync_current s))).1,
           Some ((VObj r, getMetadata w, VNum t),
                 (sync_getCurrentFrame s (streams m)
                    (sync_setTime s t (sync_current s))).1),
           {| this := this w;
              heap := <[r := OSynchronizer
                               (moved_to s (sync_getCurrentFrame s (streams m)
                                              (sync_setTime s t (sync_current s))).2)]>
                        (heap w);
              calls := calls w |}))
       ∧ (∀ a, answers cache (VObj r, getMetadata w, VNum t) = Some a →
            read getCurrentFrame cache w = (Returned a, cache, w)
            ∧ ∃ w0 s0 t0,
                heap w0 !! r = Some (OSynchronizer s0)
                ∧ PrimFloat.eqb t0 t = true
                ∧ a = (sync_getCurrentFrame s0
                         (metadata_streams (heap w0) (getMetadata w))
                         (sync_setTime s0 t0 (sync_current s0))).1)).
Proof.
  intros Hc. split; [by apply read_computed|].
  split; [by apply read_getCurrentFrame_null|]. split.
  - intros H. apply read_getCurrentFrame_null; [done|].
    destruct H as [-> | [-> | [-> | ->]]]; simpl;
      rewrite ?andb_false_r; reflexivity.
  - intros r s m t Hs Hh Hm Ht Hf.
    pose proof (as_metadata_truthy _ _ _ Hm) as Hmd.
    assert (Hin : input_selectors getCurrentFrame w = (VObj r, getMetadata w, VNum t)).
    { change (input_selectors getCurrentFrame w)
        with (getLogSynchronizer w, getMetadata w, getCurrentTime w).
      by rewrite Hs, Ht. }
    split.
    + intros Hmiss. rewrite read_unfold, Hin, Hmiss.
      rewrite (getCurrentFrame_delegates w r s t Hs Hh Hmd Ht Hf).
      unfold metadata_streams. by rewrite Hm.
    + intros a Hhit. split; [by rewrite read_unfold, Hin, Hhit|].
      destruct (answers_identical _ _ _ _ _ Hhit)
        as (ls0 & md0 & ts0 & -> & Hls & Hmd0 & Hts).
      destruct Hc as [w0 Hw0].
      assert (ls0 = VObj r) as -> by (by apply strict_eq_truthy).
      assert (md0 = getMetadata w) as -> by (by apply strict_eq_truthy).
      destruct ts0 as [| | |t0| |]; try discriminate.
      destruct (strict_eq_tests _ _ Hts) as [_ Ft0].
      destruct (getCurrentFrame_recompute_delegated r (getMetadata w) t0 w0 a Hmd
                  (eq_trans Ft0 Hf) Hw0) as (s0 & Hs0 & Ha).
      by exists w0, s0, t0.
Qed.

(** With a synchronizer and a metadata object whose bounds are finite and
    in order, after [seek(t)] of a number the cursor is a time within the
    bounds, and a read of [getCurrentFrame()] that the cache does not
    answer sets the synchronizer to that time and returns what the
    synchronizer returns; a read that the cache answers returns the cached
    result and leaves the synchronizer alone. *)
Theorem getCurrentFrame_after_seek_is_served_within_log
    (t : value) (w : World) (r : ref) (s : LogSynchronizer) (m : Metadata)
    (cache : Cache (value * value * value) value) :
  getLogSynchronizer w = VObj r →
  heap w !! r = Some (OSynchronizer s) →
  as_metadata (heap w) (getMetadata w) = Some m →
  isFinite (VNum (start_time m + TIME_WINDOW (getXvizSettings host))%float) = true →
  isFinite (VNum (end_time m)) = true →
  PrimFloat.leb (start_time m + TIME_WINDOW (getXvizSettings host))%float
                (end_time m) = true →
  PrimFloat.is_nan (ToNumber (StringToNumber host) t) = false →
  ∃ c, PrimFloat.leb (start_time m + TIME_WINDOW (getXvizSettings host))%float c = true
       ∧ PrimFloat.leb c (end_time m) = true
       ∧ getCurrentTime (seek host t w) = VNum c
       ∧ (answers cache (VObj r, getMetadata w, VNum c) = None →
          (read getCurrentFrame cache (seek host t w)).1.1
          = Returned (sync_getCurrentFrame s (streams m)
                        (sync_setTime s c (sync_current s))).1)
       ∧ (∀ a, answers cache (VObj r, getMetadata w, VNum c) = Some a →
            read getCurrentFrame cache (seek host t w)
            = (Returned a, cache, seek host t w)).
Proof.
  intros Hs Hr Hm Flo Fhi Hle Ht.
  destruct (getCurrentFrame_after_seek host t w r s m Hs Hr Hm Flo Fhi Hle Ht)
    as (c & Hl & Hu & Hc & Hframe).
  exists c. split; [done|]. split; [done|]. split; [done|].
  destruct (seek_touches_frame host t w) as (Hk & _ & _).
  assert (Hin : input_selectors getCurrentFrame (seek host t w)
                = (VObj r, getMetadata w, VNum c)).
  { change (input_selectors getCurrentFrame (seek host t w))
      with (getLogSynchronizer (seek host t w), getMetadata (seek host t w),
            getCurrentTime (seek host t w)).
    rewrite Hc. unfold getLogSynchronizer, getMetadata. rewrite !Hk by done.
    by rewrite <- Hs. }
  split.
  - intros Hmiss. rewrite read_unfold, Hin, Hmiss.
    destruct (getCurrentFrame (seek host t w)) as [[a|e] w'];
      simpl in *; [done|discriminate].
  - intros a Hhit. by rewrite read_unfold, Hin, Hhit.
Qed.

End Memo.

(** C3, as stated, fails on a second read: the first read asks the
    synchronizer and returns its frame, 1; the second read, with the store
    unchanged, returns the cached 1 and does not call the synchronizer,
    which would have produced 2. *)
Lemma getCurrentFrame_second_read_is_cached :
  ∃ cache1 w1,
    read getCurrentFrame None Demo.counting_world = (Returned (VNum 1), cache1, w1)
    ∧ read getCurrentFrame cache1 w1 = (Returned (VNum 1), cache1, w1)
    ∧ (getCurrentFrame w1).1 = Returned (VNum 2).
Proof.
  eexists. eexists. split; [vm_compute; reflexivity|].
  split; vm_compute; reflexivity.
Qed.

Lemma getCurrentFrame_null_or_delegated_witness :
  ∃ w',
    read getCurrentFrame None Demo.synchronized_world
    = (Returned (VObj 10), Some ((VObj 2, VObj 1, VNum 105), VObj 10), w').
Proof.
  destruct (getCurrentFrame_null_or_delegated None Demo.synchronized_world I)
    as (_ & _ & _ & H).
  destruct (H 2%nat Demo.two_frame_synchronizer Demo.metadata_100_200 105%float
              eq_refl eq_refl eq_refl eq_refl eq_refl) as [Hmiss _].
  eexists. rewrite (Hmiss eq_refl). reflexivity.
Defined.

Lemma getCurrentFrame_after_seek_is_served_within_log_witness :
  ∃ c, PrimFloat.leb 105 c = true
       ∧ PrimFloat.leb c 200 = true
       ∧ getCurrentTime (seek Demo.host5 (VNum 50) Demo.synchronizer_world) = VNum c
       ∧ (read getCurrentFrame None (seek Demo.host5 (VNum 50) Demo.synchronizer_world)).1.1
         = Returned (if PrimFloat.ltb c 150 then VObj 10 else VObj 11).
Proof.
  destruct (getCurrentFrame_after_seek_is_served_within_log Demo.host5 (VNum 50)
              Demo.synchronizer_world 2%nat Demo.two_frame_synchronizer
              Demo.metadata_100_200 None eq_refl eq_refl eq_refl eq_refl eq_refl
              eq_refl eq_refl) as (c & Hl & Hu & Hc & Hmiss & _).
  exists c. split; [exact Hl|]. split; [exact Hu|]. split; [exact Hc|].
  exact (Hmiss eq_refl).
Defined.

(** ** Further properties of the selectors *)

Section SelectorsMore.

Variable host : Host.

Lemma map_pose_time_no_hole (poses : list entry) :
  forallb (λ e, negb (is_hole e)) poses = true →
  ∃ ts, map_pose_time poses = Returned ts
        ∧ length ts = length poses
        ∧ ∀ i t, poses !! i = Some (EPose t) → ts !! i = Some t.
Proof.
  induction poses as [|pose rest IH]; simpl; intros Hall.
  - exists []. repeat split. intros i t Hi. by rewrite lookup_nil in Hi.
  - apply andb_prop in Hall as [Hpose Hrest].
    destruct (IH Hrest) as (ts & -> & Hlen & Hts).
    assert (Hp : ∃ t, pose_time pose = Returned t
                      ∧ ∀ t', pose = EPose t' → t = t').
    { destruct pose as [t|imgs|[| | | | |]]; simpl in *; try discriminate;
        eexists; split; try reflexivity; congruence. }
    destruct Hp as (t & -> & Ht). exists (t :: ts). split; [done|].
    split; [simpl; by rewrite Hlen|].
    intros [|i] t' Hi; simpl in *.
    + injection Hi as ->. by rewrite (Ht t' eq_refl).
    + by apply Hts.
Qed.

Lemma map_pose_time_hole (poses : list entry) :
  existsb is_hole poses = true → map_pose_time poses = Thrown TypeError.
Proof.
  induction poses as [|pose rest IH]; simpl; [discriminate|].
  intros Hex. apply orb_prop in Hex as [Hpose|Hrest].
  - by destruct pose as [t|imgs|[| | | | |]].
  - rewrite (IH Hrest).
    by destruct pose as [t|imgs|[| | | | |]].
Qed.

(** [getTimestamps()] is [null] without a [vehicle-pose] stream; with one,
    it returns one time per pose, in order, unless an entry of the stream is
    [undefined] or [null], which makes the read a TypeError. *)
Theorem getTimestamps_one_time_per_pose (w : World) :
  (truthy (getStreams w) = false
   ∨ stream_of (heap w) (getStreams w) "vehicle-pose" = None →
   getTimestamps w = Returned None)
  ∧ ∀ poses,
      truthy (getStreams w) = true →
      stream_of (heap w) (getStreams w) "vehicle-pose" = Some poses →
      (forallb (λ e, negb (is_hole e)) poses = true →
       ∃ ts, getTimestamps w = Returned (Some ts)
             ∧ length ts = length poses
             ∧ ∀ i t, poses !! i = Some (EPose t) → ts !! i = Some t)
      ∧ (existsb is_hole poses = true → getTimestamps w = Thrown TypeError).
Proof.
  unfold getTimestamps, recomputed. split.
  - intros [->| ->]; [done|]. by destruct (truthy (getStreams w)).
  - intros poses -> ->. split.
    + intros Hall. destruct (map_pose_time_no_hole poses Hall) as (ts & -> & Hlen & Hts).
      by exists ts.
    + intros Hex. by rewrite (map_pose_time_hole poses Hex).
Qed.

(** [getImageStreamNames()] returns exactly the declared stream names whose
    type is ['image'], in the order in which [Object.keys] lists the
    declared streams; without metadata, or with metadata that has no
    [streams], the result is falsy. *)
Theorem getImageStreamNames_are_the_image_streams (w : World) :
  (truthy (getMetadata w) = false
   ∨ metadata_streams (heap w) (getMetadata w) = None →
   getImageStreamNames w = None)
  ∧ ∀ m decls,
      as_metadata (heap w) (getMetadata w) = Some m →
      streams m = Some decls →
      ∃ names,
        getImageStreamNames w = Some names
        ∧ (∀ name, name ∈ names
                   ↔ ∃ d, (name, d) ∈ decls ∧ type d = Some "image")
        ∧ names `sublist_of` map fst decls.
Proof.
  unfold getImageStreamNames, recomputed. split.
  - intros [->| ->]; [done|]. by destruct (truthy (getMetadata w)).
  - intros m decls Hm Hdecls.
    rewrite (as_metadata_truthy _ _ _ Hm). unfold metadata_streams. rewrite Hm, Hdecls.
    eexists. split; [reflexivity|]. split.
    + intros name. rewrite list_elem_of_fmap. split.
      * intros ([name' d] & -> & Hin). apply list_elem_of_filter in Hin as [Himg Hin].
        exists d. split; [done|]. unfold is_image in Himg. simpl in *.
        destruct (type d) as [t|]; [|discriminate].
        apply String.eqb_eq in Himg. by subst.
      * intros (d & Hin & Ht). exists (name, d). split; [done|].
        apply list_elem_of_filter. split; [|done]. unfold is_image. simpl.
        by rewrite Ht.
    + change (map fst) with (fmap (M:=list) (@fst string StreamDecl)).
      apply fmap_sublist, sublist_filter.
Qed.

Lemma align_streams_no_timestamps streams names name frame rest : ∀ frames h,
  name ∈ names →
  stream_of h streams name = Some (frame :: rest) →
  throws (align_streams host streams None names frames h).1.
Proof.
  induction names as [|first others IH]; intros frames h Hin Hstream.
  - by apply elem_of_nil in Hin.
  - simpl. destruct (stream_of h streams first) as [stream|] eqn:Hfirst;
      [|by exists TypeError].
    destruct stream as [|frame' rest'].
    + simpl. apply IH; [|done].
      apply elem_of_cons in Hin as [->|?]; [congruence|done].
    + simpl. by exists TypeError.
Qed.

(** Without a [vehicle-pose] stream there are no timestamps, and
    [getImageFrames()] ends in an exception as soon as a declared image
    stream has an entry: the timestamps are indexed before the entry is
    looked at. *)
Theorem getImageFrames_throws_without_vehicle_poses (w : World)
    (names : list string) (name : string) (frame : entry) (rest : list entry) :
  getImageStreamNames w = Some names →
  truthy (getStreams w) = true →
  stream_of (heap w) (getStreams w) "vehicle-pose" = None →
  name ∈ names →
  stream_of (heap w) (getStreams w) name = Some (frame :: rest) →
  throws (getImageFrames host w).1.
Proof.
  intros Hnames Hstreams Hposes Hin Hstream.
  unfold getImageFrames; recompute_selector.
  replace (getTimestamps w) with (@Returned (option (list value)) None).
  2:{ unfold getTimestamps, recomputed. by rewrite Hstreams, Hposes. }
  rewrite Hstreams, Hnames.
  destruct (align_streams_no_timestamps (getStreams w) names name frame rest ∅ (heap w)
              Hin Hstream) as [e He].
  destruct (align_streams host (getStreams w) None names ∅ (heap w)) as [[frames|e'] h];
    simpl in *; [discriminate|by exists e'].
Qed.

(** *** Reading the image frames twice *)

Lemma align_frame_outcome ts frame i (h h' : gmap ref obj) :
  (align_frame host ts frame i h).1 = (align_frame host ts frame i h').1.
Proof.
  unfold align_frame. destruct ts as [ts|]; [|done].
  destruct (first_image frame) as [image|e]; [|done]. by destruct (truthy image).
Qed.

Lemma align_frames_outcome ts frames : ∀ i (h h' : gmap ref obj),
  (align_frames host ts frames i h).1 = (align_frames host ts frames i h').1.
Proof.
  induction frames as [|frame rest IH]; intros i h h'; [done|]. simpl.
  pose proof (align_frame_outcome ts frame i h h') as H1.
  destruct (align_frame host ts frame i h) as [[image|e] h1],
           (align_frame host ts frame i h') as [[image'|e'] h1'];
    simpl in H1; try discriminate; [|simpl; congruence].
  injection H1 as <-.
  pose proof (IH (S i) h1 h1') as H2.
  destruct (align_frames host ts rest (S i) h1) as [[images|e] h2],
           (align_frames host ts rest (S i) h1') as [[images'|e'] h2'];
    simpl in *; congruence.
Qed.

Lemma align_frame_writes ts frame i h :
  (align_frame host (Some ts) frame i h).2
  = match first_image frame with
    | Returned image => foldl write_timestamp h (frame_writes host ts image i)
    | Thrown _ => h
    end.
Proof.
  unfold align_frame. destruct (first_image frame) as [image|e]; [|done].
  destruct image as [| |b|x|str|r]; simpl; try done.
  - by destruct b.
  - by destruct (negb _).
  - by destruct (negb _).
Qed.

Lemma align_frames_writes ts frames : ∀ i h,
  (align_frames host ts frames i h).2 = foldl write_timestamp h (frames_writes host ts frames i).
Proof.
  induction frames as [|frame rest IH]; intros i h; [done|]. simpl.
  destruct ts as [ts|]; [|done].
  pose proof (align_frame_writes ts frame i h) as H1.
  assert (H0 : ∀ e, first_image frame = Thrown e →
                    (align_frame host (Some ts) frame i h).1 = Thrown e).
  { intros e He. unfold align_frame. by rewrite He. }
  assert (H0' : ∀ image, first_image frame = Returned image →
                    (align_frame host (Some ts) frame i h).1 = Returned image).
  { intros image He. unfold align_frame. rewrite He. by destruct (truthy image). }
  destruct (first_image frame) as [image|e].
  - specialize (H0' image eq_refl).
    destruct (align_frame host (Some ts) frame i h) as [[image'|e'] h1];
      simpl in *; [|discriminate].
    subst h1. rewrite foldl_app. specialize (IH (S i) (foldl write_timestamp h
      (frame_writes host ts image i))).
    by destruct (align_frames host (Some ts) rest (S i) _) as [[images|e] h2].
  - specialize (H0 e eq_refl).
    destruct (align_frame host (Some ts) frame i h) as [[image'|e'] h1];
      simpl in *; [discriminate|done].
Qed.

Lemma write_timestamp_as_streams h wr streams :
  as_streams (write_timestamp h wr) streams = as_streams h streams.
Proof.
  unfold write_timestamp, assign_timestamp, as_streams.
  destruct streams as [| | | | |r]; try done.
  destruct (h !! wr.1) as [[| | |props]|] eqn:Hw; try done.
  destruct (decide (wr.1 = r)) as [<-|Hne].
  - by rewrite lookup_insert_eq, Hw.
  - by rewrite lookup_insert_ne.
Qed.

Lemma write_timestamp_as_metadata h wr metadata :
  as_metadata (write_timestamp h wr) metadata = as_metadata h metadata.
Proof.
  unfold write_timestamp, assign_timestamp, as_metadata.
  destruct metadata as [| | | | |r]; try done.
  destruct (h !! wr.1) as [[| | |props]|] eqn:Hw; try done.
  destruct (decide (wr.1 = r)) as [<-|Hne].
  - by rewrite lookup_insert_eq, Hw.
  - by rewrite lookup_insert_ne.
Qed.

Lemma writes_as_streams ws : ∀ h streams,
  as_streams (foldl write_timestamp h ws) streams = as_streams h streams.
Proof.
  induction ws as [|wr ws IH]; intros h streams; [done|]. simpl.
  by rewrite IH, write_timestamp_as_streams.
Qed.

Lemma writes_as_metadata ws : ∀ h metadata,
  as_metadata (foldl write_timestamp h ws) metadata = as_metadata h metadata.
Proof.
  induction ws as [|wr ws IH]; intros h metadata; [done|]. simpl.
  by rewrite IH, write_timestamp_as_metadata.
Qed.

(** A run of the loop over the image streams makes the writes of
    [streams_writes], and its outcome does not depend on the image
    objects. *)
Lemma align_streams_writes streams ts names : ∀ frames h,
  (align_streams host streams ts names frames h).2
  = foldl write_timestamp h (streams_writes host (as_streams h streams) ts names).
Proof.
  induction names as [|name rest IH]; intros frames h; [done|]. simpl.
  unfold stream_of. destruct (as_streams h streams) as [tbl|] eqn:Htbl; simpl; [|done].
  destruct (tbl !! name) as [stream|]; [|done].
  pose proof (align_frames_writes ts stream 0 h) as H1.
  pose proof (align_frames_outcome ts stream 0 h ∅) as H2.
  destruct (align_frames host ts stream 0 h) as [[images|e] h1]; simpl in *;
    rewrite <- H2, foldl_app, <- H1.
  - rewrite IH. f_equal. f_equal. subst h1. by rewrite writes_as_streams.
  - done.
Qed.

Lemma align_streams_outcome streams ts names : ∀ frames h h',
  as_streams h' streams = as_streams h streams →
  (align_streams host streams ts names frames h').1
  = (align_streams host streams ts names frames h).1.
Proof.
  induction names as [|name rest IH]; intros frames h h' Hsame; [done|]. simpl.
  unfold stream_of. rewrite Hsame.
  destruct (as_streams h streams) as [tbl|] eqn:Htbl; [|done].
  destruct (tbl !! name) as [stream|]; [|done].
  pose proof (align_frames_outcome ts stream 0 h' h) as H1.
  pose proof (align_frames_writes ts stream 0 h) as H2.
  pose proof (align_frames_writes ts stream 0 h') as H2'.
  destruct (align_frames host ts stream 0 h') as [[images'|e'] h1'],
           (align_frames host ts stream 0 h) as [[images|e] h1];
    simpl in *; try discriminate; [|congruence].
  injection H1 as ->. apply IH. subst. rewrite !writes_as_streams. congruence.
Qed.

Lemma stamp_other_keys ws r : ∀ props k,
  k ≠ "timestamp" → stamp ws r props !! k = props !! k.
Proof.
  unfold stamp. induction ws as [|wr ws IH]; intros props k Hk; [done|]. simpl.
  rewrite IH by done. destruct (decide (wr.1 = r)); [|done].
  by rewrite lookup_insert_ne.
Qed.

Lemma stamp_not_written ws r : ∀ props,
  r ∉ map fst ws → stamp ws r props = props.
Proof.
  unfold stamp. induction ws as [|wr ws IH]; intros props Hr; [done|]. simpl in *.
  apply not_elem_of_cons in Hr as [Hne Hr].
  rewrite decide_False by done. by apply IH.
Qed.

Lemma stamp_written ws r : ∀ props props',
  r ∈ map fst ws →
  (∀ k, k ≠ "timestamp" → props !! k = props' !! k) →
  stamp ws r props = stamp ws r props'.
Proof.
  unfold stamp. induction ws as [|wr ws IH]; intros props props' Hr Hsame.
  - by apply elem_of_nil in Hr.
  - simpl in *. destruct (decide (wr.1 = r)) as [Heq|Hne].
    + f_equal. apply map_eq. intros k.
      destruct (decide (k = "timestamp")) as [->|Hk].
      * by rewrite !lookup_insert_eq.
      * rewrite !lookup_insert_ne by done. by apply Hsame.
    + apply IH; [|done]. apply elem_of_cons in Hr as [?|?]; [congruence|done].
Qed.

Lemma stamp_twice ws r props : stamp ws r (stamp ws r props) = stamp ws r props.
Proof.
  destruct (decide (r ∈ map fst ws)) as [Hr|Hr].
  - apply stamp_written; [done|]. intros k Hk. by apply stamp_other_keys.
  - by rewrite !stamp_not_written.
Qed.

Lemma lookup_writes ws : ∀ h r,
  foldl write_timestamp h ws !! r
  = match h !! r with
    | Some (OImage props) => Some (OImage (stamp ws r props))
    | other => other
    end.
Proof.
  induction ws as [|wr ws IH]; intros h r.
  - simpl. by destruct (h !! r) as [[| | |props]|].
  - simpl. rewrite IH. unfold write_timestamp, assign_timestamp, stamp. simpl.
    destruct (h !! wr.1) as [[| | |props']|] eqn:Hw.
    1-3,5: destruct (decide (wr.1 = r)) as [Heq|Hne];
      [rewrite <- Heq, Hw; done|
       destruct (h !! r) as [[| | |props]|]; done].
    destruct (decide (wr.1 = r)) as [Heq|Hne].
    + rewrite <- Heq, lookup_insert_eq, Hw. done.
    + rewrite lookup_insert_ne by done.
      destruct (h !! r) as [[| | |props]|]; done.
Qed.

Lemma writes_twice ws h :
  foldl write_timestamp (foldl write_timestamp h ws) ws = foldl write_timestamp h ws.
Proof.
  apply map_eq. intros r. rewrite (lookup_writes ws (foldl write_timestamp h ws)).
  rewrite (lookup_writes ws h).
  destruct (h !! r) as [[| | |props]|]; try done.
  by rewrite stamp_twice.
Qed.

Lemma getImageFrames_unfold (w : World) :
  getImageFrames host w =
    match getTimestamps w with
    | Thrown e => (Thrown e, w)
    | Returned timestamps =>
        match truthy (getStreams w), getImageStreamNames w with
        | true, Some names =>
            match align_streams host (getStreams w) timestamps names ∅ (heap w) with
            | (Thrown e, h) =>
                (Thrown e, {| this := this w; heap := h; calls := calls w |})
            | (Returned frames, h) =>
                (Returned (Some frames),
                 {| this := this w; heap := h; calls := calls w |})
            end
        | _, _ => (Returned None, w)
        end
    end.
Proof. reflexivity. Qed.

Lemma getImageFrames_again (w : World) :
  getImageFrames host (getImageFrames host w).2 = getImageFrames host w.
Proof.
  destruct (getTimestamps w) as [ts|e] eqn:Hts.
  2:{ assert (H : getImageFrames host w = (Thrown e, w))
        by (by rewrite getImageFrames_unfold, Hts).
      by rewrite H. }
  destruct (truthy (getStreams w)) eqn:Hstreams.
  2:{ assert (H : getImageFrames host w = (Returned None, w))
        by (by rewrite getImageFrames_unfold, Hts, Hstreams).
      by rewrite H. }
  destruct (getImageStreamNames w) as [names|] eqn:Hnames.
  2:{ assert (H : getImageFrames host w = (Returned None, w))
        by (by rewrite getImageFrames_unfold, Hts, Hstreams, Hnames).
      by rewrite H. }
  set (ws := streams_writes host (as_streams (heap w) (getStreams w)) ts names).
  set (w1 := {| this := this w; heap := foldl write_timestamp (heap w) ws;
                calls := calls w |}).
  pose proof (align_streams_writes (getStreams w) ts names ∅ (heap w)) as Hw.
  fold ws in Hw.
  assert (Hts1 : getTimestamps w1 = Returned ts).
  { rewrite <- Hts. unfold getTimestamps, recomputed, stream_of, w1. simpl.
    by rewrite writes_as_streams. }
  assert (Hnames1 : getImageStreamNames w1 = Some names).
  { rewrite <- Hnames.
    unfold getImageStreamNames, recomputed, metadata_streams, w1. simpl.
    by rewrite writes_as_metadata. }
  assert (Hstreams1 : getStreams w1 = getStreams w) by done.
  assert (Hout : (align_streams host (getStreams w) ts names ∅ (heap w1)).1
                 = (align_streams host (getStreams w) ts names ∅ (heap w)).1).
  { apply align_streams_outcome. apply writes_as_streams. }
  assert (Hheap : (align_streams host (getStreams w) ts names ∅ (heap w1)).2 = heap w1).
  { rewrite align_streams_writes. unfold w1. simpl.
    rewrite writes_as_streams. fold ws. apply writes_twice. }
  assert (Hfirst : getImageFrames host w =
            (match (align_streams host (getStreams w) ts names ∅ (heap w)).1 with
             | Returned frames => Returned (Some frames)
             | Thrown e => Thrown e
             end, w1)).
  { rewrite getImageFrames_unfold, Hts, Hstreams, Hnames. unfold w1.
    destruct (align_streams host (getStreams w) ts names ∅ (heap w)) as [[frames|e] h];
      simpl in *; by subst h. }
  rewrite Hfirst. simpl.
  rewrite getImageFrames_unfold, Hts1, Hstreams1, Hstreams, Hnames1.
  destruct (align_streams host (getStreams w) ts names ∅ (heap w1)) as [[frames|e] h];
    simpl in *; subst h; by rewrite <- Hout.
Qed.

(** Reading [getImageFrames()] a second time returns what the first read
    returned and changes nothing more: every object is left as the first
    read left it, also when image objects are shared between frames. *)
Theorem getImageFrames_second_read_changes_nothing (w : World) :
  (getImageFrames host (getImageFrames host w).2).1 = (getImageFrames host w).1
  ∧ (getImageFrames host (getImageFrames host w).2).2 = (getImageFrames host w).2.
Proof. by rewrite getImageFrames_again. Qed.

End SelectorsMore.

Lemma getImageFrames_throws_without_vehicle_poses_witness :
  throws (getImageFrames Demo.host5 Demo.no_pose_world).1.
Proof.
  apply (getImageFrames_throws_without_vehicle_poses Demo.host5 Demo.no_pose_world
           ["/camera/front"; "/camera/rear"] "/camera/front"
           (EFrame (Some [VObj 5])) [EValue VUndefined]);
    try reflexivity.
  apply elem_of_cons. by left.
Defined.

(** ** The event callbacks *)

Section Events.

Lemma emit_on_same (type : string) (cb : nat) (args : value)
    (callbacks after : gmap string (list nat)) (before : list Emitter.Call) :
  Emitter.on type cb callbacks = Returned after →
  Emitter.emit type args callbacks = Returned before →
  Emitter.emit type args after
  = Returned (before ++ [{| Emitter.callback := cb; Emitter.eventType := type;
                            Emitter.eventArgs := args |}]).
Proof.
  unfold Emitter.emit, Emitter.on. destruct (inherited type); [done|].
  intros [= <-]. rewrite lookup_insert_eq.
  destruct (callbacks !! type) as [registered|]; simpl; intros [= <-]; [|done].
  by rewrite map_app.
Qed.

Lemma emit_on_other (type type' : string) (cb : nat) (args : value)
    (callbacks after : gmap string (list nat)) :
  type' ≠ type →
  Emitter.on type cb callbacks = Returned after →
  Emitter.emit type' args after = Emitter.emit type' args callbacks.
Proof.
  intros Hne. unfold Emitter.emit, Emitter.on. destruct (inherited type); [done|].
  intros [= <-]. by rewrite lookup_insert_ne.
Qed.

(** For an event type that [this.callbacks] does not inherit, [on] and
    [emit] return, and [emit] calls the callbacks registered for the type
    in the order of registration, each with the event type and the
    arguments: a callback registered with [on] is called last, after those
    registered before, and is not called for any other event type. With no
    callback registered for the type, [emit] calls nothing. *)
Theorem emit_calls_in_registration_order (type : string) (cb : nat) (args : value)
    (callbacks : gmap string (list nat)) :
  inherited type = false →
  ∃ after before,
    Emitter.on type cb callbacks = Returned after
    ∧ Emitter.emit type args callbacks = Returned before
    ∧ Emitter.emit type args after
      = Returned (before ++ [{| Emitter.callback := cb; Emitter.eventType := type;
                                Emitter.eventArgs := args |}])
    ∧ (∀ type', type' ≠ type →
         Emitter.emit type' args after = Emitter.emit type' args callbacks)
    ∧ (callbacks !! type = None → before = []).
Proof.
  intros Hown.
  assert (Hon : ∃ after, Emitter.on type cb callbacks = Returned after).
  { unfold Emitter.on. rewrite Hown. by eexists. }
  assert (Hemit : ∃ before, Emitter.emit type args callbacks = Returned before
                            ∧ (callbacks !! type = None → before = [])).
  { unfold Emitter.emit. rewrite Hown.
    destruct (callbacks !! type); eexists; (split; [reflexivity|done]). }
  destruct Hon as (after & Hon), Hemit as (before & Hemit & Hnone).
  exists after, before. split; [done|]. split; [done|].
  split; [by apply (emit_on_same type cb args callbacks)|].
  split; [|done]. intros type' Hne. by apply (emit_on_other type type' cb args callbacks).
Qed.

(** For an event type that [this.callbacks] does not inherit, [off] undoes
    [on] for a callback that was not registered for the type: afterwards
    every [emit] makes the calls it made before. [off] of a callback that
    is not registered for the type changes nothing, and [off] of one
    registered several times removes one registration. *)
Theorem off_undoes_on (type : string) (cb : nat) (callbacks : gmap string (list nat)) :
  inherited type = false →
  (cb ∉ default [] (callbacks !! type) →
   ∃ after restored,
     Emitter.on type cb callbacks = Returned after
     ∧ Emitter.off type cb after = Returned restored
     ∧ ∀ type' args, Emitter.emit type' args restored = Emitter.emit type' args callbacks)
  ∧ (cb ∉ default [] (callbacks !! type) →
     Emitter.off type cb callbacks = Returned callbacks)
  ∧ (∀ registered args,
       callbacks !! type = Some registered → cb ∈ registered →
       ∃ after calls,
         Emitter.off type cb callbacks = Returned after
         ∧ Emitter.emit type args after = Returned calls
         ∧ length calls = (length registered - 1)%nat).
Proof.
  intros Hown. split; [|split].
  - intros Hnew. unfold Emitter.off, Emitter.on. rewrite Hown.
    eexists. eexists. split; [reflexivity|].
    rewrite lookup_insert_eq. rewrite decide_True.
    2:{ apply elem_of_app. right. apply elem_of_cons. by left. }
    split; [reflexivity|]. intros type' args.
    rewrite (remove_first_app_new _ _ Hnew). unfold Emitter.emit.
    destruct (decide (type' = type)) as [->|Hne].
    + rewrite Hown, lookup_insert_eq. by destruct (callbacks !! type).
    + by rewrite !lookup_insert_ne.
  - intros Hnew. unfold Emitter.off. rewrite Hown.
    destruct (callbacks !! type) as [registered|]; [|done].
    by rewrite decide_False.
  - intros registered args Hreg Hin. unfold Emitter.off, Emitter.emit.
    rewrite Hown, Hreg, decide_True by done.
    eexists. eexists. split; [reflexivity|].
    rewrite lookup_insert_eq. split; [reflexivity|]. rewrite length_map.
    clear Hreg. induction registered as [|x xs IH]; [by apply elem_of_nil in Hin|].
    simpl. destruct (Nat.eqb_spec x cb) as [->|Hne]; [lia|].
    apply elem_of_cons in Hin as [?|Hin]; [congruence|].
    simpl. rewrite (IH Hin). destruct xs; [by apply elem_of_nil in Hin|simpl; lia].
Qed.

End Events.

Lemma get_after_set_witness :
  get "timestamp" (set "timestamp" (VNum 7) Demo.nan_world) = VNum 7.
Proof.
  destruct (get_after_set "timestamp" (VNum 7) Demo.nan_world eq_refl)
    as [H|(x & y & _ & Hy & _ & _ & Zy)]; [exact H|].
  vm_compute in Hy. injection Hy as <-. vm_compute in Zy. discriminate.
Defined.

Lemma emit_calls_in_registration_order_witness :
  ∃ after,
    Emitter.on "update" 2 {["update" := [1%nat]]} = Returned after
    ∧ Emitter.emit "update" (VNum 7) after
      = Returned [ {| Emitter.callback := 1; Emitter.eventType := "update";
                      Emitter.eventArgs := VNum 7 |};
                   {| Emitter.callback := 2; Emitter.eventType := "update";
                      Emitter.eventArgs := VNum 7 |} ].
Proof.
  destruct (emit_calls_in_registration_order "update" 2 (VNum 7)
              {["update" := [1%nat]]} eq_refl)
    as (after & before & Hon & Hbefore & Hafter & _).
  exists after. split; [exact Hon|]. rewrite Hafter.
  vm_compute in Hbefore. injection Hbefore as <-. reflexivity.
Defined.

Lemma off_undoes_on_witness :
  Emitter.off "update" 2 {["update" := [1%nat]]} = Returned {["update" := [1%nat]]}.
Proof.
  apply (off_undoes_on "update" 2 {["update" := [1%nat]]} eq_refl).
  vm_compute. intros H. apply elem_of_cons in H as [H|H]; [discriminate|].
  by apply elem_of_nil in H.
Defined.


(** ** Further properties of the GPS converter *)

Section ConverterMore.

Variable host : Host.
Variable io : GPS.Imports.

Lemma convert_files_lookup (dir : string) (ts : list value) (files : list string) :
  ∀ i, ∃ entries,
    GPS.convert_files host io dir ts files i = Returned entries
    ∧ length entries = length files
    ∧ ∀ j fileName, files !! j = Some fileName →
        ∃ e, entries !! j = Some e
             ∧ GPS._convertPose host io (GPS.path_join dir fileName)
                 (default VUndefined (ts !! (i + j)%nat)) = Returned e.
Proof.
  induction files as [|first rest IH]; intros i.
  - exists []. repeat split. intros j fileName Hj. by rewrite lookup_nil in Hj.
  - destruct (IH (S i)) as (entries & Hrest & Hlen & Hall).
    destruct (_convertPose_carries host io (GPS.path_join dir first)
                (default VUndefined (ts !! i))) as (entry & Hentry & _).
    exists (entry :: entries). cbn [GPS.convert_files]. rewrite Hentry, Hrest.
    split; [done|]. split; [simpl; by rewrite Hlen|].
    intros [|j] fileName Hj; simpl in Hj.
    + injection Hj as <-. exists entry. by rewrite Nat.add_0_r.
    + replace (i + S j)%nat with (S i + j)%nat by lia. by apply Hall.
Qed.

Lemma load_lookup (c : GPS.GPSConverter) :
  ∃ r, GPS.load host io c = Returned r
    ∧ length (GPS.poses r) = length (GPS.gpsFiles r)
    ∧ ∀ i fileName, GPS.gpsFiles r !! i = Some fileName →
        ∃ e, GPS.poses r !! i = Some e
             ∧ GPS._convertPose host io (GPS.path_join (GPS.gpsDir c) fileName)
                 (default VUndefined (GPS.timestamps r !! i)) = Returned e.
Proof.
  unfold GPS.load.
  destruct (convert_files_lookup (GPS.gpsDir c)
              (GPS.getTimestamps io
                 (GPS.path_join (GPS.path_join (GPS.rootDir c) "oxts") "timestamps.txt"))
              (GPS.sort (GPS.readdirSync io (GPS.gpsDir c))) 0)
    as (entries & Hconv & Hlen & Hall).
  rewrite Hconv. eexists. split; [reflexivity|]. simpl. split; [done|].
  intros i fileName Hi. exact (Hall i fileName Hi).
Qed.

(** After [load()], [getPose(i)] returns for every frame number below the
    number of files: the pose decoded from the [i]-th file name with
    [timestamps[i]] as its time. For any other frame number it is a
    TypeError. *)
Theorem getPose_after_load (c : GPS.GPSConverter) :
  ∃ r, GPS.load host io c = Returned r
    ∧ (∀ i fileName, GPS.gpsFiles r !! i = Some fileName →
         ∃ e, GPS._convertPose host io (GPS.path_join (GPS.gpsDir c) fileName)
                (default VUndefined (GPS.timestamps r !! i)) = Returned e
              ∧ GPS.getPose r i = Returned (GPS.pose e)
              ∧ GPS.time (GPS.pose e) = default VUndefined (GPS.timestamps r !! i))
    ∧ (∀ i, (length (GPS.gpsFiles r) ≤ i)%nat → GPS.getPose r i = Thrown TypeError).
Proof.
  destruct (load_lookup c) as (r & Hload & Hlen & Hall).
  exists r. split; [done|]. split.
  - intros i fileName Hi. destruct (Hall i fileName Hi) as (e & He & Hconv).
    exists e. split; [done|]. unfold GPS.getPose. rewrite He. split; [done|].
    unfold GPS._convertPose, GPS._convertPoseEntry in Hconv. by injection Hconv as <-.
  - intros i Hi. unfold GPS.getPose.
    rewrite (lookup_ge_None_2 (GPS.poses r) i); [done|]. by rewrite Hlen.
Qed.


Lemma first_line_before_break (a b : string) :
  GPS.has_newline a = false →
  GPS.first_line (a +:+ String "010"%char b) = a.
Proof.
  induction a as [|ch a IH]; simpl; [done|]. intros H.
  apply orb_false_elim in H as [Hc Ha]. rewrite Hc. by rewrite (IH Ha).
Qed.

(** [_convertPose] decodes the first line of the file and nothing after it:
    for a file that starts with a line [a] followed by a line break, the
    result is the decoding of the record parsed from [a], whatever
    follows. *)
Theorem _convertPose_reads_the_first_line (filePath : string) (a b : string)
    (timestamp : value) :
  GPS.readFileSync io filePath = a +:+ String "010"%char b →
  GPS.has_newline a = false →
  GPS._convertPose host io filePath timestamp
  = GPS._convertPoseEntry host (GPS.loadOxtsPackets io a) timestamp.
Proof.
  intros Hfile Ha. unfold GPS._convertPose. by rewrite Hfile, (first_line_before_break a b Ha).
Qed.

(** [_convertPoseEntry] reads the 23 named properties of the record and no
    other: two records that agree on them decode to the same entry. *)
Theorem _convertPoseEntry_reads_only_its_fields (oxts oxts' : gmap string value)
    (timestamp : value) :
  (∀ name, name ∈ map fst GPS.numeric_fields → oxts !! name = oxts' !! name) →
  GPS._convertPoseEntry host oxts timestamp = GPS._convertPoseEntry host oxts' timestamp.
Proof.
  intros Hsame.
  assert (Hf : ∀ name, name ∈ map fst GPS.numeric_fields →
                       GPS.field oxts name = GPS.field oxts' name).
  { intros name Hin. unfold GPS.field. by rewrite (Hsame name Hin). }
  unfold GPS._convertPoseEntry.
  rewrite !Hf by (simpl; set_solver).
  reflexivity.
Qed.

End ConverterMore.

Lemma getPose_after_load_witness :
  ∃ r, GPS.load Demo.host5 Demo.two_files (GPS.constructor "kitti") = Returned r
    ∧ (∃ p, GPS.getPose r 1 = Returned p ∧ GPS.latitude p = 50%float
            ∧ GPS.time p = VNum 100)
    ∧ GPS.getPose r 2 = Thrown TypeError.
Proof.
  destruct (getPose_after_load Demo.host5 Demo.two_files (GPS.constructor "kitti"))
    as (r & Hload & Hin & Hout).
  exists r. split; [exact Hload|].
  assert (Hr : r = {| GPS.timestamps := [VNum 0; VNum 100];
                      GPS.gpsFiles := ["0000000000.txt"; "0000000001.txt"];
                      GPS.poses := GPS.poses r |}).
  { vm_compute in Hload. injection Hload as <-. reflexivity. }
  split.
  - destruct (Hin 1%nat "0000000001.txt") as (e & Hconv & Hpose & Htime).
    { rewrite Hr. reflexivity. }
    exists (GPS.pose e). split; [exact Hpose|].
    rewrite Hr in Hconv, Htime. vm_compute in Hconv. injection Hconv as <-.
    split; reflexivity.
  - apply Hout. rewrite Hr. simpl. lia.
Defined.

Lemma _convertPose_reads_the_first_line_witness :
  GPS._convertPose Demo.host5 Demo.two_files "kitti/oxts/data/0000000000.txt" (VNum 0)
  = GPS._convertPoseEntry Demo.host5 (GPS.loadOxtsPackets Demo.two_files "49") (VNum 0).
Proof.
  apply (_convertPose_reads_the_first_line Demo.host5 Demo.two_files
           "kitti/oxts/data/0000000000.txt" "49" "second line" (VNum 0));
    reflexivity.
Defined.

Lemma _convertPoseEntry_reads_only_its_fields_witness :
  GPS._convertPoseEntry Demo.host5 (<["comment" := VStr "calibrated"]> Demo.oxts_without_lat)
    (VNum 0)
  = GPS._convertPoseEntry Demo.host5 Demo.oxts_without_lat (VNum 0).
Proof.
  apply (_convertPoseEntry_reads_only_its_fields Demo.host5).
  intros name Hin. apply lookup_insert_ne. intros <-.
  vm_compute in Hin. repeat (apply elem_of_cons in Hin as [Hin|Hin]; [discriminate|]).
  by apply elem_of_nil in Hin.
Defined.

(** ** The order of the frames *)

Section FrameOrder.

Variable host : Host.

Lemma ascii_compare_N (a b : ascii) :
  Ascii.compare a b = N.compare (N_of_ascii a) (N_of_ascii b).
Proof. reflexivity. Qed.

Lemma string_compare_trans (c : comparison) : ∀ s1 s2 s3 : string,
  String.compare s1 s2 = c → String.compare s2 s3 = c → String.compare s1 s3 = c.
Proof.
  induction s1 as [|a1 s1 IH]; intros [|a2 s2] [|a3 s3]; simpl; try congruence.
  rewrite !ascii_compare_N.
  destruct (N.compare_spec (N_of_ascii a1) (N_of_ascii a2)) as [E12|L12|L12],
           (N.compare_spec (N_of_ascii a2) (N_of_ascii a3)) as [E23|L23|L23];
    try congruence; intros H1 H2.
  - rewrite E12, E23, N.compare_refl. by apply (IH s2 s3).
  - rewrite E12. by apply N.compare_lt_iff in L23 as ->.
  - rewrite E12. by apply N.compare_gt_iff in L23 as ->.
  - rewrite <- E23. by apply N.compare_lt_iff in L12 as ->.
  - assert (L13 : (N_of_ascii a1 < N_of_ascii a3)%N) by lia.
    by apply N.compare_lt_iff in L13 as ->.
  - rewrite <- E23. by apply N.compare_gt_iff in L12 as ->.
  - assert (L13 : (N_of_ascii a3 < N_of_ascii a1)%N) by lia.
    by apply N.compare_gt_iff in L13 as ->.
Qed.

Lemma string_leb_trans (s1 s2 s3 : string) :
  String.leb s1 s2 = true → String.leb s2 s3 = true → String.leb s1 s3 = true.
Proof.
  unfold String.leb.
  destruct (String.compare s1 s2) eqn:H12; [| |done];
    destruct (String.compare s2 s3) eqn:H23; try done; intros _ _.
  - by rewrite (string_compare_trans Eq s1 s2 s3).
  - apply String.compare_eq_iff in H12 as ->. by rewrite H23.
  - apply String.compare_eq_iff in H23 as <-. by rewrite H12.
  - by rewrite (string_compare_trans Lt s1 s2 s3).
Qed.

Lemma sort_insert_permutation (s : string) (l : list string) :
  GPS.sort_insert s l ≡ₚ s :: l.
Proof.
  induction l as [|x rest IH]; simpl; [done|].
  destruct (String.leb s x); [done|]. rewrite IH. apply Permutation_swap.
Qed.

Lemma sort_permutation (l : list string) : GPS.sort l ≡ₚ l.
Proof.
  induction l as [|x rest IH]; simpl; [done|].
  rewrite sort_insert_permutation. by rewrite IH.
Qed.

Lemma sort_insert_sorted (s : string) (l : list string) :
  Sorted (λ a b, String.leb a b = true) l →
  Sorted (λ a b, String.leb a b = true) (GPS.sort_insert s l).
Proof.
  induction 1 as [|x rest Hsorted IH Hhd]; simpl.
  - by repeat constructor.
  - destruct (String.leb s x) eqn:Hle.
    + constructor; [by constructor|by constructor].
    + assert (Hxs : String.leb x s = true).
      { destruct (String.leb_total s x) as [H|H]; [congruence|done]. }
      constructor; [done|].
      destruct rest as [|y rest']; simpl in *.
      * by constructor.
      * destruct (String.leb s y); constructor; [done|].
        by inversion Hhd.
Qed.

Lemma sort_sorted (l : list string) :
  Sorted (λ a b, String.leb a b = true) (GPS.sort l).
Proof.
  induction l as [|x rest IH]; simpl; [constructor|]. by apply sort_insert_sorted.
Qed.

Lemma sort_of_permutation (l l' : list string) : l' ≡ₚ l → GPS.sort l' = GPS.sort l.
Proof.
  intros Hperm.
  apply (@Sorted_unique_strong _ (λ a b, String.leb a b = true)
           (λ a b c, string_leb_trans a b c)).
  - intros a b _ _. apply String.leb_antisym.
  - apply sort_sorted.
  - apply sort_sorted.
  - by rewrite !sort_permutation.
Qed.

Lemma convert_files_reads (io io' : GPS.Imports) (dir : string) (ts : list value)
    (files : list string) :
  GPS.readFileSync io' = GPS.readFileSync io →
  GPS.loadOxtsPackets io' = GPS.loadOxtsPackets io →
  ∀ i, GPS.convert_files host io' dir ts files i = GPS.convert_files host io dir ts files i.
Proof.
  intros Hread Hparse. induction files as [|fileName rest IH]; intros i; [done|].
  cbn [GPS.convert_files]. rewrite IH. unfold GPS._convertPose. by rewrite Hread, Hparse.
Qed.

(** [load()] numbers the frames by file name, not by the order in which the
    directory is listed: the files of the recording are those of the
    listing in ascending order, and two listings of the same files give the
    same recording. *)
Theorem load_ignores_the_listing_order (io io' : GPS.Imports) (c : GPS.GPSConverter) :
  GPS.readdirSync io' (GPS.gpsDir c) ≡ₚ GPS.readdirSync io (GPS.gpsDir c) →
  GPS.readFileSync io' = GPS.readFileSync io →
  GPS.getTimestamps io' = GPS.getTimestamps io →
  GPS.loadOxtsPackets io' = GPS.loadOxtsPackets io →
  GPS.load host io' c = GPS.load host io c
  ∧ ∃ r, GPS.load host io c = Returned r
      ∧ GPS.gpsFiles r ≡ₚ GPS.readdirSync io (GPS.gpsDir c)
      ∧ Sorted (λ a b, String.leb a b = true) (GPS.gpsFiles r).
Proof.
  intros Hlist Hread Hts Hparse. split.
  - unfold GPS.load.
    rewrite (sort_of_permutation _ _ Hlist), Hts.
    by rewrite (convert_files_reads io io' _ _ _ Hread Hparse).
  - unfold GPS.load.
    destruct (convert_files_carry host io (GPS.gpsDir c)
                (GPS.getTimestamps io
                   (GPS.path_join (GPS.path_join (GPS.rootDir c) "oxts") "timestamps.txt"))
                (GPS.sort (GPS.readdirSync io (GPS.gpsDir c))) 0)
      as (entries & Hconv & _).
    rewrite Hconv. eexists. split; [reflexivity|]. simpl.
    split; [apply sort_permutation|apply sort_sorted].
Qed.

End FrameOrder.

Lemma load_ignores_the_listing_order_witness :
  GPS.load Demo.host5 Demo.two_files_in_order (GPS.constructor "kitti")
  = GPS.load Demo.host5 Demo.two_files (GPS.constructor "kitti").
Proof.
  apply (load_ignores_the_listing_order Demo.host5 Demo.two_files Demo.two_files_in_order
           (GPS.constructor "kitti")); try reflexivity.
  apply Permutation_swap.
Defined.

(** ** A seek inside the log *)

Section SeekInside.

Variable host : Host.

Lemma float_leb_not_nan (a b : float) :
  PrimFloat.leb a b = true → PrimFloat.is_nan a = false ∧ PrimFloat.is_nan b = false.
Proof.
  rewrite FloatAxioms.leb_spec. unfold SFleb. intros H.
  split; apply SF_is_nan; intros Hn; rewrite Hn in H;
    [|destruct (Prim2SF a)]; simpl in H; discriminate.
Qed.

Lemma float_leb_antisym (a b : float) :
  PrimFloat.leb a b = true → PrimFloat.leb b a = true → PrimFloat.eqb a b = true.
Proof.
  rewrite !FloatAxioms.leb_spec, FloatAxioms.eqb_spec. unfold SFleb, SFeqb.
  destruct (SFcompare (Prim2SF a) (Prim2SF b)) as [c|] eqn:Hc; [|done].
  rewrite (SFcompare_antisym _ _ _ Hc). by destruct c.
Qed.

Lemma float_zero_not_nan (a : float) : PrimFloat.is_zero a = true → PrimFloat.is_nan a = false.
Proof.
  intros Hz. destruct (is_zero_SF a Hz) as [s Hs]. apply SF_is_nan. by rewrite Hs.
Qed.

(** Within the upper bound, [Math.min] gives the number back, up to the
    sign of a zero. *)
Lemma Math_min_within (hi x : float) :
  PrimFloat.leb x hi = true →
  Math_min hi x = x
  ∨ PrimFloat.is_zero (Math_min hi x) = true ∧ PrimFloat.is_zero x = true.
Proof.
  intros Hle. destruct (float_leb_not_nan _ _ Hle) as [Hx Hhi].
  unfold Math_min. rewrite Hhi, Hx. simpl.
  destruct (PrimFloat.is_zero hi && PrimFloat.is_zero x) eqn:Hz.
  - apply andb_prop in Hz as [Zhi Zx]. destruct (PrimFloat.get_sign hi); [by right|by left].
  - destruct (PrimFloat.ltb hi x) eqn:Hlt; [|by left].
    pose proof (float_leb_ltb_trans _ _ _ Hle Hlt) as Hxx.
    pose proof (float_ltb_asym _ _ Hxx). congruence.
Qed.

(** Above the lower bound, [Math.max] gives a number equal to the one it
    was given. *)
Lemma Math_max_within (lo m x : float) :
  PrimFloat.leb lo x = true →
  m = x ∨ PrimFloat.is_zero m = true ∧ PrimFloat.is_zero x = true →
  PrimFloat.eqb (Math_max lo m) x = true.
Proof.
  intros Hle Hm. destruct (float_leb_not_nan _ _ Hle) as [Hlo Hx].
  assert (Hmn : PrimFloat.is_nan m = false).
  { destruct Hm as [->|[Zm _]]; [done|by apply float_zero_not_nan]. }
  assert (Hmx : PrimFloat.eqb m x = true).
  { destruct Hm as [->|[Zm Zx]]; [by apply float_eqb_refl|by apply float_eqb_zeros]. }
  unfold Math_max. rewrite Hlo, Hmn. simpl.
  destruct (PrimFloat.is_zero lo && PrimFloat.is_zero m) eqn:Hz.
  - apply andb_prop in Hz as [Zlo Zm].
    assert (Zx : PrimFloat.is_zero x = true).
    { destruct Hm as [<-|[_ Zx]]; done. }
    destruct (PrimFloat.get_sign lo); by apply float_eqb_zeros.
  - destruct (PrimFloat.ltb lo m) eqn:Hlt; [done|].
    pose proof (float_not_ltb_leb _ _ Hlo Hmn Hlt) as Hml.
    apply float_leb_antisym; [done|].
    destruct Hm as [<-|[Zm Zx]]; [done|].
    by rewrite (float_leb_zero_l x m lo Zx Zm).
Qed.

(** With a metadata object in the store, [seek(t)] of a time that lies
    within the bounds [start_time + TIME_WINDOW] and [end_time] leaves the
    cursor at that time: the clamp does not move it. Only the sign of a
    zero may differ. *)
Theorem seek_within_the_log_keeps_the_time (t : value) (w : World) (m : Metadata) :
  as_metadata (heap w) (getMetadata w) = Some m →
  PrimFloat.leb (start_time m + TIME_WINDOW (getXvizSettings host))%float
                (ToNumber (StringToNumber host) t) = true →
  PrimFloat.leb (ToNumber (StringToNumber host) t) (end_time m) = true →
  ∃ c, getCurrentTime (seek host t w) = VNum c
       ∧ PrimFloat.eqb c (ToNumber (StringToNumber host) t) = true.
Proof.
  intros Hm Hlo Hhi. rewrite (seek_with_metadata host _ _ _ Hm).
  assert (Hc : PrimFloat.eqb
                 (clamp host t
                    (VNum (start_time m + TIME_WINDOW (getXvizSettings host))%float)
                    (VNum (end_time m)))
                 (ToNumber (StringToNumber host) t) = true).
  { unfold clamp. simpl. apply Math_max_within; [done|]. by apply Math_min_within. }
  unfold getCurrentTime.
  destruct (get_set_same "timestamp"
              (VNum (clamp host t
                       (VNum (start_time m + TIME_WINDOW (getXvizSettings host))%float)
                       (VNum (end_time m)))) w)
    as [Hg|(x & y & Hx & Hy & Zx & Zy)].
  - eauto.
  - injection Hx as <-. exists y. split; [done|].
    destruct (float_eqb_true _ _ Hc) as [<-|[_ Zt]]; by apply float_eqb_zeros.
Qed.

End SeekInside.

Lemma seek_within_the_log_keeps_the_time_witness :
  getCurrentTime (seek Demo.host5 (VNum 150) Demo.metadata_world) = VNum 150.
Proof.
  destruct (seek_within_the_log_keeps_the_time Demo.host5 (VNum 150) Demo.metadata_world
              Demo.metadata_100_200 eq_refl eq_refl eq_refl) as (c & Hc & _).
  rewrite Hc. vm_compute in Hc. exact (eq_sym Hc).
Defined.
